(** * Treasury analytics core of [src/tools.ts]: calendar arithmetic, cashflow
    schedules, the NSS spot curve and the pricing entry points.

    A JavaScript [Date] is modelled by its time value: a number of
    milliseconds since 1970-01-01T00:00:00Z, an integer of [Z].  The
    calendar accessors follow the ECMAScript definitions ([Day],
    [YearFromTime], [MonthFromTime], [DateFromTime], [MakeDay], ...).  The
    local time zone is UTC, as it is in the Workers runtime the code is
    deployed on, so [getFullYear], [getMonth], [getDate] and [getDay] read
    the UTC calendar.  A [Date] here is a valid instant; a Date object that
    may be Invalid Date (a NaN time value, what [new Date(text)] yields for
    a text that is no date) is an [Obj.DateObject], and module [Obj] gives
    the schedule builder, the analytics entry point and their loops on
    such objects.  The range clip at +-8.64e15 ms is not represented.

    Prices, rates and day counts are JavaScript numbers; they are modelled
    as exact rationals ([Q]), so rounding is abstracted.  The NSS yield
    needs [Math.exp] and is stated over the reals. *)

From Stdlib Require Import ZArith QArith Lia List Bool String Ascii.
From Stdlib Require Import Reals Lra Lqa Sorted.
Import ListNotations.

#[local] Open Scope Z_scope.

(** ** ECMAScript date arithmetic *)

Module ES.

Definition msPerDay : Z := 86400000.

Definition Day (t : Z) : Z := t / msPerDay.
Definition TimeWithinDay (t : Z) : Z := t mod msPerDay.

Definition DaysInYear (y : Z) : Z :=
  if negb (y mod 4 =? 0) then 365
  else if negb (y mod 100 =? 0) then 366
  else if negb (y mod 400 =? 0) then 365
  else 366.

Definition DayFromYear (y : Z) : Z :=
  365 * (y - 1970) + (y - 1969) / 4 - (y - 1901) / 100 + (y - 1601) / 400.

Definition InLeapYear (y : Z) : Z := if DaysInYear y =? 366 then 1 else 0.

(** [YearFromTime]: the largest year whose first day is not after the day.
    The estimate [1970 + 400*d/146097] is off by at most one. *)
Definition YearFromDay (d : Z) : Z :=
  let y := 1970 + (400 * d) / 146097 in
  if DayFromYear (y + 1) <=? d then y + 1
  else if DayFromYear y <=? d then y
  else y - 1.

Definition DayWithinYear (d : Z) : Z := d - DayFromYear (YearFromDay d).

(** First day (within the year) of month [m], 0 = January. *)
Definition monthStartInYear (leap m : Z) : Z :=
  match m with
  | 0 => 0
  | 1 => 31
  | 2 => 59 + leap
  | 3 => 90 + leap
  | 4 => 120 + leap
  | 5 => 151 + leap
  | 6 => 181 + leap
  | 7 => 212 + leap
  | 8 => 243 + leap
  | 9 => 273 + leap
  | 10 => 304 + leap
  | 11 => 334 + leap
  | _ => 365 + leap
  end.

Definition MonthFromDay (d : Z) : Z :=
  let leap := InLeapYear (YearFromDay d) in
  let w := DayWithinYear d in
  if w <? 31 then 0
  else if w <? 59 + leap then 1
  else if w <? 90 + leap then 2
  else if w <? 120 + leap then 3
  else if w <? 151 + leap then 4
  else if w <? 181 + leap then 5
  else if w <? 212 + leap then 6
  else if w <? 243 + leap then 7
  else if w <? 273 + leap then 8
  else if w <? 304 + leap then 9
  else if w <? 334 + leap then 10
  else 11.

Definition DateFromDay (d : Z) : Z :=
  DayWithinYear d
  - monthStartInYear (InLeapYear (YearFromDay d)) (MonthFromDay d) + 1.

Definition WeekDay (t : Z) : Z := (Day t + 4) mod 7.

(** [MakeDay year month date]: the month may lie outside 0..11 and the
    date outside the month; both carry over. *)
Definition MakeDay (year month date : Z) : Z :=
  let ym := year + month / 12 in
  let mn := month mod 12 in
  DayFromYear ym + monthStartInYear (InLeapYear ym) mn + date - 1.

Definition MakeDate (day time : Z) : Z := day * msPerDay + time.

(** Truncation of a number towards zero ([ToIntegerOrInfinity]). *)
Definition ToInteger (q : Q) : Z := Z.quot (Qnum q) (Z.pos (Qden q)).

End ES.

(** ** The [Date] object, local time zone UTC *)

Definition Date := Z.

Definition getTime (d : Date) : Z := d.
Definition getFullYear (d : Date) : Z := ES.YearFromDay (ES.Day d).
Definition getMonth (d : Date) : Z := ES.MonthFromDay (ES.Day d).
Definition getDate (d : Date) : Z := ES.DateFromDay (ES.Day d).
Definition getDay (d : Date) : Z := ES.WeekDay d.

(** [d.setMonth(v)]: the month number is truncated to an integer; year and
    day of month are kept, the time within the day too. *)
Definition setMonth (d : Date) (v : Q) : Date :=
  ES.MakeDate (ES.MakeDay (getFullYear d) (ES.ToInteger v) (getDate d))
              (ES.TimeWithinDay d).

Definition setDate (d : Date) (v : Z) : Date :=
  ES.MakeDate (ES.MakeDay (getFullYear d) (getMonth d) v) (ES.TimeWithinDay d).

(** [new Date(year, month, day)]: years 0..99 are read as 1900..1999. *)
Definition newDate (year month day : Z) : Date :=
  let yr := if (0 <=? year) && (year <=? 99) then 1900 + year else year in
  ES.MakeDate (ES.MakeDay yr month day) 0.

(** A calendar day at midnight UTC, what [new Date("YYYY-MM-DD")] yields;
    [month] is 1..12 here. *)
Definition ymd (year month day : Z) : Date :=
  ES.MakeDate (ES.MakeDay year (month - 1) day) 0.

(** ** Constants *)

Definition CURVE_DATE : Date := ymd 2025 11 19.
Definition DAYS_IN_YEAR : Q := 36525 # 100.

(** ** Bond / date helpers *)

Definition daysBetween (a b : Date) : Q :=
  inject_Z (getTime b - getTime a) / inject_Z (1000 * 60 * 60 * 24).

Definition daysInMonth (year monthZeroBased : Z) : Z :=
  getDate (newDate year (monthZeroBased + 1) 0).

Definition addMonthsEOM (d : Date) (months : Q) : Date :=
  let year := getFullYear d in
  let month := getMonth d in
  let day := getDate d in
  let dim := daysInMonth year month in
  let isEOM := day =? dim in
  let nd := setMonth d (inject_Z month + months)%Q in
  if isEOM then
    let newDim := daysInMonth (getFullYear nd) (getMonth nd) in
    setDate nd newDim
  else nd.

(** ** Loops

    A [while] loop of the source is run with a bound on the number of
    times its body may be entered; [None] means the bound was reached. *)

Fixpoint loop {S R : Type} (fuel : nat) (body : S -> S + R) (s : S) : option R :=
  match fuel with
  | O => None
  | Datatypes.S n =>
      match body s with
      | inl s' => loop n body s'
      | inr r => Some r
      end
  end.

Definition bind {A B : Type} (o : option A) (k : A -> option B) : option B :=
  match o with
  | Some a => k a
  | None => None
  end.

Notation "x <- o ;; k" := (bind o (fun x => k))
  (at level 61, o at next level, right associativity).

(** ** Strings *)

Definition lowerAscii (c : ascii) : ascii :=
  let n := nat_of_ascii c in
  if (Nat.leb 65 n && Nat.leb n 90)%bool then ascii_of_nat (n + 32) else c.

Fixpoint toLowerCase (s : string) : string :=
  match s with
  | EmptyString => EmptyString
  | String c s' => String (lowerAscii c) (toLowerCase s')
  end.

Fixpoint includes (s sub : string) : bool :=
  String.prefix sub s ||
  match s with
  | EmptyString => false
  | String _ s' => includes s' sub
  end.

Fixpoint digits (width : nat) (n : Z) (acc : string) : string :=
  match width with
  | O => acc
  | Datatypes.S w =>
      digits w (n / 10)
        (String (ascii_of_nat (48 + Z.to_nat (n mod 10))) acc)
  end.

(** [d.toISOString().slice(0, 10)]: years outside 0..9999 print in the
    expanded form, of which the first ten characters stop after the month. *)
Definition toISODate (d : Date) : string :=
  let y := getFullYear d in
  let m := getMonth d + 1 in
  if (0 <=? y) && (y <=? 9999) then
    digits 4 y (String "-" (digits 2 m (String "-" (digits 2 (getDate d) ""))))
  else
    String (if y <? 0 then "-"%char else "+"%char)
      (digits 6 (Z.abs y) (String "-" (digits 2 m ""))).

(** ** getFrequencyPerYear *)

Record Frequency := { frequency : Z; isBill : bool }.

Definition getFrequencyPerYear (securityType : string)
    (InterestPaymentFrequency : option string) (interestRate : Q) : Frequency :=
  let typeLower := toLowerCase securityType in
  let freqLower :=
    toLowerCase (match InterestPaymentFrequency with Some s => s | None => "" end) in
  if includes typeLower "bill" || includes freqLower "none"
     || Qeq_bool interestRate 0
  then {| frequency := 0; isBill := true |}
  else if includes freqLower "semi" then {| frequency := 2; isBill := false |}
  else if includes freqLower "quarter" then {| frequency := 4; isBill := false |}
  else if includes freqLower "annual" || includes freqLower "year"
  then {| frequency := 1; isBill := false |}
  else if includes typeLower "note" || includes typeLower "bond"
  then {| frequency := 2; isBill := false |}
  else {| frequency := 2; isBill := false |}.

(** ** nextBusinessDay *)

Definition nextBusinessDay (fuel : nat) (d : Date) : option Date :=
  let nd := setDate d (getDate d + 1) in
  loop fuel
    (fun nd =>
       if (getDay nd =? 0) || (getDay nd =? 6)
       then inl (setDate nd (getDate nd + 1))
       else inr nd)
    nd.

(** ** Cashflows *)

Record Cashflow := { date : Date; tYears : Q; amount : Q }.

Record CashflowParams := {
  curveDate : Date;
  maturityDate : Date;
  interestRatePercent : option Q;
  frequencyPerYear : Z;
  datedDate : option Date;
  firstInterestPaymentDate : option Date
}.

Definition faceValue : Q := 100.

(** The fallback of [buildCashflowsForSecurity]: step back from maturity.
    The stopping test reads the module constant [CURVE_DATE]. *)
Definition firstCouponFallback (fuel : nat) (maturity : Date)
    (monthsPerPeriod : Q) : option Date :=
  loop fuel
    (fun d =>
       let prev := addMonthsEOM d (- monthsPerPeriod)%Q in
       if (prev <=? CURVE_DATE) || (prev <=? newDate 1970 0 1)
       then inr d
       else inl prev)
    maturity.

(** The same walk as the specification words it: it stops against the
    valuation date it is given. *)
Definition firstCouponFallbackBySpec (fuel : nat) (valuation maturity : Date)
    (monthsPerPeriod : Q) : option Date :=
  loop fuel
    (fun d =>
       let prev := addMonthsEOM d (- monthsPerPeriod)%Q in
       if (prev <=? valuation) || (prev <=? newDate 1970 0 1)
       then inr d
       else inl prev)
    maturity.

Definition couponLoop (fuel : nat) (curve maturity : Date)
    (couponPerPeriod monthsPerPeriod : Q) (first : Date)
    : option (list Cashflow) :=
  loop fuel
    (fun st : Date * list Cashflow =>
       let (cfDate, cashflows) := st in
       if cfDate <=? maturity then
         let cashflows' :=
           if curve <? cfDate then
             let t := (daysBetween curve cfDate / DAYS_IN_YEAR)%Q in
             let amt :=
               if getTime cfDate =? getTime maturity
               then (couponPerPeriod + faceValue)%Q
               else couponPerPeriod in
             cashflows ++ [{| date := cfDate; tYears := t; amount := amt |}]
           else cashflows in
         inl (addMonthsEOM cfDate monthsPerPeriod, cashflows')
       else inr cashflows)
    (first, []).

Definition buildCashflowsForSecurity (fuel : nat) (params : CashflowParams)
    : option (list Cashflow) :=
  let annualCouponRate :=
    ((match interestRatePercent params with Some r => r | None => 0 end) / 100)%Q in
  let couponPerPeriod :=
    ((faceValue * annualCouponRate) / inject_Z (frequencyPerYear params))%Q in
  let monthsPerPeriod := (12 / inject_Z (frequencyPerYear params))%Q in
  firstCouponDate <-
    match firstInterestPaymentDate params with
    | Some d => Some d
    | None =>
        match datedDate params with
        | Some d => Some (addMonthsEOM d monthsPerPeriod)
        | None => firstCouponFallback fuel (maturityDate params) monthsPerPeriod
        end
    end ;;
  couponLoop fuel (curveDate params) (maturityDate params)
    couponPerPeriod monthsPerPeriod firstCouponDate.

(** ** NSS yield and the calibration loss (over the reals) *)

Definition nssYield (tYears : R) (params : list R) : R :=
  let b0 := nth 0 params 0%R in
  let b1 := nth 1 params 0%R in
  let b2 := nth 2 params 0%R in
  let b3 := nth 3 params 0%R in
  let tau1 := nth 4 params 0%R in
  let tau2 := nth 5 params 0%R in
  if Rle_dec tYears 0 then b0
  else
    let x1 := (tYears / tau1)%R in
    let x2 := (tYears / tau2)%R in
    let term1 := ((1 - exp (- x1)) / x1)%R in
    let term2 := (term1 - exp (- x1))%R in
    let term3 := ((1 - exp (- x2)) / x2 - exp (- x2))%R in
    (b0 + b1 * term1 + b2 * term2 + b3 * term3)%R.

Record Bond := { cusip : string; dirtyPrice : Q; cashflows : list Cashflow }.

Definition bondSquaredErrorFromNss (params : list R) (bond : Bond) : R :=
  let pvNss :=
    fold_left
      (fun pv cf =>
         let y := nssYield (Q2R (tYears cf)) params in
         let df := exp (- y * Q2R (tYears cf)) in
         (pv + Q2R (amount cf) * df)%R)
      (cashflows bond) 0%R in
  let err := (Q2R (dirtyPrice bond) - pvNss)%R in
  (err * err)%R.

(** ** The database

    Two tables, read by CUSIP.  A date column carries the instant that
    [parseISODate] yields for its text, here a valid one; a nullable or
    empty one is [None].  Rows whose date texts may fail to parse are
    [Obj.SecRow]. *)

Record PriceRow := {
  p_cusip : string;
  END_OF_DAY : Q;
  BUY : option Q;
  SELL : option Q;
  RATE : option Q
}.

Record SecRow := {
  s_cusip : string;
  IssueDate : string;
  SecurityType : string;
  SecurityTerm : string;
  MaturityDate : Date;
  InterestRate : option Q;
  DatedDate : option Date;
  FirstInterestPaymentDate : option Date;
  InterestPaymentFrequency : option string
}.

Record Env := { prices : list PriceRow; securities : list SecRow }.

Definition rateOrZero (r : option Q) : Q :=
  match r with Some q => q | None => 0 end.

(** [JOIN ... ON p.CUSIP = s.CUSIP WHERE s.InterestRate IS NOT NULL AND
    s.InterestRate > 0]. *)
Definition couponRows (env : Env) : list (PriceRow * SecRow) :=
  flat_map
    (fun p =>
       map (fun s => (p, s))
         (filter
            (fun s =>
               String.eqb (p_cusip p) (s_cusip s) &&
               match InterestRate s with
               | Some r => negb (Qle_bool r 0)
               | None => false
               end)
            (securities env)))
    (prices env).

Fixpoint buildCouponBondsFrom (fuel : nat) (rows : list (PriceRow * SecRow))
    : option (list Bond) :=
  match rows with
  | [] => Some []
  | (p, s) :: rest =>
      let fq :=
        getFrequencyPerYear (SecurityType s) (InterestPaymentFrequency s)
          (rateOrZero (InterestRate s)) in
      if isBill fq || (frequency fq =? 0)
         || Qeq_bool (rateOrZero (InterestRate s)) 0
      then buildCouponBondsFrom fuel rest
      else
        cfs <- buildCashflowsForSecurity fuel
                 {| curveDate := CURVE_DATE;
                    maturityDate := MaturityDate s;
                    interestRatePercent := InterestRate s;
                    frequencyPerYear := frequency fq;
                    datedDate := DatedDate s;
                    firstInterestPaymentDate := FirstInterestPaymentDate s |} ;;
        bonds <- buildCouponBondsFrom fuel rest ;;
        Some (match cfs with
              | [] => bonds
              | _ => {| cusip := p_cusip p; dirtyPrice := END_OF_DAY p;
                        cashflows := cfs |} :: bonds
              end)
  end.

Definition buildCouponBonds (fuel : nat) (env : Env) : option (list Bond) :=
  buildCouponBondsFrom fuel (couponRows env).

(** ** Calibration

    [nelderMead] lives in a module of its own; a calibration either returns
    at once or asks for one optimizer run and goes on from its answer. *)

Record OptResult := { opt_x : list R; opt_fx : R; opt_iterations : option R }.

Record NssParameters := {
  beta0 : R; beta1 : R; beta2 : R; beta3 : R; tau1 : R; tau2 : R
}.

Record Calibrated := {
  parameters : NssParameters;
  sse : R;
  iterations : option R;
  bondsUsed : nat
}.

Inductive Calibration :=
| Done (r : string + Calibrated)
| Optimize (loss : list R -> R) (theta0 : list R)
           (k : OptResult -> string + Calibrated).

Definition nssLoss (bonds : list Bond) (theta : list R) : R :=
  let b0 := nth 0 theta 0%R in
  let b1 := nth 1 theta 0%R in
  let b2 := nth 2 theta 0%R in
  let b3 := nth 3 theta 0%R in
  let lnTau1 := nth 4 theta 0%R in
  let lnTau2 := nth 5 theta 0%R in
  let params := [b0; b1; b2; b3; exp lnTau1; exp lnTau2] in
  fold_left (fun s bond => (s + bondSquaredErrorFromNss params bond)%R) bonds 0%R.

Definition theta0 : list R :=
  [(4 / 100)%R; (- (2 / 100))%R; (2 / 100)%R; (1 / 100)%R; ln 1; ln 3].

Definition calibrateNssFromDb (fuel : nat) (env : Env) : option Calibration :=
  bonds <- buildCouponBonds fuel env ;;
  Some
    (if (List.length bonds =? 0)%nat then
       Done (inl "No bonds with usable coupon schedules were found for NSS fit."%string)
     else
       Optimize (nssLoss bonds) theta0
         (fun opt =>
            inr {| parameters :=
                     {| beta0 := nth 0 (opt_x opt) 0%R;
                        beta1 := nth 1 (opt_x opt) 0%R;
                        beta2 := nth 2 (opt_x opt) 0%R;
                        beta3 := nth 3 (opt_x opt) 0%R;
                        tau1 := exp (nth 4 (opt_x opt) 0%R);
                        tau2 := exp (nth 5 (opt_x opt) 0%R) |};
                   sse := opt_fx opt;
                   iterations := opt_iterations opt;
                   bondsUsed := List.length bonds |})).

Definition runCalibration (nelderMead : (list R -> R) -> list R -> OptResult)
    (c : Calibration) : string + Calibrated :=
  match c with
  | Done r => r
  | Optimize loss start k => k (nelderMead loss start)
  end.

Definition optimizerCalls (c : Calibration) : nat :=
  match c with
  | Done _ => 0
  | Optimize _ _ _ => 1
  end.

(** ** calculateTreasuryAnalytics *)

Module Analytics.

Inductive DayCountDetails :=
| BillDayCount (convention : string) (isBill : bool)
               (daysInPeriod daysIntoPeriod : Q)
| CouponDayCount (convention : string) (lastCouponDate nextCouponDate : string)
                 (daysInPeriod daysIntoPeriod : Q).

(** The success payload.  [maturityDate] echoes the stored column;
    [couponPerPeriodPer100] is absent from the bill payload. *)
Record t := {
  cusip : string;
  securityType : string;
  securityTerm : string;
  datasetPriceDate : string;
  settlementDate : string;
  issueDate : string;
  maturityDate : Date;
  couponRateAnnualPercent : option Q;
  couponPerPeriodPer100 : option Q;
  cleanPricePer100 : Q;
  accruedInterestPer100 : Q;
  dirtyPricePer100 : Q;
  f : Q;
  dayCountDetails : DayCountDetails;
  explanation : string
}.

End Analytics.

Definition daysInPeriodOf (d : Analytics.DayCountDetails) : Q :=
  match d with
  | Analytics.BillDayCount _ _ dip _ => dip
  | Analytics.CouponDayCount _ _ _ dip _ => dip
  end.

Definition billExplanation : string :=
  "This security is treated as a bill (zero-coupon). There are no coupon payments, so accrued interest is zero and the dirty price equals the clean price. The time offset f is 0.".

Definition couponExplanation : string :=
  "Using the Nov 18, 2025 clean price from 'nov18_treasury_securities', we treat settlement as the next business day after today. The coupon schedule comes from 'additional_data_new', with an end-of-month rule so a Feb 28 coupon becomes Feb 29 in leap years. We compute f = daysIntoPeriod / daysInPeriod, accrued interest = couponPerPeriod * f, and dirty price = clean price + accrued interest.".

(** The coupon dates around settlement: walk back from maturity. *)
Definition couponBracket (fuel : nat) (maturity settlement : Date)
    (monthsPerPeriod : Q) : option (Date * Date) :=
  r <- loop fuel
         (fun current =>
            let previous := addMonthsEOM current (- monthsPerPeriod)%Q in
            if (previous <=? settlement) || (previous <=? newDate 1970 0 1)
            then inr (current, previous)
            else inl previous)
         maturity ;;
  let (current, previous) := r : Date * Date in
  let last := if previous <=? settlement then previous else current in
  let next := addMonthsEOM last monthsPerPeriod in
  Some (last, next).

(** [today] is the reading of the clock, [new Date()]. *)
Definition calculateTreasuryAnalytics (fuel : nat) (env : Env) (cusip : string)
    (today : Date) : option (string + Analytics.t) :=
  match find (fun p => String.eqb (p_cusip p) cusip) (prices env) with
  | None =>
      Some (inl ("No price record found in 'nov18_treasury_securities' for CUSIP "
                 ++ cusip ++ ".")%string)
  | Some priceRow =>
  match find (fun s => String.eqb (s_cusip s) cusip) (securities env) with
  | None =>
      Some (inl ("No security record found in 'additional_data_new' for CUSIP "
                 ++ cusip ++ ".")%string)
  | Some secRow =>
      let cleanPrice := END_OF_DAY priceRow in
      let datasetPriceDate := "2025-11-18"%string in
      let maturityDate := MaturityDate secRow in
      let annualCouponRate := (rateOrZero (InterestRate secRow) / 100)%Q in
      let fq :=
        getFrequencyPerYear (SecurityType secRow)
          (InterestPaymentFrequency secRow) (rateOrZero (InterestRate secRow)) in
      let frequencyPerYear := frequency fq in
      settlementDate <- nextBusinessDay fuel today ;;
      if isBill fq || (frequencyPerYear =? 0) || Qeq_bool annualCouponRate 0
      then
        Some (inr
          {| Analytics.cusip := cusip;
             Analytics.securityType := SecurityType secRow;
             Analytics.securityTerm := SecurityTerm secRow;
             Analytics.datasetPriceDate := datasetPriceDate;
             Analytics.settlementDate := toISODate settlementDate;
             Analytics.issueDate := IssueDate secRow;
             Analytics.maturityDate := MaturityDate secRow;
             Analytics.couponRateAnnualPercent := InterestRate secRow;
             Analytics.couponPerPeriodPer100 := None;
             Analytics.cleanPricePer100 := cleanPrice;
             Analytics.accruedInterestPer100 := 0;
             Analytics.dirtyPricePer100 := cleanPrice;
             Analytics.f := 0;
             Analytics.dayCountDetails :=
               Analytics.BillDayCount "Actual/Actual" true 0 0;
             Analytics.explanation := billExplanation |})
      else
        let couponPerPeriod :=
          ((faceValue * annualCouponRate) / inject_Z frequencyPerYear)%Q in
        let monthsPerPeriod := (12 / inject_Z frequencyPerYear)%Q in
        bracket <- couponBracket fuel maturityDate settlementDate monthsPerPeriod ;;
        let (lastCouponDate, nextCouponDate) := bracket : Date * Date in
        let daysInPeriod := daysBetween lastCouponDate nextCouponDate in
        let daysIntoPeriod := daysBetween lastCouponDate settlementDate in
        let f :=
          if Qeq_bool daysInPeriod 0 then 0%Q
          else (daysIntoPeriod / daysInPeriod)%Q in
        let accruedInterestPer100 := (couponPerPeriod * f)%Q in
        let dirtyPricePer100 := (cleanPrice + accruedInterestPer100)%Q in
        Some (inr
          {| Analytics.cusip := cusip;
             Analytics.securityType := SecurityType secRow;
             Analytics.securityTerm := SecurityTerm secRow;
             Analytics.datasetPriceDate := datasetPriceDate;
             Analytics.settlementDate := toISODate settlementDate;
             Analytics.issueDate := IssueDate secRow;
             Analytics.maturityDate := MaturityDate secRow;
             Analytics.couponRateAnnualPercent := InterestRate secRow;
             Analytics.couponPerPeriodPer100 := Some couponPerPeriod;
             Analytics.cleanPricePer100 := cleanPrice;
             Analytics.accruedInterestPer100 := accruedInterestPer100;
             Analytics.dirtyPricePer100 := dirtyPricePer100;
             Analytics.f := f;
             Analytics.dayCountDetails :=
               Analytics.CouponDayCount
                 "Actual/Actual with end-of-month adjustment"
                 (toISODate lastCouponDate) (toISODate nextCouponDate)
                 daysInPeriod daysIntoPeriod;
             Analytics.explanation := couponExplanation |})
  end
  end.

(** ** Sample records *)

Module Samples.

(** A ten-year semi-annual note, 4 percent, quoted 98.50. *)
Definition noteRow : SecRow :=
  {| s_cusip := "NOTE2034"; IssueDate := "2024-01-15"; SecurityType := "Note";
     SecurityTerm := "10-Year"; MaturityDate := ymd 2034 1 15;
     InterestRate := Some 4%Q; DatedDate := Some (ymd 2024 1 15);
     FirstInterestPaymentDate := None;
     InterestPaymentFrequency := Some "Semi-Annual"%string |}.

Definition notePrice : PriceRow :=
  {| p_cusip := "NOTE2034"; END_OF_DAY := 985 # 10; BUY := None; SELL := None;
     RATE := Some 4%Q |}.

(** A bill. *)
Definition billRow : SecRow :=
  {| s_cusip := "BILL2026"; IssueDate := "2025-08-21"; SecurityType := "Bill";
     SecurityTerm := "26-Week"; MaturityDate := ymd 2026 2 19;
     InterestRate := None; DatedDate := None;
     FirstInterestPaymentDate := None;
     InterestPaymentFrequency := Some "None"%string |}.

Definition billPrice : PriceRow :=
  {| p_cusip := "BILL2026"; END_OF_DAY := 99 # 1; BUY := None; SELL := None;
     RATE := None |}.

(** A twenty-year semi-annual bond dated 1955, maturing 1975. *)
Definition oldBondRow : SecRow :=
  {| s_cusip := "BOND1975"; IssueDate := "1955-01-15"; SecurityType := "Bond";
     SecurityTerm := "20-Year"; MaturityDate := ymd 1975 1 15;
     InterestRate := Some 4%Q; DatedDate := Some (ymd 1955 1 15);
     FirstInterestPaymentDate := None;
     InterestPaymentFrequency := Some "Semi-Annual"%string |}.

Definition oldBondPrice : PriceRow :=
  {| p_cusip := "BOND1975"; END_OF_DAY := 100 # 1; BUY := None; SELL := None;
     RATE := Some 4%Q |}.

Definition env : Env :=
  {| prices := [notePrice; billPrice; oldBondPrice];
     securities := [noteRow; billRow; oldBondRow] |}.

Definition billsOnly : Env :=
  {| prices := [billPrice]; securities := [billRow] |}.

(** An instant given by calendar day and time of day. *)
Definition at_time (year month day hour : Z) : Date :=
  ymd year month day + hour * 3600000.

(** A five-year note paying at month ends, first coupon 2022-05-31,
    maturing 2026-11-30, valued at the curve date. *)
Definition monthEndNote : CashflowParams :=
  {| curveDate := CURVE_DATE; maturityDate := ymd 2026 11 30;
     interestRatePercent := Some 4%Q; frequencyPerYear := 2;
     datedDate := Some (ymd 2021 11 30);
     firstInterestPaymentDate := Some (ymd 2022 5 31) |}.

(** A schedule without anchors, valued on 2020-01-01. *)
Definition unanchored2020 : CashflowParams :=
  {| curveDate := ymd 2020 1 1; maturityDate := ymd 2030 1 15;
     interestRatePercent := Some 4%Q; frequencyPerYear := 2;
     datedDate := None; firstInterestPaymentDate := None |}.

End Samples.

(** ** Month indices

    Months are numbered through the years, [12 * year + month]; the lemmas
    on [addMonthsEOM] are stated on these. *)

Module Cal.
Import ES.

Definition firstOfMonth (M : Z) : Z := MakeDay 0 M 1.
Definition monthIndex (d : Z) : Z := 12 * YearFromDay d + MonthFromDay d.
Definition monthLength (M : Z) : Z := firstOfMonth (M + 1) - firstOfMonth M.

(** Length of month [m] of a year, from its leap flag. *)
Definition lengthInYear (leap m : Z) : Z :=
  monthStartInYear leap (m + 1) - monthStartInYear leap m.

Definition fixYear (y : Z) : Z :=
  if (0 <=? y) && (y <=? 99) then 1900 + y else y.

(** The month length that the code computes for month index [M]. *)
Definition codeLength (M : Z) : Z := daysInMonth (M / 12) (M mod 12).

(** [addMonthsEOM] on day numbers, for a whole number [k] of months. *)
Definition stepDay (D k : Z) : Z :=
  let M := monthIndex D in
  let dt := DateFromDay D in
  let nominal := firstOfMonth (M + k) + dt - 1 in
  if dt =? codeLength M then
    firstOfMonth (monthIndex nominal) + codeLength (monthIndex nominal) - 1
  else nominal.

(** The month count of a period, [12 / frequencyPerYear], for the three
    frequencies that [getFrequencyPerYear] gives to coupon securities. *)
Definition wholeMonths (ppy : Z) : Z := 12 / ppy.

End Cal.

(** What [buildCouponBonds] makes of a joined row that it keeps. *)
Definition builtFromRow (fuel : nat) (p : PriceRow) (s : SecRow) (b : Bond)
    : Prop :=
  let fq := getFrequencyPerYear (SecurityType s) (InterestPaymentFrequency s)
              (rateOrZero (InterestRate s)) in
  cusip b = p_cusip p /\ dirtyPrice b = END_OF_DAY p /\ cashflows b <> [] /\
  isBill fq = false /\
  buildCashflowsForSecurity fuel
    {| curveDate := CURVE_DATE; maturityDate := MaturityDate s;
       interestRatePercent := InterestRate s;
       frequencyPerYear := frequency fq;
       datedDate := DatedDate s;
       firstInterestPaymentDate := FirstInterestPaymentDate s |}
  = Some (cashflows b).

(** ** The NSS tools: fitNssCurve, analyzeBondsWithNss, analyzeCusipWithNss

    Each tool calibrates first; [nelderMead] is the optimizer it runs. *)

Definition Optimizer := (list R -> R) -> list R -> OptResult.

Definition fitNssCurve (fuel : nat) (nelderMead : Optimizer) (env : Env)
    : option (string + Calibrated) :=
  c <- calibrateNssFromDb fuel env ;;
  Some (runCalibration nelderMead c).

(** The success payload of [calibrateNssFromDb], from the bonds and the
    optimizer's answer. *)
Definition calibratedFrom (bonds : list Bond) (opt : OptResult) : Calibrated :=
  {| parameters :=
       {| beta0 := nth 0 (opt_x opt) 0%R;
          beta1 := nth 1 (opt_x opt) 0%R;
          beta2 := nth 2 (opt_x opt) 0%R;
          beta3 := nth 3 (opt_x opt) 0%R;
          tau1 := exp (nth 4 (opt_x opt) 0%R);
          tau2 := exp (nth 5 (opt_x opt) 0%R) |};
     sse := opt_fx opt;
     iterations := opt_iterations opt;
     bondsUsed := List.length bonds |}.

(** The curve parameters that the loss evaluates for a point [theta]. *)
Definition paramsAt (theta : list R) : list R :=
  [nth 0 theta 0%R; nth 1 theta 0%R; nth 2 theta 0%R; nth 3 theta 0%R;
   exp (nth 4 theta 0%R); exp (nth 5 theta 0%R)].

(** An optimizer that stays at its starting point, for the examples. *)
Definition stayPut : (list R -> R) -> list R -> OptResult :=
  fun loss start =>
    {| opt_x := start; opt_fx := loss start; opt_iterations := None |}.

Definition paramsOf (p : NssParameters) : list R :=
  [beta0 p; beta1 p; beta2 p; beta3 p; tau1 p; tau2 p].

Module BondsReport.

Record PerBond := {
  cusip : string;
  dirtyPrice : Q;
  nssPrice : R;
  error : R;
  errorSquared : R
}.

Record Summary := {
  bondsAnalyzed : nat;
  sse : R;
  rmse : R;
  calibrationSse : R;
  calibrationBondsUsed : nat
}.

Record t := {
  curveDate : string;
  nssParameters : NssParameters;
  summary : Summary;
  perBond : list PerBond
}.

End BondsReport.

(** The loop of [analyzeBondsWithNss] over the bonds: the rows so far and
    the running sum of squared errors. *)
Definition priceBonds (params : list R) (bonds : list Bond)
    : list BondsReport.PerBond * R :=
  fold_left
    (fun (st : list BondsReport.PerBond * R) bond =>
       let (perBond, sse) := st in
       let nssPrice :=
         fold_left
           (fun price cf =>
              let y := nssYield (Q2R (tYears cf)) params in
              let df := exp (- y * Q2R (tYears cf)) in
              (price + Q2R (amount cf) * df)%R)
           (cashflows bond) 0%R in
       let error := (Q2R (dirtyPrice bond) - nssPrice)%R in
       let errorSquared := (error * error)%R in
       (perBond ++ [{| BondsReport.cusip := cusip bond;
                       BondsReport.dirtyPrice := dirtyPrice bond;
                       BondsReport.nssPrice := nssPrice;
                       BondsReport.error := error;
                       BondsReport.errorSquared := errorSquared |}],
        (sse + errorSquared)%R))
    bonds ([], 0%R).

Definition analyzeBondsWithNss (fuel : nat) (nelderMead : Optimizer)
    (env : Env) : option (string + BondsReport.t) :=
  c <- calibrateNssFromDb fuel env ;;
  match runCalibration nelderMead c with
  | inl e => Some (inl e)
  | inr fitResult =>
      let params := paramsOf (parameters fitResult) in
      let calibrationSse := sse fitResult in
      bonds <- buildCouponBonds fuel env ;;
      let (perBond, sse) := priceBonds params bonds in
      let n := match List.length perBond with
               | O => 1%nat
               | k => k
               end in
      let rmse := sqrt (sse / INR n) in
      Some (inr
        {| BondsReport.curveDate := toISODate CURVE_DATE;
           BondsReport.nssParameters := parameters fitResult;
           BondsReport.summary :=
             {| BondsReport.bondsAnalyzed := List.length perBond;
                BondsReport.sse := sse;
                BondsReport.rmse := rmse;
                BondsReport.calibrationSse := calibrationSse;
                BondsReport.calibrationBondsUsed := bondsUsed fitResult |};
           BondsReport.perBond := perBond |})
  end.

Module CusipReport.

Record CashflowRow := {
  date : string;
  tYears : Q;
  amount : Q;
  spotRate : R;
  discountFactor : R;
  presentValue : R
}.

(** The payload for a bill has no term, fit error or cashflow rows; the
    other payload has no [isBill]. *)
Record t := {
  cusip : string;
  type : string;
  term : option string;
  isBill : option bool;
  nssParams : NssParameters;
  nssFitSse : option R;
  datasetDate : string;
  dirtyPricePer100 : Q;
  theoreticalPricePer100 : R;
  pricingError : R;
  cashflows : list CashflowRow;
  explanation : string
}.

End CusipReport.

Definition billNssExplanation : string :=
  "For a bill, we treat the single face-value cash flow at maturity and discount it using the NSS spot rate.".

Definition couponNssExplanation : string :=
  "We fit a global NSS curve on all coupon-bearing Treasuries as of Nov 19, 2025, then discounted each future coupon and principal cash flow for this CUSIP using the NSS spot rate at its time-to-maturity. The sum of discounted cash flows gives the theoretical NSS price, which we compare to the market (dirty) price.".

Definition analyzeCusipWithNss (fuel : nat) (nelderMead : Optimizer)
    (env : Env) (cusip : string) : option (string + CusipReport.t) :=
  c <- calibrateNssFromDb fuel env ;;
  match runCalibration nelderMead c with
  | inl e => Some (inl e)
  | inr nss =>
  let params := paramsOf (parameters nss) in
  match find (fun p => String.eqb (p_cusip p) cusip) (prices env) with
  | None =>
      Some (inl ("No price record found in 'nov18_treasury_securities' for CUSIP "
                 ++ cusip ++ ".")%string)
  | Some priceRow =>
  match find (fun s => String.eqb (s_cusip s) cusip) (securities env) with
  | None =>
      Some (inl ("No security record found in 'additional_data_new' for CUSIP "
                 ++ cusip ++ ".")%string)
  | Some secRow =>
      let face : Q := faceValue in
      let annualCoupon := (rateOrZero (InterestRate secRow) / 100)%Q in
      let fq :=
        getFrequencyPerYear (SecurityType secRow)
          (InterestPaymentFrequency secRow) (rateOrZero (InterestRate secRow)) in
      let dirtyPrice := END_OF_DAY priceRow in
      if isBill fq || (frequency fq =? 0) || Qeq_bool annualCoupon 0
      then
        let maturityDate := MaturityDate secRow in
        let tYears :=
          (inject_Z (getTime maturityDate - getTime CURVE_DATE)
           / (DAYS_IN_YEAR * inject_Z (24 * 3600 * 1000)))%Q in
        let ySpot := nssYield (Q2R tYears) params in
        let df := exp (- ySpot * Q2R tYears) in
        let theoreticalPrice := (Q2R face * df)%R in
        Some (inr
          {| CusipReport.cusip := cusip;
             CusipReport.type := SecurityType secRow;
             CusipReport.term := None;
             CusipReport.isBill := Some true;
             CusipReport.nssParams := parameters nss;
             CusipReport.nssFitSse := None;
             CusipReport.datasetDate := toISODate CURVE_DATE;
             CusipReport.dirtyPricePer100 := dirtyPrice;
             CusipReport.theoreticalPricePer100 := theoreticalPrice;
             CusipReport.pricingError :=
               (theoreticalPrice - Q2R dirtyPrice)%R;
             CusipReport.cashflows := [];
             CusipReport.explanation := billNssExplanation |})
      else
        cashflowsBasic <-
          buildCashflowsForSecurity fuel
            {| curveDate := CURVE_DATE;
               maturityDate := MaturityDate secRow;
               interestRatePercent := InterestRate secRow;
               frequencyPerYear := frequency fq;
               datedDate := DatedDate secRow;
               firstInterestPaymentDate := FirstInterestPaymentDate secRow |} ;;
        let cashflows :=
          map (fun cf =>
                 let ySpot := nssYield (Q2R (tYears cf)) params in
                 let df := exp (- ySpot * Q2R (tYears cf)) in
                 let pv := (Q2R (amount cf) * df)%R in
                 {| CusipReport.date := toISODate (date cf);
                    CusipReport.tYears := tYears cf;
                    CusipReport.amount := amount cf;
                    CusipReport.spotRate := ySpot;
                    CusipReport.discountFactor := df;
                    CusipReport.presentValue := pv |})
              cashflowsBasic in
        let theoreticalPrice :=
          fold_left (fun sum cf => (sum + CusipReport.presentValue cf)%R)
            cashflows 0%R in
        let pricingError := (theoreticalPrice - Q2R dirtyPrice)%R in
        Some (inr
          {| CusipReport.cusip := cusip;
             CusipReport.type := SecurityType secRow;
             CusipReport.term := Some (SecurityTerm secRow);
             CusipReport.isBill := None;
             CusipReport.nssParams := parameters nss;
             CusipReport.nssFitSse := Some (sse nss);
             CusipReport.datasetDate := toISODate CURVE_DATE;
             CusipReport.dirtyPricePer100 := dirtyPrice;
             CusipReport.theoreticalPricePer100 := theoreticalPrice;
             CusipReport.pricingError := pricingError;
             CusipReport.cashflows := cashflows;
             CusipReport.explanation := couponNssExplanation |})
  end
  end
  end.


(** ** Date objects that may be Invalid Date

    [parseISODate] is [new Date(text)].  For a text that is no date it
    yields Invalid Date, a Date object whose time value is NaN, and the
    maturity of a stored row reaches [buildCashflowsForSecurity] and
    [calculateTreasuryAnalytics] as such an object.  This module gives both
    functions and their loops on Date objects that may be invalid; [None]
    is Invalid Date.  On valid dates they are the functions above (module
    [ObjFacts]). *)

Module Obj.

Definition DateObject := option Date.

(** [a <= b], [a < b] and [a.getTime() === b.getTime()] compare time
    values; a comparison with NaN is false. *)
Definition le (a b : DateObject) : bool :=
  match a, b with
  | Some x, Some y => x <=? y
  | _, _ => false
  end.

Definition lt (a b : DateObject) : bool :=
  match a, b with
  | Some x, Some y => x <? y
  | _, _ => false
  end.

Definition sameTime (a b : DateObject) : bool :=
  match a, b with
  | Some x, Some y => getTime x =? getTime y
  | _, _ => false
  end.

(** On Invalid Date the accessors give NaN, [day === dim] is false and
    [setMonth] leaves the time value NaN: the result is Invalid Date. *)
Definition addMonthsEOM (d : DateObject) (months : Q) : DateObject :=
  match d with
  | Some t => Some (addMonthsEOM t months)
  | None => None
  end.

(** [curveDate] is the module constant [CURVE_DATE] at both call sites, a
    valid date; the other three dates come from [parseISODate].  An absent
    (null) anchor is [None], an anchor that is Invalid Date is [Some None]:
    a Date object is truthy whatever its time value. *)
Record CashflowParams := {
  curveDate : Date;
  maturityDate : DateObject;
  interestRatePercent : option Q;
  frequencyPerYear : Z;
  datedDate : option DateObject;
  firstInterestPaymentDate : option DateObject
}.

Definition firstCouponFallback (fuel : nat) (maturity : DateObject)
    (monthsPerPeriod : Q) : option DateObject :=
  loop fuel
    (fun d =>
       let prev := addMonthsEOM d (- monthsPerPeriod)%Q in
       if le prev (Some CURVE_DATE) || le prev (Some (newDate 1970 0 1))
       then inr d
       else inl prev)
    maturity.

Definition couponLoop (fuel : nat) (curve : Date) (maturity : DateObject)
    (couponPerPeriod monthsPerPeriod : Q) (first : DateObject)
    : option (list Cashflow) :=
  loop fuel
    (fun st : DateObject * list Cashflow =>
       let (cfDate, cashflows) := st in
       if le cfDate maturity then
         let cashflows' :=
           if lt (Some curve) cfDate then
             match cfDate with
             | Some c =>
                 let t := (daysBetween curve c / DAYS_IN_YEAR)%Q in
                 let amt :=
                   if sameTime cfDate maturity
                   then (couponPerPeriod + faceValue)%Q
                   else couponPerPeriod in
                 cashflows ++ [{| date := c; tYears := t; amount := amt |}]
             | None => cashflows
             end
           else cashflows in
         inl (addMonthsEOM cfDate monthsPerPeriod, cashflows')
       else inr cashflows)
    (first, []).

Definition buildCashflowsForSecurity (fuel : nat) (params : CashflowParams)
    : option (list Cashflow) :=
  let annualCouponRate :=
    ((match interestRatePercent params with Some r => r | None => 0 end) / 100)%Q in
  let couponPerPeriod :=
    ((faceValue * annualCouponRate) / inject_Z (frequencyPerYear params))%Q in
  let monthsPerPeriod := (12 / inject_Z (frequencyPerYear params))%Q in
  firstCouponDate <-
    match firstInterestPaymentDate params with
    | Some d => Some d
    | None =>
        match datedDate params with
        | Some d => Some (addMonthsEOM d monthsPerPeriod)
        | None => firstCouponFallback fuel (maturityDate params) monthsPerPeriod
        end
    end ;;
  couponLoop fuel (curveDate params) (maturityDate params)
    couponPerPeriod monthsPerPeriod firstCouponDate.

Definition couponBracket (fuel : nat) (maturity settlement : DateObject)
    (monthsPerPeriod : Q) : option (DateObject * DateObject) :=
  r <- loop fuel
         (fun current =>
            let previous := addMonthsEOM current (- monthsPerPeriod)%Q in
            if le previous settlement || le previous (Some (newDate 1970 0 1))
            then inr (current, previous)
            else inl previous)
         maturity ;;
  let (current, previous) := r : DateObject * DateObject in
  let last := if le previous settlement then previous else current in
  let next := addMonthsEOM last monthsPerPeriod in
  Some (last, next).

(** A stored security row; a date column carries the Date object that
    [parseISODate] yields for its text. *)
Record SecRow := {
  s_cusip : string;
  IssueDate : string;
  SecurityType : string;
  SecurityTerm : string;
  MaturityDate : DateObject;
  InterestRate : option Q;
  DatedDate : option DateObject;
  FirstInterestPaymentDate : option DateObject;
  InterestPaymentFrequency : option string
}.

Record Env := { prices : list PriceRow; securities : list SecRow }.

Module Payload.

Record t := {
  cusip : string;
  securityType : string;
  securityTerm : string;
  datasetPriceDate : string;
  settlementDate : string;
  issueDate : string;
  maturityDate : DateObject;
  couponRateAnnualPercent : option Q;
  couponPerPeriodPer100 : option Q;
  cleanPricePer100 : Q;
  accruedInterestPer100 : Q;
  dirtyPricePer100 : Q;
  f : Q;
  dayCountDetails : Analytics.DayCountDetails;
  explanation : string
}.

End Payload.

(** What the [catch] block returns. *)
Definition internalError : string :=
  "An internal error occurred while calculating treasury analytics. Check the worker logs for details.".

(** [toISOString] throws a RangeError on Invalid Date, inside the [try]:
    a bracket with an invalid date would end in the [catch] block. *)
Definition calculateTreasuryAnalytics (fuel : nat) (env : Env) (cusip : string)
    (today : Date) : option (string + Payload.t) :=
  match find (fun p => String.eqb (p_cusip p) cusip) (prices env) with
  | None =>
      Some (inl ("No price record found in 'nov18_treasury_securities' for CUSIP "
                 ++ cusip ++ ".")%string)
  | Some priceRow =>
  match find (fun s => String.eqb (s_cusip s) cusip) (securities env) with
  | None =>
      Some (inl ("No security record found in 'additional_data_new' for CUSIP "
                 ++ cusip ++ ".")%string)
  | Some secRow =>
      let cleanPrice := END_OF_DAY priceRow in
      let datasetPriceDate := "2025-11-18"%string in
      let maturityDate := MaturityDate secRow in
      let annualCouponRate := (rateOrZero (InterestRate secRow) / 100)%Q in
      let fq :=
        getFrequencyPerYear (SecurityType secRow)
          (InterestPaymentFrequency secRow) (rateOrZero (InterestRate secRow)) in
      let frequencyPerYear := frequency fq in
      settlementDate <- nextBusinessDay fuel today ;;
      if isBill fq || (frequencyPerYear =? 0) || Qeq_bool annualCouponRate 0
      then
        Some (inr
          {| Payload.cusip := cusip;
             Payload.securityType := SecurityType secRow;
             Payload.securityTerm := SecurityTerm secRow;
             Payload.datasetPriceDate := datasetPriceDate;
             Payload.settlementDate := toISODate settlementDate;
             Payload.issueDate := IssueDate secRow;
             Payload.maturityDate := MaturityDate secRow;
             Payload.couponRateAnnualPercent := InterestRate secRow;
             Payload.couponPerPeriodPer100 := None;
             Payload.cleanPricePer100 := cleanPrice;
             Payload.accruedInterestPer100 := 0;
             Payload.dirtyPricePer100 := cleanPrice;
             Payload.f := 0;
             Payload.dayCountDetails :=
               Analytics.BillDayCount "Actual/Actual" true 0 0;
             Payload.explanation := billExplanation |})
      else
        let couponPerPeriod :=
          ((faceValue * annualCouponRate) / inject_Z frequencyPerYear)%Q in
        let monthsPerPeriod := (12 / inject_Z frequencyPerYear)%Q in
        bracket <- couponBracket fuel maturityDate (Some settlementDate)
                     monthsPerPeriod ;;
        match bracket with
        | (Some lastCouponDate, Some nextCouponDate) =>
            let daysInPeriod := daysBetween lastCouponDate nextCouponDate in
            let daysIntoPeriod := daysBetween lastCouponDate settlementDate in
            let f :=
              if Qeq_bool daysInPeriod 0 then 0%Q
              else (daysIntoPeriod / daysInPeriod)%Q in
            let accruedInterestPer100 := (couponPerPeriod * f)%Q in
            let dirtyPricePer100 := (cleanPrice + accruedInterestPer100)%Q in
            Some (inr
              {| Payload.cusip := cusip;
                 Payload.securityType := SecurityType secRow;
                 Payload.securityTerm := SecurityTerm secRow;
                 Payload.datasetPriceDate := datasetPriceDate;
                 Payload.settlementDate := toISODate settlementDate;
                 Payload.issueDate := IssueDate secRow;
                 Payload.maturityDate := MaturityDate secRow;
                 Payload.couponRateAnnualPercent := InterestRate secRow;
                 Payload.couponPerPeriodPer100 := Some couponPerPeriod;
                 Payload.cleanPricePer100 := cleanPrice;
                 Payload.accruedInterestPer100 := accruedInterestPer100;
                 Payload.dirtyPricePer100 := dirtyPricePer100;
                 Payload.f := f;
                 Payload.dayCountDetails :=
                   Analytics.CouponDayCount
                     "Actual/Actual with end-of-month adjustment"
                     (toISODate lastCouponDate) (toISODate nextCouponDate)
                     daysInPeriod daysIntoPeriod;
                 Payload.explanation := couponExplanation |})
        | _ => Some (inl internalError)
        end
  end
  end.

End Obj.

(** The rows, parameters and payloads of valid dates among those of Date
    objects. *)
Definition validParams (p : CashflowParams) : Obj.CashflowParams :=
  {| Obj.curveDate := curveDate p;
     Obj.maturityDate := Some (maturityDate p);
     Obj.interestRatePercent := interestRatePercent p;
     Obj.frequencyPerYear := frequencyPerYear p;
     Obj.datedDate := option_map Some (datedDate p);
     Obj.firstInterestPaymentDate := option_map Some (firstInterestPaymentDate p) |}.

Definition validRow (s : SecRow) : Obj.SecRow :=
  {| Obj.s_cusip := s_cusip s;
     Obj.IssueDate := IssueDate s;
     Obj.SecurityType := SecurityType s;
     Obj.SecurityTerm := SecurityTerm s;
     Obj.MaturityDate := Some (MaturityDate s);
     Obj.InterestRate := InterestRate s;
     Obj.DatedDate := option_map Some (DatedDate s);
     Obj.FirstInterestPaymentDate := option_map Some (FirstInterestPaymentDate s);
     Obj.InterestPaymentFrequency := InterestPaymentFrequency s |}.

Definition validEnv (env : Env) : Obj.Env :=
  {| Obj.prices := prices env;
     Obj.securities := map validRow (securities env) |}.

Definition validPayload (r : Analytics.t) : Obj.Payload.t :=
  {| Obj.Payload.cusip := Analytics.cusip r;
     Obj.Payload.securityType := Analytics.securityType r;
     Obj.Payload.securityTerm := Analytics.securityTerm r;
     Obj.Payload.datasetPriceDate := Analytics.datasetPriceDate r;
     Obj.Payload.settlementDate := Analytics.settlementDate r;
     Obj.Payload.issueDate := Analytics.issueDate r;
     Obj.Payload.maturityDate := Some (Analytics.maturityDate r);
     Obj.Payload.couponRateAnnualPercent := Analytics.couponRateAnnualPercent r;
     Obj.Payload.couponPerPeriodPer100 := Analytics.couponPerPeriodPer100 r;
     Obj.Payload.cleanPricePer100 := Analytics.cleanPricePer100 r;
     Obj.Payload.accruedInterestPer100 := Analytics.accruedInterestPer100 r;
     Obj.Payload.dirtyPricePer100 := Analytics.dirtyPricePer100 r;
     Obj.Payload.f := Analytics.f r;
     Obj.Payload.dayCountDetails := Analytics.dayCountDetails r;
     Obj.Payload.explanation := Analytics.explanation r |}.

Definition validResult (res : string + Analytics.t) : string + Obj.Payload.t :=
  match res with
  | inl msg => inl msg
  | inr r => inr (validPayload r)
  end.

(** The walk of the fallback, step by step: the date [n] periods before
    [maturity]. *)
Definition periodsBefore (monthsPerPeriod : Q) (maturity : Date) (n : nat)
    : Date :=
  Nat.iter n (fun d => addMonthsEOM d (- monthsPerPeriod)%Q) maturity.

Module MoreSamples.
Import Samples.

(** A ten-year semi-annual note that matures on 2026-01-15. *)
Definition maturingRow : SecRow :=
  {| s_cusip := "NOTE2026"; IssueDate := "2016-01-15"; SecurityType := "Note";
     SecurityTerm := "10-Year"; MaturityDate := ymd 2026 1 15;
     InterestRate := Some 4%Q; DatedDate := Some (ymd 2016 1 15);
     FirstInterestPaymentDate := None;
     InterestPaymentFrequency := Some "Semi-Annual"%string |}.

Definition maturingPrice : PriceRow :=
  {| p_cusip := "NOTE2026"; END_OF_DAY := 1001 # 10; BUY := None; SELL := None;
     RATE := Some 4%Q |}.

Definition maturingEnv : Env :=
  {| prices := [maturingPrice; notePrice];
     securities := [maturingRow; noteRow] |}.

(** A semi-annual note whose MaturityDate text is no date, and no anchor
    dates stored. *)
Definition unparsedRow : Obj.SecRow :=
  {| Obj.s_cusip := "NOTE20XX"; Obj.IssueDate := "2024-01-15";
     Obj.SecurityType := "Note"; Obj.SecurityTerm := "10-Year";
     Obj.MaturityDate := None;
     Obj.InterestRate := Some 4%Q; Obj.DatedDate := None;
     Obj.FirstInterestPaymentDate := None;
     Obj.InterestPaymentFrequency := Some "Semi-Annual"%string |}.

Definition unparsedPrice : PriceRow :=
  {| p_cusip := "NOTE20XX"; END_OF_DAY := 99 # 1; BUY := None; SELL := None;
     RATE := Some 4%Q |}.

Definition unparsedEnv : Obj.Env :=
  {| Obj.prices := [unparsedPrice; notePrice; billPrice];
     Obj.securities := [unparsedRow; validRow noteRow; validRow billRow] |}.

(** The parameters that [buildCouponBonds] passes for [unparsedRow]. *)
Definition unparsedParams : Obj.CashflowParams :=
  {| Obj.curveDate := CURVE_DATE; Obj.maturityDate := None;
     Obj.interestRatePercent := Some 4%Q; Obj.frequencyPerYear := 2;
     Obj.datedDate := None; Obj.firstInterestPaymentDate := None |}.

(** A semi-annual note maturing 2030-01-15 with no anchor dates, valued at
    the curve date. *)
Definition unanchored2030 : Obj.CashflowParams :=
  {| Obj.curveDate := CURVE_DATE; Obj.maturityDate := Some (ymd 2030 1 15);
     Obj.interestRatePercent := Some 4%Q; Obj.frequencyPerYear := 2;
     Obj.datedDate := None; Obj.firstInterestPaymentDate := None |}.

End MoreSamples.
(** * Calendar lemmas *)

Module ESFacts.
Import ES Cal.

Lemma DaysInYear_cases y : DaysInYear y = 365 + InLeapYear y /\ (InLeapYear y = 0 \/ InLeapYear y = 1).
Proof.
  unfold InLeapYear, DaysInYear.
  destruct (y mod 4 =? 0), (y mod 100 =? 0), (y mod 400 =? 0); simpl; lia.
Qed.

Lemma DayFromYear_succ y : DayFromYear (y + 1) = DayFromYear y + DaysInYear y.
Proof.
  unfold DayFromYear, DaysInYear.
  destruct (Z.eqb_spec (y mod 4) 0), (Z.eqb_spec (y mod 100) 0),
    (Z.eqb_spec (y mod 400) 0); cbn [negb]; Z.to_euclidean_division_equations; lia.
Qed.

Lemma YearFromDay_spec d :
  DayFromYear (YearFromDay d) <= d < DayFromYear (YearFromDay d + 1).
Proof.
  unfold YearFromDay.
  set (y := 1970 + 400 * d / 146097).
  destruct (Z.leb_spec (DayFromYear (y + 1)) d) as [H1|H1].
  - split; [exact H1|]. clear H1. unfold DayFromYear. subst y.
    Z.to_euclidean_division_equations. lia.
  - destruct (Z.leb_spec (DayFromYear y) d) as [H2|H2].
    + split; assumption.
    + replace (y - 1 + 1) with y by lia. split; [|exact H2].
      clear H1 H2. unfold DayFromYear. subst y.
      Z.to_euclidean_division_equations. lia.
Qed.

Lemma MakeDay_firstOfMonth y m dt :
  MakeDay y m dt = firstOfMonth (12 * y + m) + dt - 1.
Proof.
  unfold firstOfMonth, MakeDay.
  replace ((12 * y + m) / 12) with (y + m / 12)
    by (Z.to_euclidean_division_equations; lia).
  replace ((12 * y + m) mod 12) with (m mod 12)
    by (Z.to_euclidean_division_equations; lia).
  rewrite Z.add_0_l. lia.
Qed.

Lemma firstOfMonth_in_year Y m :
  0 <= m <= 12 ->
  firstOfMonth (12 * Y + m) = DayFromYear Y + monthStartInYear (InLeapYear Y) m.
Proof.
  intros Hm. unfold firstOfMonth, MakeDay.
  destruct (Z.eq_dec m 12) as [->|Hne].
  - replace ((12 * Y + 12) / 12) with (Y + 1)
      by (Z.to_euclidean_division_equations; lia).
    replace ((12 * Y + 12) mod 12) with 0
      by (Z.to_euclidean_division_equations; lia).
    rewrite Z.add_0_l, DayFromYear_succ.
    destruct (DaysInYear_cases Y) as [-> _]. cbn [monthStartInYear]. lia.
  - replace ((12 * Y + m) / 12) with Y
      by (Z.to_euclidean_division_equations; lia).
    replace ((12 * Y + m) mod 12) with m
      by (Z.to_euclidean_division_equations; lia).
    rewrite Z.add_0_l. lia.
Qed.

Lemma month_cases m :
  0 <= m <= 11 ->
  m = 0 \/ m = 1 \/ m = 2 \/ m = 3 \/ m = 4 \/ m = 5 \/ m = 6 \/ m = 7 \/
  m = 8 \/ m = 9 \/ m = 10 \/ m = 11.
Proof. lia. Qed.

Ltac table :=
  repeat match goal with
         | |- context [monthStartInYear ?l (Z.pos ?a + Z.pos ?b)] =>
             let v := eval compute in (Z.pos a + Z.pos b) in
             change (Z.pos a + Z.pos b) with v
         | |- context [monthStartInYear ?l (0 + Z.pos ?b)] =>
             change (0 + Z.pos b) with (Z.pos b)
         end;
  cbn [monthStartInYear].

Ltac each_month H :=
  apply month_cases in H;
  repeat (destruct H as [H|H]; [subst|]); [..|subst].

Lemma monthLength_in_year Y m :
  0 <= m <= 11 ->
  monthLength (12 * Y + m) = lengthInYear (InLeapYear Y) m.
Proof.
  intros Hm. unfold monthLength, lengthInYear.
  replace (12 * Y + m + 1) with (12 * Y + (m + 1)) by lia.
  rewrite !firstOfMonth_in_year by lia. lia.
Qed.

Lemma lengthInYear_bounds leap m :
  0 <= m <= 11 -> 0 <= leap <= 1 -> 28 <= lengthInYear leap m <= 31.
Proof.
  intros Hm Hl. unfold lengthInYear.
  each_month Hm; table; lia.
Qed.

Lemma split_month M : exists Y m, M = 12 * Y + m /\ 0 <= m <= 11.
Proof.
  exists (M / 12), (M mod 12). Z.to_euclidean_division_equations; lia.
Qed.

Lemma monthLength_bounds M : 28 <= monthLength M <= 31.
Proof.
  destruct (split_month M) as (Y & m & -> & Hm).
  rewrite monthLength_in_year by exact Hm.
  apply lengthInYear_bounds; [exact Hm|].
  destruct (DaysInYear_cases Y) as [_ [->| ->]]; lia.
Qed.

Lemma firstOfMonth_succ M : firstOfMonth (M + 1) = firstOfMonth M + monthLength M.
Proof. unfold monthLength. lia. Qed.

Lemma firstOfMonth_mono_nat (n : nat) M :
  firstOfMonth M + 28 * Z.of_nat n <= firstOfMonth (M + Z.of_nat n).
Proof.
  induction n as [|n IH].
  - cbn [Z.of_nat]. rewrite Z.mul_0_r, !Z.add_0_r. lia.
  - rewrite Nat2Z.inj_succ.
    replace (M + Z.succ (Z.of_nat n)) with (M + Z.of_nat n + 1) by lia.
    rewrite firstOfMonth_succ.
    pose proof (monthLength_bounds (M + Z.of_nat n)). lia.
Qed.

Lemma firstOfMonth_mono M N :
  M <= N -> firstOfMonth M + 28 * (N - M) <= firstOfMonth N.
Proof.
  intros H. pose proof (firstOfMonth_mono_nat (Z.to_nat (N - M)) M) as HM.
  rewrite Z2Nat.id in HM by lia.
  replace (M + (N - M)) with N in HM by lia. exact HM.
Qed.

Lemma MonthFromDay_spec d :
  0 <= MonthFromDay d <= 11 /\
  monthStartInYear (InLeapYear (YearFromDay d)) (MonthFromDay d)
    <= DayWithinYear d
    < monthStartInYear (InLeapYear (YearFromDay d)) (MonthFromDay d + 1).
Proof.
  unfold MonthFromDay.
  pose proof (YearFromDay_spec d) as Hy.
  rewrite DayFromYear_succ in Hy.
  destruct (DaysInYear_cases (YearFromDay d)) as [Hdy Hl].
  assert (Hw : 0 <= DayWithinYear d < 365 + InLeapYear (YearFromDay d))
    by (unfold DayWithinYear; lia).
  remember (DayWithinYear d) as w eqn:Ew.
  remember (InLeapYear (YearFromDay d)) as leap eqn:El.
  clear Ew El Hy Hdy.
  repeat match goal with
         | |- context [?a <? ?b] => destruct (Z.ltb_spec a b)
         end; table; lia.
Qed.

Lemma monthIndex_spec d :
  firstOfMonth (monthIndex d) <= d < firstOfMonth (monthIndex d + 1) /\
  DateFromDay d = d - firstOfMonth (monthIndex d) + 1.
Proof.
  destruct (MonthFromDay_spec d) as [Hm Hw].
  unfold monthIndex, DateFromDay.
  replace (12 * YearFromDay d + MonthFromDay d + 1)
    with (12 * YearFromDay d + (MonthFromDay d + 1)) by lia.
  rewrite !firstOfMonth_in_year by lia.
  unfold DayWithinYear in *. lia.
Qed.

Lemma monthIndex_unique d M :
  firstOfMonth M <= d < firstOfMonth (M + 1) -> monthIndex d = M.
Proof.
  intros H. destruct (monthIndex_spec d) as [Hs _].
  destruct (Z.lt_trichotomy (monthIndex d) M) as [Hlt|[Heq|Hgt]]; [|exact Heq|].
  - pose proof (firstOfMonth_mono (monthIndex d + 1) M ltac:(lia)). lia.
  - pose proof (firstOfMonth_mono (M + 1) (monthIndex d) ltac:(lia)). lia.
Qed.

Lemma monthIndex_parts d :
  YearFromDay d = monthIndex d / 12 /\ MonthFromDay d = monthIndex d mod 12.
Proof.
  destruct (MonthFromDay_spec d) as [Hm _].
  unfold monthIndex. Z.to_euclidean_division_equations; lia.
Qed.

End ESFacts.

Module DateFacts.
Import ES Cal ESFacts.

Lemma TimeWithinDay_bounds t : 0 <= TimeWithinDay t < msPerDay.
Proof. unfold TimeWithinDay, msPerDay. apply Z.mod_pos_bound. lia. Qed.

Lemma MakeDate_Day_TimeWithinDay t : MakeDate (Day t) (TimeWithinDay t) = t.
Proof.
  unfold MakeDate, Day, TimeWithinDay, msPerDay.
  Z.to_euclidean_division_equations; lia.
Qed.

Lemma Day_MakeDate day tod :
  0 <= tod < msPerDay -> Day (MakeDate day tod) = day.
Proof.
  unfold MakeDate, Day, msPerDay. intros H.
  Z.to_euclidean_division_equations; lia.
Qed.

Lemma TimeWithinDay_MakeDate day tod :
  0 <= tod < msPerDay -> TimeWithinDay (MakeDate day tod) = tod.
Proof.
  unfold MakeDate, TimeWithinDay, msPerDay. intros H.
  Z.to_euclidean_division_equations; lia.
Qed.

Lemma MakeDate_lt a b tod : a < b -> MakeDate a tod < MakeDate b tod.
Proof. unfold MakeDate, msPerDay. lia. Qed.

Lemma MakeDate_le a b tod : a <= b -> MakeDate a tod <= MakeDate b tod.
Proof. unfold MakeDate, msPerDay. lia. Qed.

(** The day [dt] of month [M], for [dt] up to 31, lies in [M] or, when the
    month is shorter, at the start of the next one. *)
Lemma monthIndex_nominal M dt :
  1 <= dt <= 31 ->
  (dt <= monthLength M /\ monthIndex (firstOfMonth M + dt - 1) = M) \/
  (monthLength M < dt /\ monthIndex (firstOfMonth M + dt - 1) = M + 1).
Proof.
  intros Hdt.
  pose proof (monthLength_bounds M) as HM.
  pose proof (monthLength_bounds (M + 1)) as HM1.
  pose proof (firstOfMonth_succ M) as HS.
  pose proof (firstOfMonth_succ (M + 1)) as HS1.
  destruct (Z_le_gt_dec dt (monthLength M)) as [Hle|Hgt].
  - left. split; [exact Hle|]. apply monthIndex_unique. lia.
  - right. split; [lia|]. apply monthIndex_unique. lia.
Qed.

Lemma DateFromDay_bounds d :
  1 <= DateFromDay d <= monthLength (monthIndex d).
Proof.
  destruct (monthIndex_spec d) as [Hs ->].
  pose proof (firstOfMonth_succ (monthIndex d)). lia.
Qed.

Lemma day_of_parts d :
  d = firstOfMonth (monthIndex d) + DateFromDay d - 1.
Proof. destruct (monthIndex_spec d) as [_ ->]. lia. Qed.

Lemma daysInMonth_monthLength y m :
  daysInMonth y m = monthLength (12 * fixYear y + m).
Proof.
  unfold daysInMonth, newDate, getDate. fold (fixYear y).
  rewrite Day_MakeDate by (unfold msPerDay; lia).
  rewrite MakeDay_firstOfMonth.
  set (N := 12 * fixYear y + m).
  replace (12 * fixYear y + (m + 1)) with (N + 1) by (subst N; lia).
  pose proof (monthLength_bounds N) as HN.
  pose proof (firstOfMonth_succ N) as HS.
  assert (HI : monthIndex (firstOfMonth (N + 1) + 0 - 1) = N)
    by (apply monthIndex_unique; lia).
  destruct (monthIndex_spec (firstOfMonth (N + 1) + 0 - 1)) as [_ ->].
  rewrite HI. lia.
Qed.

Lemma InLeapYear_fixYear y :
  InLeapYear (fixYear y) = InLeapYear y \/ (y = 0 /\ InLeapYear (fixYear y) = 0).
Proof.
  unfold fixYear.
  destruct (Z.leb_spec 0 y); destruct (Z.leb_spec y 99); cbn [andb]; auto.
  destruct (Z.eq_dec y 0) as [->|Hne]; [right; split; reflexivity|].
  left. unfold InLeapYear, DaysInYear.
  destruct (Z.eqb_spec ((1900 + y) mod 4) 0), (Z.eqb_spec (y mod 4) 0),
    (Z.eqb_spec ((1900 + y) mod 100) 0), (Z.eqb_spec (y mod 100) 0),
    (Z.eqb_spec ((1900 + y) mod 400) 0), (Z.eqb_spec (y mod 400) 0);
    cbn [negb]; try reflexivity; exfalso;
    Z.to_euclidean_division_equations; lia.
Qed.

Lemma codeLength_cases M :
  codeLength M = monthLength M \/ (M = 1 /\ codeLength M = 28).
Proof.
  unfold codeLength. rewrite daysInMonth_monthLength.
  assert (Hm : 0 <= M mod 12 <= 11) by (Z.to_euclidean_division_equations; lia).
  rewrite monthLength_in_year by exact Hm.
  assert (HM : monthLength M = lengthInYear (InLeapYear (M / 12)) (M mod 12)).
  { rewrite <- monthLength_in_year by exact Hm. f_equal.
    Z.to_euclidean_division_equations; lia. }
  rewrite HM.
  destruct (InLeapYear_fixYear (M / 12)) as [->|[Hy ->]]; [left; reflexivity|].
  destruct (Z.eq_dec (M mod 12) 1) as [H1|H1].
  - right. split; [Z.to_euclidean_division_equations; lia|].
    rewrite H1. reflexivity.
  - left. remember (M mod 12) as m eqn:Em. clear Em HM.
    unfold lengthInYear.
    destruct (DaysInYear_cases (M / 12)) as [_ [->| ->]]; [reflexivity|].
    each_month Hm; table; lia.
Qed.

Lemma codeLength_bounds M : 28 <= codeLength M <= monthLength M.
Proof.
  pose proof (monthLength_bounds M).
  destruct (codeLength_cases M) as [->|[_ ->]]; lia.
Qed.

Lemma codeLength_monthIndex D :
  daysInMonth (YearFromDay D) (MonthFromDay D) = codeLength (monthIndex D).
Proof.
  unfold codeLength. destruct (monthIndex_parts D) as [<- <-]. reflexivity.
Qed.

Lemma addMonthsEOM_stepDay d months k :
  ToInteger (inject_Z (getMonth d) + months) = getMonth d + k ->
  addMonthsEOM d months = MakeDate (stepDay (Day d) k) (TimeWithinDay d).
Proof.
  intros Hk. unfold addMonthsEOM, stepDay, setMonth, setDate.
  rewrite Hk. unfold getFullYear, getMonth, getDate.
  set (D := Day d). set (tod := TimeWithinDay d).
  assert (Htod : 0 <= tod < msPerDay) by apply TimeWithinDay_bounds.
  rewrite codeLength_monthIndex.
  assert (Hnd : MakeDay (YearFromDay D) (MonthFromDay D + k) (DateFromDay D)
                = firstOfMonth (monthIndex D + k) + DateFromDay D - 1).
  { rewrite MakeDay_firstOfMonth. unfold monthIndex. f_equal. f_equal. f_equal. lia. }
  rewrite Hnd.
  destruct (DateFromDay D =? codeLength (monthIndex D)); [|reflexivity].
  rewrite Day_MakeDate, TimeWithinDay_MakeDate by exact Htod.
  rewrite codeLength_monthIndex, MakeDay_firstOfMonth.
  unfold monthIndex. reflexivity.
Qed.

(** The facts about day [D] and the months around a step of [j] months
    that the step lemmas need, [D] being day [dt] of month [M]. *)
Ltac step_facts D j M dt :=
  unfold stepDay;
  pose proof (DateFromDay_bounds D);
  pose proof (monthLength_bounds (monthIndex D));
  pose proof (day_of_parts D);
  set (M := monthIndex D) in *; set (dt := DateFromDay D) in *;
  pose proof (firstOfMonth_succ M);
  pose proof (firstOfMonth_succ (M + j));
  pose proof (firstOfMonth_succ (M + j + 1));
  pose proof (monthLength_bounds (M + j));
  pose proof (monthLength_bounds (M + j + 1));
  pose proof (codeLength_bounds (M + j));
  pose proof (codeLength_bounds (M + j + 1)).

Lemma stepDay_back D k : 2 <= k -> stepDay D (- k) < D.
Proof.
  intros Hk. step_facts D (- k) M dt.
  pose proof (firstOfMonth_mono (M + - k + 1 + 1) M ltac:(lia)) as Hmono.
  destruct (dt =? codeLength M); [|lia].
  destruct (monthIndex_nominal (M + - k) dt ltac:(lia)) as [[_ ->]|[_ ->]]; lia.
Qed.

(** A backward step of three months or more covers at least four weeks. *)
Lemma stepDay_back_far D k : 3 <= k -> stepDay D (- k) + 28 <= D.
Proof.
  intros Hk. step_facts D (- k) M dt.
  pose proof (firstOfMonth_mono (M + - k + 1 + 1) M ltac:(lia)) as Hmono.
  destruct (dt =? codeLength M); [|lia].
  destruct (monthIndex_nominal (M + - k) dt ltac:(lia)) as [[_ ->]|[_ ->]]; lia.
Qed.

Lemma stepDay_forward D k : 1 <= k -> D < stepDay D k.
Proof.
  intros Hk. step_facts D k M dt.
  pose proof (firstOfMonth_mono (M + 1) (M + k) ltac:(lia)) as Hmono.
  destruct (dt =? codeLength M); [|lia].
  destruct (monthIndex_nominal (M + k) dt ltac:(lia)) as [[_ ->]|[_ ->]]; lia.
Qed.

Lemma monthLength_1 : monthLength 1 = 29.
Proof. reflexivity. Qed.

Lemma codeLength_around_1 :
  codeLength (-2) = 30 /\ codeLength (-5) = 31 /\ codeLength (-11) = 28 /\
  codeLength 4 = 31 /\ codeLength 7 = 31 /\ codeLength 13 = 28.
Proof. repeat split; reflexivity. Qed.

(** For steps of 3, 6 or 12 months the end-of-month adjustment never moves
    the date back from where [setMonth] left it. *)
Lemma stepDay_ge_nominal D k :
  k = 3 \/ k = 6 \/ k = 12 ->
  firstOfMonth (monthIndex D + k) + DateFromDay D - 1 <= stepDay D k.
Proof.
  intros Hk. unfold stepDay.
  pose proof (DateFromDay_bounds D) as Hdt.
  pose proof (monthLength_bounds (monthIndex D)) as HL.
  set (M := monthIndex D) in *. set (dt := DateFromDay D) in *.
  destruct (Z.eqb_spec dt (codeLength M)) as [He|_]; [|lia].
  pose proof (firstOfMonth_succ (M + k)) as HS.
  pose proof (monthLength_bounds (M + k)) as HLk.
  destruct (monthIndex_nominal (M + k) dt ltac:(lia)) as [[Hle ->]|[_ ->]].
  - destruct (codeLength_cases (M + k)) as [->|[H1 ->]]; [lia|].
    rewrite H1, monthLength_1 in Hle.
    destruct codeLength_around_1 as (E2 & E5 & E11 & _).
    clearbody M dt.
    destruct Hk as [->|[->| ->]];
      [ assert (HM : M = -2) by lia
      | assert (HM : M = -5) by lia
      | assert (HM : M = -11) by lia ];
      rewrite HM in He; lia.
  - pose proof (codeLength_bounds (M + k + 1)). lia.
Qed.

Lemma stepDay_parts D k :
  let nominal := firstOfMonth (monthIndex D + k) + DateFromDay D - 1 in
  monthIndex (stepDay D k) = monthIndex nominal /\
  DateFromDay (stepDay D k) =
    if DateFromDay D =? codeLength (monthIndex D)
    then codeLength (monthIndex nominal)
    else DateFromDay nominal.
Proof.
  intros nominal. unfold stepDay. fold nominal.
  destruct (DateFromDay D =? codeLength (monthIndex D)); [|split; reflexivity].
  set (N := monthIndex nominal).
  pose proof (codeLength_bounds N) as HC.
  pose proof (firstOfMonth_succ N) as HS.
  assert (HI : monthIndex (firstOfMonth N + codeLength N - 1) = N)
    by (apply monthIndex_unique; lia).
  split; [exact HI|].
  destruct (monthIndex_spec (firstOfMonth N + codeLength N - 1)) as [_ ->].
  rewrite HI. lia.
Qed.

(** Stepping back 3, 6 or 12 months and forward again never lands before
    the starting day. *)
Lemma stepDay_roundtrip D k :
  k = 3 \/ k = 6 \/ k = 12 -> D <= stepDay (stepDay D (- k)) k.
Proof.
  intros Hk.
  pose proof (stepDay_ge_nominal (stepDay D (- k)) k Hk) as Hge.
  destruct (stepDay_parts D (- k)) as [HI HD]. cbv zeta in HI, HD.
  rewrite HI, HD in Hge. clear HI HD.
  pose proof (DateFromDay_bounds D) as Hdt.
  pose proof (monthLength_bounds (monthIndex D)) as HL.
  pose proof (day_of_parts D) as HP.
  set (M := monthIndex D) in *. set (dt := DateFromDay D) in *.
  pose proof (firstOfMonth_succ M) as HS.
  pose proof (monthLength_bounds (M + - k)) as HLk.
  pose proof (firstOfMonth_succ (M + - k)) as HSk.
  destruct (monthIndex_nominal (M + - k) dt ltac:(lia)) as [[Hle HN]|[Hgt HN]];
    rewrite HN in Hge.
  - replace (M + - k + k) with M in Hge by lia.
    destruct (Z.eqb_spec dt (codeLength M)) as [He|_].
    + destruct (codeLength_cases (M + - k)) as [HC|[H1 HC]];
        [rewrite HC in Hge; lia|].
      rewrite HC in Hge.
      rewrite H1, monthLength_1 in Hle.
      destruct codeLength_around_1 as (_ & _ & _ & E4 & E7 & E13).
      clearbody M dt.
      destruct Hk as [->|[->| ->]];
        [ assert (HM : M = 4) by lia
        | assert (HM : M = 7) by lia
        | assert (HM : M = 13) by lia ];
        rewrite HM in He; lia.
    + destruct (monthIndex_spec (firstOfMonth (M + - k) + dt - 1)) as [_ HDt].
      rewrite HN in HDt. rewrite HDt in Hge. lia.
  - replace (M + - k + 1 + k) with (M + 1) in Hge by lia.
    destruct (Z.eqb_spec dt (codeLength M)) as [He|_].
    + pose proof (codeLength_bounds (M + - k + 1)). lia.
    + pose proof (DateFromDay_bounds (firstOfMonth (M + - k) + dt - 1)). lia.
Qed.

Lemma ToInteger_period m ppy :
  ppy = 1 \/ ppy = 2 \/ ppy = 4 ->
  ToInteger (inject_Z m + 12 / inject_Z ppy) = m + wholeMonths ppy /\
  ToInteger (inject_Z m + - (12 / inject_Z ppy)) = m + - wholeMonths ppy.
Proof.
  intros [->|[->| ->]]; unfold ToInteger, wholeMonths; cbn; split;
    Z.to_euclidean_division_equations; lia.
Qed.

Lemma wholeMonths_cases ppy :
  ppy = 1 \/ ppy = 2 \/ ppy = 4 ->
  wholeMonths ppy = 3 \/ wholeMonths ppy = 6 \/ wholeMonths ppy = 12.
Proof. intros [->|[->| ->]]; cbv; auto. Qed.

Section Period.

Variable ppy : Z.
Hypothesis Hppy : ppy = 1 \/ ppy = 2 \/ ppy = 4.

Let months : Q := (12 / inject_Z ppy)%Q.

Lemma addMonthsEOM_fwd_step d :
  addMonthsEOM d months
  = MakeDate (stepDay (Day d) (wholeMonths ppy)) (TimeWithinDay d).
Proof.
  apply addMonthsEOM_stepDay. apply (ToInteger_period _ _ Hppy).
Qed.

Lemma addMonthsEOM_back_step d :
  addMonthsEOM d (- months)
  = MakeDate (stepDay (Day d) (- wholeMonths ppy)) (TimeWithinDay d).
Proof.
  apply addMonthsEOM_stepDay. apply (ToInteger_period _ _ Hppy).
Qed.

Lemma addMonthsEOM_back d : addMonthsEOM d (- months) < d.
Proof.
  rewrite addMonthsEOM_back_step.
  rewrite <- (MakeDate_Day_TimeWithinDay d) at 3.
  apply MakeDate_lt, stepDay_back.
  destruct (wholeMonths_cases _ Hppy) as [->|[->| ->]]; lia.
Qed.

Lemma addMonthsEOM_back_far d :
  Day (addMonthsEOM d (- months)) + 28 <= Day d.
Proof.
  rewrite addMonthsEOM_back_step.
  rewrite Day_MakeDate by apply TimeWithinDay_bounds.
  apply stepDay_back_far.
  destruct (wholeMonths_cases _ Hppy) as [->|[->| ->]]; lia.
Qed.

Lemma addMonthsEOM_fwd d : d < addMonthsEOM d months.
Proof.
  rewrite addMonthsEOM_fwd_step.
  rewrite <- (MakeDate_Day_TimeWithinDay d) at 1.
  apply MakeDate_lt, stepDay_forward.
  destruct (wholeMonths_cases _ Hppy) as [->|[->| ->]]; lia.
Qed.

Lemma addMonthsEOM_roundtrip d :
  d <= addMonthsEOM (addMonthsEOM d (- months)) months.
Proof.
  rewrite addMonthsEOM_fwd_step, addMonthsEOM_back_step.
  pose proof (TimeWithinDay_bounds d) as Ht.
  rewrite Day_MakeDate, TimeWithinDay_MakeDate by exact Ht.
  rewrite <- (MakeDate_Day_TimeWithinDay d) at 1.
  apply MakeDate_le, stepDay_roundtrip, wholeMonths_cases, Hppy.
Qed.

End Period.

End DateFacts.

Module LoopFacts.

Section Loop.
Context {S R : Type}.
Variable body : S -> S + R.

Lemma loop_mono n m s r :
  loop n body s = Some r -> (n <= m)%nat -> loop m body s = Some r.
Proof.
  revert m s. induction n as [|n IH]; intros m s H Hle; [discriminate|].
  destruct m as [|m]; [lia|]. cbn [loop] in *.
  destruct (body s) as [s'|r']; [|exact H].
  apply IH; [exact H|lia].
Qed.

Lemma loop_invariant (I : S -> Prop) :
  (forall s s', I s -> body s = inl s' -> I s') ->
  forall n s r, I s -> loop n body s = Some r ->
  exists s', I s' /\ body s' = inr r.
Proof.
  intros Hstep. induction n as [|n IH]; intros s r Hs H; [discriminate|].
  cbn [loop] in H. destruct (body s) as [s'|r'] eqn:E.
  - apply (IH s' r); [eapply Hstep; eassumption|exact H].
  - exists s. split; [exact Hs|]. congruence.
Qed.

Lemma loop_terminates (mu : S -> nat) :
  (forall s s', body s = inl s' -> (mu s' < mu s)%nat) ->
  forall n s, (mu s < n)%nat -> exists r, loop n body s = Some r.
Proof.
  intros Hdec. induction n as [|n IH]; intros s Hn; [lia|].
  cbn [loop]. destruct (body s) as [s'|r] eqn:E.
  - apply IH. specialize (Hdec _ _ E). lia.
  - exists r. reflexivity.
Qed.

End Loop.

End LoopFacts.

Module WalkFacts.
Import ES Cal ESFacts DateFacts LoopFacts.

Lemma epoch_is_zero : newDate 1970 0 1 = 0.
Proof. reflexivity. Qed.

Section Walk.

Variable ppy : Z.
Hypothesis Hppy : ppy = 1 \/ ppy = 2 \/ ppy = 4.

Let months : Q := (12 / inject_Z ppy)%Q.

(** Both backward walks stop: a further step is taken only to a date that
    is later than 1970-01-01 and earlier than the current one. *)
Lemma backward_walk_stops {R : Type} (ref : Date) (exit : Date -> Date -> R)
    (start : Date) (fuel : nat) :
  (Z.to_nat (Day start / 28) < fuel)%nat ->
  exists r,
    loop fuel
      (fun d =>
         let prev := addMonthsEOM d (- months) in
         if (prev <=? ref) || (prev <=? newDate 1970 0 1)
         then inr (exit d prev) else inl prev)
      start = Some r.
Proof.
  apply (loop_terminates _ (fun d => Z.to_nat (Day d / 28))).
  intros d d'. cbv zeta.
  pose proof (addMonthsEOM_back_far ppy Hppy d) as Hlt. fold months in Hlt.
  rewrite epoch_is_zero.
  destruct (Z.leb_spec (addMonthsEOM d (- months)) ref); cbn [orb];
    [discriminate|].
  destruct (Z.leb_spec (addMonthsEOM d (- months)) 0); [discriminate|].
  intros [= <-].
  assert (0 <= Day (addMonthsEOM d (- months)))
    by (unfold Day, msPerDay; Z.to_euclidean_division_equations; lia).
  Z.to_euclidean_division_equations; lia.
Qed.

End Walk.
End WalkFacts.

Module BusinessDayFacts.
Import ES Cal ESFacts DateFacts LoopFacts.

Lemma setDate_succ d : setDate d (getDate d + 1) = d + msPerDay.
Proof.
  unfold setDate, getFullYear, getMonth, getDate.
  rewrite MakeDay_firstOfMonth. fold (monthIndex (Day d)).
  pose proof (day_of_parts (Day d)) as HD.
  pose proof (MakeDate_Day_TimeWithinDay d) as Ht.
  unfold MakeDate in *. lia.
Qed.

Lemma getDay_succ d : getDay (d + msPerDay) = (getDay d + 1) mod 7.
Proof.
  unfold getDay, WeekDay, Day, msPerDay.
  Z.to_euclidean_division_equations; lia.
Qed.

Lemma getDay_range d : 0 <= getDay d <= 6.
Proof. unfold getDay, WeekDay. Z.to_euclidean_division_equations; lia. Qed.

(** At most two further days are skipped, so three entries of the loop
    suffice; the result is a later instant. *)
Lemma nextBusinessDay_returns d fuel :
  (3 <= fuel)%nat ->
  exists s, nextBusinessDay fuel d = Some s /\ d < s.
Proof.
  intros Hf. unfold nextBusinessDay. rewrite setDate_succ.
  destruct fuel as [|[|[|n]]]; try lia. cbn [loop].
  pose proof (getDay_range (d + msPerDay)) as Hr.
  pose proof (getDay_succ (d + msPerDay)) as H1.
  pose proof (getDay_succ (d + msPerDay + msPerDay)) as H2.
  assert (Hms : 0 < msPerDay) by (unfold msPerDay; lia).
  rewrite !setDate_succ.
  destruct (Z.eqb_spec (getDay (d + msPerDay)) 0) as [E0|N0]; cbn [orb].
  - rewrite E0 in H1. change ((0 + 1) mod 7) with 1 in H1.
    rewrite ?setDate_succ, H1. cbn [Z.eqb Pos.eqb orb].
    eexists; split; [reflexivity|lia].
  - destruct (Z.eqb_spec (getDay (d + msPerDay)) 6) as [E6|N6].
    + rewrite E6 in H1. change ((6 + 1) mod 7) with 0 in H1.
      rewrite H1 in H2. change ((0 + 1) mod 7) with 1 in H2.
      rewrite H1. cbn [Z.eqb orb]. rewrite ?setDate_succ, H2.
      cbn [Z.eqb Pos.eqb orb].
      eexists; split; [reflexivity|lia].
    + eexists; split; [reflexivity|lia].
Qed.

End BusinessDayFacts.

Module BracketFacts.
Import ES Cal ESFacts DateFacts LoopFacts WalkFacts.

Section Bracket.

Variable ppy : Z.
Hypothesis Hppy : ppy = 1 \/ ppy = 2 \/ ppy = 4.

Let months : Q := (12 / inject_Z ppy)%Q.

(** With settlement no earlier than 1970-01-01 and no later than
    maturity, the bracket contains the settlement date. *)
Lemma couponBracket_contains fuel maturity settlement last next :
  0 <= settlement <= maturity ->
  couponBracket fuel maturity settlement months = Some (last, next) ->
  last <= settlement <= next /\ last < next.
Proof.
  intros [H0 Hm] H. unfold couponBracket, bind in H.
  match type of H with
  | context [loop ?n ?b ?s] =>
      destruct (loop n b s) as [[current previous]|] eqn:EL; [|discriminate]
  end.
  apply (loop_invariant _ (fun c => settlement <= c)) in EL.
  2: { intros c c' Hc; cbv zeta.
       destruct (Z.leb_spec (addMonthsEOM c (- months)) settlement);
         cbn [orb]; [intros [=]|].
       destruct (Z.leb (addMonthsEOM c (- months)) (newDate 1970 0 1));
         [intros [=]|]. intros [= <-]. lia. }
  2: exact Hm.
  destruct EL as (c & Hc & Hexit). cbv zeta in Hexit.
  rewrite epoch_is_zero in Hexit.
  assert (Hprev : current = c /\ previous = addMonthsEOM c (- months)
                  /\ previous <= settlement).
  { destruct (Z.leb_spec (addMonthsEOM c (- months)) settlement);
      cbn [orb] in Hexit.
    - injection Hexit as <- <-. auto.
    - destruct (Z.leb_spec (addMonthsEOM c (- months)) 0);
        [|discriminate].
      injection Hexit as <- <-. repeat split; lia. }
  destruct Hprev as (-> & Ep & Hle).
  destruct (Z.leb_spec previous settlement); [|lia].
  injection H as <- <-.
  pose proof (addMonthsEOM_roundtrip ppy Hppy c) as Hrt.
  pose proof (addMonthsEOM_fwd ppy Hppy previous) as Hfw.
  fold months in Hrt, Hfw. rewrite <- Ep in Hrt. lia.
Qed.

Lemma couponBracket_returns fuel maturity settlement :
  (Z.to_nat (Day maturity / 28) < fuel)%nat ->
  exists b, couponBracket fuel maturity settlement months = Some b.
Proof.
  intros Hf. unfold couponBracket.
  destruct (backward_walk_stops ppy Hppy settlement pair maturity fuel Hf)
    as [[c p] E].
  match goal with
  | |- context [loop ?n ?b ?s] =>
      replace (loop n b s) with (Some (c, p)) by (symmetry; exact E)
  end.
  cbn [bind]. eexists. reflexivity.
Qed.

Lemma firstCouponFallback_returns fuel maturity :
  (Z.to_nat (Day maturity / 28) < fuel)%nat ->
  exists r, firstCouponFallback fuel maturity months = Some r /\
            r <= maturity /\
            (addMonthsEOM r (- months) <= CURVE_DATE \/
             addMonthsEOM r (- months) <= newDate 1970 0 1).
Proof.
  intros Hf. unfold firstCouponFallback.
  destruct (backward_walk_stops ppy Hppy CURVE_DATE (fun d _ => d)
              maturity fuel Hf) as [r E].
  fold months in E. exists r. split; [exact E|].
  apply (loop_invariant _ (fun c => c <= maturity)) in E.
  2: { intros c c' Hc. cbv zeta.
       pose proof (addMonthsEOM_back ppy Hppy c) as Hlt. fold months in Hlt.
       destruct (orb _ _); [intros [=]|]. intros [= <-]. lia. }
  2: lia.
  destruct E as (c & Hc & Hexit). cbv zeta in Hexit.
  destruct (Z.leb_spec (addMonthsEOM c (- months)) CURVE_DATE);
    cbn [orb] in Hexit.
  - injection Hexit as <-. auto.
  - destruct (Z.leb_spec (addMonthsEOM c (- months)) (newDate 1970 0 1));
      [|discriminate].
    injection Hexit as <-. auto.
Qed.

End Bracket.

(** Day-count fraction bounds. *)
Lemma fraction_bounds (last settlement next : Date) :
  last <= settlement <= next ->
  let daysInPeriod := daysBetween last next in
  let daysIntoPeriod := daysBetween last settlement in
  let f := if Qeq_bool daysInPeriod 0 then 0%Q
           else (daysIntoPeriod / daysInPeriod)%Q in
  (0 <= f <= 1)%Q.
Proof.
  intros [H1 H2] dip dinto f. subst f.
  destruct (Qeq_bool dip 0) eqn:E; [split; discriminate|].
  apply Qeq_bool_neq in E.
  assert (Hinto : (0 <= dinto)%Q).
  { subst dinto. unfold daysBetween, getTime, Qdiv, Qle; cbn. lia. }
  assert (Hle : (dinto <= dip)%Q).
  { subst dinto dip. unfold daysBetween, getTime, Qdiv, Qle; cbn. lia. }
  assert (Hpos : (0 < dip)%Q).
  { apply Qle_lteq in Hle. destruct (Qlt_le_dec 0 dip) as [|Hn]; [assumption|].
    exfalso. apply E. apply Qle_antisym; [exact Hn|].
    apply Qle_trans with dinto; [exact Hinto|].
    destruct Hle as [Hl|He]; [apply Qlt_le_weak; exact Hl|rewrite He; apply Qle_refl]. }
  split.
  - apply Qle_shift_div_l; [exact Hpos|]. rewrite Qmult_0_l. exact Hinto.
  - apply Qle_shift_div_r; [exact Hpos|]. rewrite Qmult_1_l. exact Hle.
Qed.

End BracketFacts.

(** * The claims *)

Module Claims.
Import ES Cal ESFacts DateFacts LoopFacts WalkFacts BusinessDayFacts BracketFacts.
Import Samples MoreSamples.

(** ** addMonthsEOM *)

(** C3.  On a source date that is the last day of its month the result
    should be the last day of the month [m] months later, so 2024-02-29
    plus twelve months should be 2025-02-28.  The code gives 2025-03-31:
    [setMonth] keeps day 29, which February 2025 does not have, the date
    carries over to 1 March, and the end-of-month adjustment is then made
    in March. *)
Theorem addMonthsEOM_leap_day_overflows :
  addMonthsEOM (ymd 2024 2 29) 12 = ymd 2025 3 31 /\
  addMonthsEOM (ymd 2024 2 29) 12 <> ymd 2025 2 28 /\
  getDate (ymd 2024 2 29) = daysInMonth 2024 1.
Proof. repeat split. intros H. vm_compute in H. discriminate H. Qed.

(** C4, as stated: 2023-02-28 plus twelve months is 2024-02-28.  It is
    not. *)
Lemma feb28_2023_plus_12_is_not_feb28 :
  addMonthsEOM (ymd 2023 2 28) 12 <> ymd 2024 2 28.
Proof. intros H. vm_compute in H. discriminate H. Qed.

(** C4, amended.  2023-02-28 is the last day of its month, so the result
    is moved to the last day of February 2024: 2024-02-29. *)
Theorem feb28_2023_plus_12_is_feb29 :
  addMonthsEOM (ymd 2023 2 28) 12 = ymd 2024 2 29.
Proof. reflexivity. Qed.

(** ** nssYield *)

(** C6.  With positive decay constants, [nssYield] is [beta0] at
    non-positive times and the four-term NSS form at positive times. *)
Theorem nssYield_formula (t b0 b1 b2 b3 tau1 tau2 : R) :
  (0 < tau1)%R -> (0 < tau2)%R ->
  ((t <= 0)%R -> nssYield t [b0; b1; b2; b3; tau1; tau2] = b0) /\
  ((0 < t)%R ->
   let x1 := (t / tau1)%R in
   let x2 := (t / tau2)%R in
   nssYield t [b0; b1; b2; b3; tau1; tau2]
   = (b0 + b1 * ((1 - exp (- x1)) / x1)
         + b2 * ((1 - exp (- x1)) / x1 - exp (- x1))
         + b3 * ((1 - exp (- x2)) / x2 - exp (- x2)))%R).
Proof.
  intros _ _. unfold nssYield. cbn [nth].
  split; intros Ht; destruct (Rle_dec t 0) as [Hle|Hgt];
    try reflexivity; Lra.lra.
Qed.

Lemma nssYield_formula_witness :
  (0 < 1)%R /\ (0 < 3)%R /\
  (((2 <= 0)%R -> nssYield 2 [4 / 100; - (2 / 100); 2 / 100; 1 / 100; 1; 3]%R
                  = (4 / 100)%R) /\
   ((0 < 2)%R ->
    let x1 := (2 / 1)%R in
    let x2 := (2 / 3)%R in
    nssYield 2 [4 / 100; - (2 / 100); 2 / 100; 1 / 100; 1; 3]%R
    = (4 / 100 + - (2 / 100) * ((1 - exp (- x1)) / x1)
         + 2 / 100 * ((1 - exp (- x1)) / x1 - exp (- x1))
         + 1 / 100 * ((1 - exp (- x2)) / x2 - exp (- x2)))%R)).
Proof.
  split; [Lra.lra|]. split; [Lra.lra|].
  apply (nssYield_formula 2 (4 / 100) (- (2 / 100)) (2 / 100) (1 / 100) 1 3);
    Lra.lra.
Defined.

(** ** buildCashflowsForSecurity *)

(** Every emitted cashflow lies after the valuation date and not after
    maturity, and carries the coupon, plus 100 on the maturity date. *)
Lemma couponLoop_emits fuel curve maturity coupon months first cfs :
  couponLoop fuel curve maturity coupon months first = Some cfs ->
  Forall (fun cf =>
            curve < date cf <= maturity /\
            amount cf = if date cf =? maturity
                        then (coupon + faceValue)%Q else coupon) cfs.
Proof.
  unfold couponLoop. intros H.
  apply (loop_invariant _
           (fun st : Date * list Cashflow =>
              Forall (fun cf =>
                        curve < date cf <= maturity /\
                        amount cf = if date cf =? maturity
                                    then (coupon + faceValue)%Q else coupon)
                     (snd st))) in H.
  - destruct H as ([d acc] & HI & Hexit). cbn [snd] in HI.
    destruct (d <=? maturity); [discriminate Hexit|].
    injection Hexit as <-. exact HI.
  - intros [d acc] [d' acc'] HI. cbn [snd] in *.
    destruct (Z.leb_spec d maturity) as [Hle|]; [|intros [=]].
    intros [= <- <-].
    destruct (Z.ltb_spec curve d) as [Hlt|]; [|exact HI].
    apply Forall_app. split; [exact HI|].
    constructor; [|constructor]. cbn [date amount]. unfold getTime.
    split; [lia|reflexivity].
  - constructor.
Qed.

Lemma couponPerPeriod_positive (rate : Q) (ppy : Z) :
  (0 < rate)%Q -> 0 < ppy ->
  (0 < (faceValue * (rate / 100)) / inject_Z ppy)%Q.
Proof.
  intros Hr Hp. apply Qlt_shift_div_l.
  - unfold Qlt, inject_Z; cbn. lia.
  - rewrite Qmult_0_l. unfold faceValue, Qdiv.
    apply Qmult_lt_0_compat; [reflexivity|].
    apply Qmult_lt_0_compat; [exact Hr|reflexivity].
Qed.

(** What holds of every schedule: dates in range, amounts strictly
    positive. *)
Lemma buildCashflows_dates_amounts fuel p rate cfs :
  interestRatePercent p = Some rate -> (0 < rate)%Q ->
  0 < frequencyPerYear p ->
  buildCashflowsForSecurity fuel p = Some cfs ->
  Forall (fun cf => curveDate p < date cf <= maturityDate p /\
                    (0 < amount cf)%Q) cfs.
Proof.
  intros Er Hr Hp H. unfold buildCashflowsForSecurity, bind in H.
  rewrite Er in H.
  destruct (match firstInterestPaymentDate p with
            | Some d => Some d
            | None => _
            end) as [first|]; [|discriminate].
  apply couponLoop_emits in H.
  pose proof (couponPerPeriod_positive rate _ Hr Hp) as Hc.
  eapply Forall_impl; [|exact H].
  intros cf [Hd Ha]. split; [exact Hd|]. rewrite Ha.
  destruct (date cf =? maturityDate p); [|exact Hc].
  apply Qlt_trans with (1 := Hc).
  rewrite <- (Qplus_0_r (faceValue * (rate / 100) / inject_Z (frequencyPerYear p))) at 1.
  apply Qplus_lt_r. reflexivity.
Qed.

(** C5.  The final cashflow should carry the face value.  For a note
    that pays at month ends (first coupon 2022-05-31, maturity 2026-11-30)
    the schedule drifts: 2022-05-31 plus six months is taken through
    a November 31 to 2022-12-31, and from there on the dates are the ends
    of January and July.  The maturity date is never met, and the last
    cashflow, on 2026-07-31, is the coupon of 2 alone. *)
Theorem month_end_schedule_misses_principal :
  exists c1 c2,
    buildCashflowsForSecurity 100 monthEndNote = Some [c1; c2] /\
    date c1 = ymd 2026 1 31 /\ date c2 = ymd 2026 7 31 /\
    (amount c2 == 2)%Q /\ ~ (faceValue <= amount c2)%Q /\
    date c2 < maturityDate monthEndNote /\
    addMonthsEOM (ymd 2022 5 31) (12 / inject_Z 2) = ymd 2022 12 31.
Proof.
  eexists. eexists. split; [vm_compute; reflexivity|].
  repeat split; cbn [date amount]; try reflexivity.
  intros H. vm_compute in H. apply H. reflexivity.
Qed.

(** The stopping test of the fallback reads the module constant
    [CURVE_DATE], not the [curveDate] parameter.  Both call sites pass
    [CURVE_DATE], so no call shows the difference; a call with another
    valuation date would: valued on 2020-01-01, a bond maturing 2030-01-15
    would get 2026-01-15 as first coupon date, not 2020-01-15. *)
Lemma fallback_reads_the_constant :
  firstCouponFallback 100 (maturityDate unanchored2020) (12 / inject_Z 2)
    = Some (ymd 2026 1 15) /\
  option_map (map date) (buildCashflowsForSecurity 100 unanchored2020)
    = Some [ymd 2026 1 15; ymd 2026 7 15; ymd 2027 1 15; ymd 2027 7 15;
            ymd 2028 1 15; ymd 2028 7 15; ymd 2029 1 15; ymd 2029 7 15;
            ymd 2030 1 15] /\
  firstCouponFallbackBySpec 100 (curveDate unanchored2020)
    (maturityDate unanchored2020) (12 / inject_Z 2)
    = Some (ymd 2020 1 15) /\
  addMonthsEOM (ymd 2026 1 15) (- (12 / inject_Z 2)) = ymd 2025 7 15 /\
  curveDate unanchored2020 < ymd 2025 7 15 /\
  newDate 1970 0 1 < ymd 2025 7 15 /\
  ymd 2025 7 15 <= CURVE_DATE.
Proof. repeat split; vm_compute; congruence. Qed.


(** ** calibrateNssFromDb *)

(** C8.  When no bond with a usable coupon schedule is found, the
    calibration returns the tagged error at once: it is not an optimizer
    request, and its outcome is the error whatever optimizer is plugged
    in. *)
Theorem empty_universe_is_tagged_error fuel env :
  buildCouponBonds fuel env = Some [] ->
  exists msg,
    calibrateNssFromDb fuel env = Some (Done (inl msg)) /\
    optimizerCalls (Done (inl msg)) = 0%nat /\
    forall nelderMead, runCalibration nelderMead (Done (inl msg)) = inl msg.
Proof.
  intros H. unfold calibrateNssFromDb. rewrite H. cbn [bind List.length Nat.eqb].
  eexists. split; [reflexivity|]. split; [reflexivity|]. intros nm. reflexivity.
Qed.

Lemma empty_universe_is_tagged_error_witness :
  buildCouponBonds 10 billsOnly = Some [] /\
  exists msg,
    calibrateNssFromDb 10 billsOnly = Some (Done (inl msg)) /\
    optimizerCalls (Done (inl msg)) = 0%nat /\
    forall nelderMead, runCalibration nelderMead (Done (inl msg)) = inl msg.
Proof.
  split; [reflexivity|].
  apply (empty_universe_is_tagged_error 10 billsOnly). reflexivity.
Defined.

(** ** calculateTreasuryAnalytics *)

Lemma getFrequencyPerYear_cases ty fr rate :
  let fq := getFrequencyPerYear ty fr rate in
  (isBill fq = true /\ frequency fq = 0) \/
  (isBill fq = false /\
   (frequency fq = 1 \/ frequency fq = 2 \/ frequency fq = 4)).
Proof.
  unfold getFrequencyPerYear.
  repeat match goal with
         | |- context [if ?c then _ else _] => destruct c
         end; cbn [isBill frequency]; auto.
Qed.

(** A bill is answered for every reading of the clock. *)
Lemma bill_analytics_returns fuel env cusip today priceRow secRow :
  (3 <= fuel)%nat ->
  find (fun p => String.eqb (p_cusip p) cusip) (prices env) = Some priceRow ->
  find (fun s => String.eqb (s_cusip s) cusip) (securities env) = Some secRow ->
  isBill (getFrequencyPerYear (SecurityType secRow)
            (InterestPaymentFrequency secRow)
            (rateOrZero (InterestRate secRow))) = true ->
  exists r, calculateTreasuryAnalytics fuel env cusip today = Some (inr r).
Proof.
  intros Hf Hp Hs Hb. unfold calculateTreasuryAnalytics.
  rewrite Hp, Hs.
  destruct (nextBusinessDay_returns today fuel Hf) as (s & -> & _).
  cbn [bind]. rewrite Hb. cbn [orb]. eexists. reflexivity.
Qed.

(** C1.  In every success payload the dirty price is the clean price plus
    the accrued interest; for a security classified as a bill the accrued
    interest and [f] are 0 and the dirty price is the clean price, whatever
    the clock reads. *)
Theorem dirty_is_clean_plus_accrued fuel env cusip today r :
  calculateTreasuryAnalytics fuel env cusip today = Some (inr r) ->
  (Analytics.dirtyPricePer100 r
   == Analytics.cleanPricePer100 r + Analytics.accruedInterestPer100 r)%Q /\
  (forall secRow,
     find (fun s => String.eqb (s_cusip s) cusip) (securities env)
       = Some secRow ->
     isBill (getFrequencyPerYear (SecurityType secRow)
               (InterestPaymentFrequency secRow)
               (rateOrZero (InterestRate secRow))) = true ->
     Analytics.accruedInterestPer100 r = 0%Q /\
     Analytics.dirtyPricePer100 r = Analytics.cleanPricePer100 r /\
     Analytics.f r = 0%Q).
Proof.
  unfold calculateTreasuryAnalytics. intros H.
  destruct (find _ (prices env)) as [priceRow|]; [|discriminate].
  destruct (find _ (securities env)) as [secRow|]; [|discriminate].
  destruct (nextBusinessDay fuel today) as [settlement|]; [|discriminate].
  cbn [bind] in H.
  destruct (isBill _ || _ || _) eqn:Ebill.
  - injection H as <-. cbn. split; [ring|].
    intros ? _ _. repeat split.
  - destruct (couponBracket _ _ _ _) as [[last next]|]; [|discriminate].
    cbn [bind] in H. injection H as <-. cbn. split; [reflexivity|].
    intros s [= <-] Hb. rewrite Hb in Ebill. discriminate.
Qed.

Lemma dirty_is_clean_plus_accrued_witness :
  exists r,
    calculateTreasuryAnalytics 5 env "BILL2026" (at_time 2025 11 21 10)
      = Some (inr r) /\
    (Analytics.dirtyPricePer100 r
     == Analytics.cleanPricePer100 r + Analytics.accruedInterestPer100 r)%Q /\
    (forall secRow,
       find (fun s => String.eqb (s_cusip s) "BILL2026") (securities env)
         = Some secRow ->
       isBill (getFrequencyPerYear (SecurityType secRow)
                 (InterestPaymentFrequency secRow)
                 (rateOrZero (InterestRate secRow))) = true ->
       Analytics.accruedInterestPer100 r = 0%Q /\
       Analytics.dirtyPricePer100 r = Analytics.cleanPricePer100 r /\
       Analytics.f r = 0%Q).
Proof.
  eexists. split; [vm_compute; reflexivity|].
  apply (dirty_is_clean_plus_accrued 5 env "BILL2026" (at_time 2025 11 21 10)).
  vm_compute. reflexivity.
Defined.

(** C9, as stated: with the database fixed, two calls for the same CUSIP
    give the same result.  They do not when the clock has moved on. *)
Lemma analytics_depend_on_the_clock :
  calculateTreasuryAnalytics 100 env "NOTE2034" (ymd 2025 11 19)
  <> calculateTreasuryAnalytics 100 env "NOTE2034" (ymd 2025 12 19).
Proof. intros H. vm_compute in H. congruence. Qed.

(** C9, amended.  The clock enters only through the settlement date, the
    next business day after the current instant: two calls whose clock
    readings give the same settlement date return the same result. *)
Theorem analytics_depend_on_settlement_only fuel env cusip today1 today2 :
  nextBusinessDay fuel today1 = nextBusinessDay fuel today2 ->
  calculateTreasuryAnalytics fuel env cusip today1
  = calculateTreasuryAnalytics fuel env cusip today2.
Proof.
  intros H. unfold calculateTreasuryAnalytics. rewrite H. reflexivity.
Qed.

Lemma analytics_depend_on_settlement_only_witness :
  nextBusinessDay 100 (at_time 2025 11 21 10)
  = nextBusinessDay 100 (at_time 2025 11 22 10) /\
  calculateTreasuryAnalytics 100 env "NOTE2034" (at_time 2025 11 21 10)
  = calculateTreasuryAnalytics 100 env "NOTE2034" (at_time 2025 11 22 10).
Proof.
  split; [reflexivity|].
  apply (analytics_depend_on_settlement_only 100 env "NOTE2034"
           (at_time 2025 11 21 10) (at_time 2025 11 22 10)).
  reflexivity.
Defined.


(** What the 1970 floor of the walk does to a settlement date before it,
    which no clock reads: for the 1955 bond and a reading of 1960-01-01 the
    walk back from 1975 is cut off at the floor, the bracket is 1970-01-15
    to 1970-07-15, and [f] is negative. *)
Lemma fraction_negative_before_1970 :
  exists r,
    calculateTreasuryAnalytics 100 env "BOND1975" (ymd 1960 1 1)
      = Some (inr r) /\
    nextBusinessDay 100 (ymd 1960 1 1) = Some (ymd 1960 1 4) /\
    DatedDate oldBondRow = Some (ymd 1955 1 15) /\
    ymd 1955 1 15 <= ymd 1960 1 4 <= MaturityDate oldBondRow /\
    isBill (getFrequencyPerYear (SecurityType oldBondRow)
              (InterestPaymentFrequency oldBondRow)
              (rateOrZero (InterestRate oldBondRow))) = false /\
    ~ (0 <= Analytics.f r <= 1)%Q.
Proof.
  eexists. split; [vm_compute; reflexivity|].
  repeat split; try (vm_compute; congruence).
  intros [H _]. vm_compute in H. apply H. reflexivity.
Qed.

(** C2, as stated: [0 <= f <= 1] for every settlement date between the
    dated date and maturity.  The settlement date keeps the time of day of
    the clock, and the maturity is midnight UTC.  With the clock at
    2026-01-14T10:00Z a note maturing 2026-01-15 settles on its maturity
    date, ten hours after the maturity instant: the bracket is 2025-07-15
    to 2026-01-15, 184 days, and [f] is 2213/2208. *)
Lemma fraction_above_one_on_maturity_day :
  exists r,
    calculateTreasuryAnalytics 100 maturingEnv "NOTE2026" (at_time 2026 1 14 10)
      = Some (inr r) /\
    nextBusinessDay 100 (at_time 2026 1 14 10) = Some (at_time 2026 1 15 10) /\
    DatedDate maturingRow = Some (ymd 2016 1 15) /\
    ymd 2016 1 15 <= at_time 2026 1 15 10 /\
    toISODate (at_time 2026 1 15 10) = toISODate (MaturityDate maturingRow) /\
    Analytics.settlementDate r = "2026-01-15"%string /\
    isBill (getFrequencyPerYear (SecurityType maturingRow)
              (InterestPaymentFrequency maturingRow)
              (rateOrZero (InterestRate maturingRow))) = false /\
    (daysInPeriodOf (Analytics.dayCountDetails r) == 184)%Q /\
    (Analytics.f r == 2213 # 2208)%Q /\
    ~ (0 <= Analytics.f r <= 1)%Q.
Proof.
  eexists. split; [vm_compute; reflexivity|].
  repeat split; try (vm_compute; congruence).
  intros [_ H]. vm_compute in H. apply H. reflexivity.
Qed.

(** C2, amended.  Dates are compared as instants.  For a settlement
    instant that is not after the maturity instant, and not before
    1970-01-01 as every reading of the clock is, [0 <= f <= 1]; [f] is 0
    whenever the period has no days; and in a payload with a coupon the
    period has a positive number of days, so that guard is not taken. *)
Theorem fraction_within_unit fuel env cusip today settlement secRow r :
  find (fun s => String.eqb (s_cusip s) cusip) (securities env) = Some secRow ->
  nextBusinessDay fuel today = Some settlement ->
  newDate 1970 0 1 <= settlement <= MaturityDate secRow ->
  calculateTreasuryAnalytics fuel env cusip today = Some (inr r) ->
  (0 <= Analytics.f r <= 1)%Q /\
  ((daysInPeriodOf (Analytics.dayCountDetails r) == 0)%Q ->
   Analytics.f r = 0%Q) /\
  (Analytics.couponPerPeriodPer100 r <> None ->
   (0 < daysInPeriodOf (Analytics.dayCountDetails r))%Q).
Proof.
  intros Hs Hn Hrange. unfold calculateTreasuryAnalytics.
  rewrite Hs, Hn. rewrite epoch_is_zero in Hrange.
  destruct (find _ (prices env)) as [priceRow|]; [|discriminate].
  cbn [bind].
  destruct (getFrequencyPerYear_cases (SecurityType secRow)
              (InterestPaymentFrequency secRow)
              (rateOrZero (InterestRate secRow))) as [[Hb Hf]|[Hb Hf]];
    cbv zeta in Hb, Hf; rewrite Hb; cbn [orb].
  - intros [= <-]. cbn. repeat split; try discriminate. intros H; contradiction.
  - assert (Hnz : (frequency (getFrequencyPerYear (SecurityType secRow)
                     (InterestPaymentFrequency secRow)
                     (rateOrZero (InterestRate secRow))) =? 0) = false)
      by (apply Z.eqb_neq; lia).
    rewrite Hnz. cbn [orb].
    destruct (Qeq_bool _ 0);
      [intros [= <-]; cbn; repeat split; try discriminate;
       intros H; contradiction|].
    destruct (couponBracket _ _ _ _) as [[last next]|] eqn:EB; [|discriminate].
    cbn [bind]. intros [= <-].
    cbn [Analytics.f Analytics.dayCountDetails Analytics.couponPerPeriodPer100
         daysInPeriodOf].
    apply (couponBracket_contains _ Hf) in EB; [|exact Hrange].
    split; [|split].
    + apply fraction_bounds. lia.
    + intros Hz. apply Qeq_eq_bool in Hz. rewrite Hz. reflexivity.
    + intros _. unfold daysBetween, getTime, Qdiv, Qlt; cbn. lia.
Qed.

Lemma fraction_within_unit_witness :
  exists r,
    find (fun s => String.eqb (s_cusip s) "NOTE2034") (securities env)
      = Some noteRow /\
    nextBusinessDay 100 (at_time 2025 11 19 10) = Some (at_time 2025 11 20 10) /\
    newDate 1970 0 1 <= at_time 2025 11 20 10 <= MaturityDate noteRow /\
    calculateTreasuryAnalytics 100 env "NOTE2034" (at_time 2025 11 19 10)
      = Some (inr r) /\
    (0 <= Analytics.f r <= 1)%Q /\
    ((daysInPeriodOf (Analytics.dayCountDetails r) == 0)%Q ->
     Analytics.f r = 0%Q) /\
    (Analytics.couponPerPeriodPer100 r <> None ->
     (0 < daysInPeriodOf (Analytics.dayCountDetails r))%Q).
Proof.
  eexists.
  split; [reflexivity|]. split; [reflexivity|].
  split; [split; vm_compute; congruence|].
  split; [vm_compute; reflexivity|].
  apply (fraction_within_unit 100 env "NOTE2034" (at_time 2025 11 19 10)
           (at_time 2025 11 20 10) noteRow).
  - reflexivity.
  - reflexivity.
  - split; vm_compute; congruence.
  - vm_compute. reflexivity.
Defined.

(** ** The backward walks on valid dates *)

(** On valid dates, for one, two or four periods a year, a backward step
    with [addMonthsEOM] gives a strictly earlier date, and both backward
    walks return: the first-coupon fallback of [buildCashflowsForSecurity]
    and the bracket search of [calculateTreasuryAnalytics]. *)
Lemma backward_walks_return_on_valid_dates ppy (maturity settlement : Date) :
  ppy = 1 \/ ppy = 2 \/ ppy = 4 ->
  let months := (12 / inject_Z ppy)%Q in
  (forall d, addMonthsEOM d (- months) < d) /\
  (forall fuel, (Z.to_nat (Day maturity / 28) < fuel)%nat ->
     exists first,
       firstCouponFallback fuel maturity months = Some first /\
       first <= maturity /\
       (addMonthsEOM first (- months) <= CURVE_DATE \/
        addMonthsEOM first (- months) <= newDate 1970 0 1)) /\
  (forall fuel, (Z.to_nat (Day maturity / 28) < fuel)%nat ->
     exists bracket,
       couponBracket fuel maturity settlement months = Some bracket).
Proof.
  intros Hppy months. subst months. split; [|split].
  - intros d. apply addMonthsEOM_back, Hppy.
  - intros fuel Hf. apply firstCouponFallback_returns; assumption.
  - intros fuel Hf. apply couponBracket_returns; assumption.
Qed.

Lemma backward_walks_return_on_valid_dates_sample :
  (2 = 1 \/ 2 = 2 \/ 2 = 4) /\
  let months := (12 / inject_Z 2)%Q in
  (forall d, addMonthsEOM d (- months) < d) /\
  (forall fuel, (Z.to_nat (Day (ymd 2034 1 15) / 28) < fuel)%nat ->
     exists first,
       firstCouponFallback fuel (ymd 2034 1 15) months = Some first /\
       first <= ymd 2034 1 15 /\
       (addMonthsEOM first (- months) <= CURVE_DATE \/
        addMonthsEOM first (- months) <= newDate 1970 0 1)) /\
  (forall fuel, (Z.to_nat (Day (ymd 2034 1 15) / 28) < fuel)%nat ->
     exists bracket,
       couponBracket fuel (ymd 2034 1 15) (ymd 2025 11 20) months
       = Some bracket).
Proof.
  split; [right; left; reflexivity|].
  apply (backward_walks_return_on_valid_dates 2 (ymd 2034 1 15) (ymd 2025 11 20)).
  right; left; reflexivity.
Defined.

End Claims.

(** * Further properties of the code *)

Module MoreDateFacts.
Import ES Cal ESFacts DateFacts LoopFacts BusinessDayFacts.

Lemma ToInteger_whole m k : ToInteger (inject_Z m + inject_Z k) = m + k.
Proof.
  unfold ToInteger, inject_Z, Qplus. cbn [Qnum Qden].
  rewrite !Z.mul_1_r. apply Z.quot_1_r.
Qed.

Lemma addMonthsEOM_whole d k :
  addMonthsEOM d (inject_Z k)
  = MakeDate (stepDay (Day d) k) (TimeWithinDay d).
Proof. apply addMonthsEOM_stepDay, ToInteger_whole. Qed.

(** A forward step of a month or more covers at least four weeks. *)
Lemma stepDay_forward_far D k : 1 <= k -> D + 28 <= stepDay D k.
Proof.
  intros Hk. step_facts D k M dt.
  pose proof (firstOfMonth_mono (M + 1) (M + k) ltac:(lia)) as Hmono.
  destruct (dt =? codeLength M); [|lia].
  destruct (monthIndex_nominal (M + k) dt ltac:(lia)) as [[_ ->]|[_ ->]]; lia.
Qed.

Lemma stepDay_zero D : stepDay D 0 = D.
Proof.
  unfold stepDay. rewrite Z.add_0_r.
  pose proof (day_of_parts D) as HD.
  destruct (Z.eqb_spec (DateFromDay D) (codeLength (monthIndex D))) as [E|_];
    [|lia].
  rewrite <- HD. lia.
Qed.

Lemma monthIndex_of_date d :
  12 * getFullYear d + getMonth d = monthIndex (Day d).
Proof. reflexivity. Qed.


Lemma addMonthsEOM_fwd_far ppy d :
  ppy = 1 \/ ppy = 2 \/ ppy = 4 ->
  Day d + 28 <= Day (addMonthsEOM d (12 / inject_Z ppy)).
Proof.
  intros Hppy. rewrite (addMonthsEOM_fwd_step ppy Hppy).
  rewrite Day_MakeDate by apply TimeWithinDay_bounds.
  apply stepDay_forward_far.
  destruct (wholeMonths_cases _ Hppy) as [->|[->| ->]]; lia.
Qed.

(** More than twelve periods a year: the month count of a period is
    below one and is cut to zero. *)
Lemma ToInteger_short_period m ppy :
  0 <= m -> 12 < ppy -> ToInteger (inject_Z m + 12 / inject_Z ppy) = m + 0.
Proof.
  intros Hm Hp. destruct ppy as [|p|p]; try lia.
  unfold ToInteger, inject_Z, Qdiv, Qinv, Qmult, Qplus. cbn [Qnum Qden].
  rewrite Z.add_0_r, Pos.mul_1_l, !Z.mul_1_r.
  rewrite Z.quot_div_nonneg by lia.
  rewrite Z.div_add_l by lia. rewrite Z.div_small by lia. lia.
Qed.

Lemma addMonthsEOM_short_period d ppy :
  12 < ppy -> addMonthsEOM d (12 / inject_Z ppy) = d.
Proof.
  intros Hp.
  rewrite (addMonthsEOM_stepDay d _ 0).
  - rewrite stepDay_zero. apply MakeDate_Day_TimeWithinDay.
  - apply ToInteger_short_period; [|exact Hp].
    destruct (MonthFromDay_spec (Day d)) as [Hm _]. unfold getMonth. lia.
Qed.

(** Up to the 27th no month is too short and no date is an end of month:
    a step keeps the day of month and moves by exactly [j] months. *)
Lemma stepDay_exact D j :
  DateFromDay D <= 27 ->
  stepDay D j = firstOfMonth (monthIndex D + j) + DateFromDay D - 1 /\
  monthIndex (stepDay D j) = monthIndex D + j /\
  DateFromDay (stepDay D j) = DateFromDay D.
Proof.
  intros H27.
  pose proof (DateFromDay_bounds D) as Hdt.
  pose proof (codeLength_bounds (monthIndex D)) as HC.
  pose proof (monthLength_bounds (monthIndex D + j)) as HL.
  pose proof (firstOfMonth_succ (monthIndex D + j)) as HS.
  assert (E : stepDay D j
              = firstOfMonth (monthIndex D + j) + DateFromDay D - 1).
  { unfold stepDay.
    destruct (Z.eqb_spec (DateFromDay D) (codeLength (monthIndex D))); [lia|].
    reflexivity. }
  assert (EI : monthIndex (stepDay D j) = monthIndex D + j)
    by (rewrite E; apply monthIndex_unique; lia).
  repeat split; [exact E|exact EI|].
  destruct (monthIndex_spec (stepDay D j)) as [_ ->]. rewrite EI, E. lia.
Qed.

Lemma stepDay_exact_roundtrip D k :
  DateFromDay D <= 27 -> stepDay (stepDay D (- k)) k = D.
Proof.
  intros H27.
  destruct (stepDay_exact D (- k) H27) as (E1 & I1 & D1).
  destruct (stepDay_exact (stepDay D (- k)) k ltac:(lia)) as (E2 & _ & _).
  rewrite E2, I1, D1.
  replace (monthIndex D + - k + k) with (monthIndex D) by lia.
  pose proof (day_of_parts D). lia.
Qed.

Lemma addMonthsEOM_exact_roundtrip ppy d :
  ppy = 1 \/ ppy = 2 \/ ppy = 4 -> getDate d <= 27 ->
  addMonthsEOM (addMonthsEOM d (- (12 / inject_Z ppy))) (12 / inject_Z ppy) = d
  /\ getDate (addMonthsEOM d (- (12 / inject_Z ppy))) = getDate d.
Proof.
  intros Hppy H27. unfold getDate in *.
  rewrite (addMonthsEOM_fwd_step ppy Hppy), (addMonthsEOM_back_step ppy Hppy).
  pose proof (TimeWithinDay_bounds d) as Ht.
  rewrite Day_MakeDate, TimeWithinDay_MakeDate by exact Ht.
  rewrite stepDay_exact_roundtrip by exact H27.
  split; [apply MakeDate_Day_TimeWithinDay|].
  apply (stepDay_exact (Day d) _ H27).
Qed.

Lemma iter_fwd_le ppy (first : Date) (j n : nat) :
  ppy = 1 \/ ppy = 2 \/ ppy = 4 -> (j <= n)%nat ->
  Nat.iter j (fun d => addMonthsEOM d (12 / inject_Z ppy)) first
  <= Nat.iter n (fun d => addMonthsEOM d (12 / inject_Z ppy)) first /\
  ((j < n)%nat ->
   Nat.iter j (fun d => addMonthsEOM d (12 / inject_Z ppy)) first
   < Nat.iter n (fun d => addMonthsEOM d (12 / inject_Z ppy)) first).
Proof.
  intros Hppy Hjn. induction Hjn as [|n Hjn IH]; [split; lia|].
  rewrite Nat.iter_succ.
  pose proof (addMonthsEOM_fwd ppy Hppy
                (Nat.iter n (fun d => addMonthsEOM d (12 / inject_Z ppy)) first))
    as Hfw.
  cbv zeta in Hfw. cbv beta.
  destruct IH as [IH _]. split; [lia|intros _; lia].
Qed.

Lemma loop_never {S R : Type} (body : S -> S + R) (I : S -> Prop) :
  (forall s, I s -> exists s', body s = inl s' /\ I s') ->
  forall fuel s, I s -> loop fuel body s = None.
Proof.
  intros Hstep. induction fuel as [|n IH]; intros s Hs; [reflexivity|].
  cbn [loop]. destruct (Hstep s Hs) as (s' & -> & Hs'). apply IH, Hs'.
Qed.

Lemma StronglySorted_snoc (l : list Z) (y : Z) :
  StronglySorted Z.lt l -> Forall (fun x => x < y) l ->
  StronglySorted Z.lt (l ++ [y]).
Proof.
  induction 1 as [|x l Hs IH Hx]; intros Hall; cbn [app].
  - constructor; constructor.
  - inversion Hall as [|? ? Hxy Hl]; subst. constructor; [apply IH, Hl|].
    apply Forall_app. split; [exact Hx|]. constructor; [exact Hxy|constructor].
Qed.

End MoreDateFacts.

Module NssFacts.

Lemma fold_left_sum {A : Type} (g : A -> R) (l : list A) (a : R) :
  fold_left (fun s x => (s + g x)%R) l a
  = (a + fold_left (fun s x => (s + g x)%R) l 0)%R.
Proof.
  revert a. induction l as [|x l IH]; intros a; cbn [fold_left].
  - Lra.lra.
  - rewrite IH, (IH (0 + g x)%R). Lra.lra.
Qed.

Lemma fold_left_sum_nonneg {A : Type} (g : A -> R) (l : list A) :
  (forall x, In x l -> (0 <= g x)%R) ->
  (0 <= fold_left (fun s x => (s + g x)%R) l 0)%R.
Proof.
  induction l as [|x l IH]; intros H; cbn [fold_left]; [Lra.lra|].
  rewrite fold_left_sum.
  pose proof (H x (or_introl eq_refl)).
  pose proof (IH (fun y Hy => H y (or_intror Hy))). Lra.lra.
Qed.

Lemma fold_left_sum_zero {A : Type} (g : A -> R) (l : list A) :
  (forall x, In x l -> (0 <= g x)%R) ->
  fold_left (fun s x => (s + g x)%R) l 0%R = 0%R ->
  forall x, In x l -> g x = 0%R.
Proof.
  induction l as [|y l IH]; intros Hpos Hz x Hin; [destruct Hin|].
  cbn [fold_left] in Hz. rewrite fold_left_sum in Hz.
  pose proof (Hpos y (or_introl eq_refl)) as Hy.
  pose proof (fold_left_sum_nonneg g l (fun z Hz' => Hpos z (or_intror Hz')))
    as Hl.
  destruct Hin as [->|Hin]; [Lra.lra|].
  apply IH; [intros z Hz'; apply Hpos; right; exact Hz'|Lra.lra|exact Hin].
Qed.

Lemma priceBonds_acc params bonds acc s :
  fold_left
    (fun (st : list BondsReport.PerBond * R) bond =>
       let (perBond, sse) := st in
       let nssPrice :=
         fold_left
           (fun price cf =>
              let y := nssYield (Q2R (tYears cf)) params in
              let df := exp (- y * Q2R (tYears cf)) in
              (price + Q2R (amount cf) * df)%R)
           (cashflows bond) 0%R in
       let error := (Q2R (dirtyPrice bond) - nssPrice)%R in
       let errorSquared := (error * error)%R in
       (perBond ++ [{| BondsReport.cusip := cusip bond;
                       BondsReport.dirtyPrice := dirtyPrice bond;
                       BondsReport.nssPrice := nssPrice;
                       BondsReport.error := error;
                       BondsReport.errorSquared := errorSquared |}],
        (sse + errorSquared)%R))
    bonds (acc, s)
  = (acc ++ fst (priceBonds params bonds),
     fold_left (fun t bond => (t + bondSquaredErrorFromNss params bond)%R)
       bonds s).
Proof.
  unfold priceBonds. revert acc s.
  induction bonds as [|b bonds IH]; intros acc s; cbn [fold_left].
  - cbn [fst]. rewrite app_nil_r. reflexivity.
  - rewrite IH. cbn [app]. rewrite (IH [_] _). cbn [fst].
    rewrite <- app_assoc. reflexivity.
Qed.

Lemma priceBonds_total params bonds :
  snd (priceBonds params bonds)
  = fold_left (fun t bond => (t + bondSquaredErrorFromNss params bond)%R)
      bonds 0%R.
Proof.
  unfold priceBonds at 1. rewrite priceBonds_acc. reflexivity.
Qed.

Lemma priceBonds_rows params bonds :
  map BondsReport.cusip (fst (priceBonds params bonds)) = map cusip bonds /\
  map BondsReport.dirtyPrice (fst (priceBonds params bonds))
    = map dirtyPrice bonds /\
  Forall (fun row =>
            BondsReport.error row
            = (Q2R (BondsReport.dirtyPrice row) - BondsReport.nssPrice row)%R /\
            BondsReport.errorSquared row
            = (BondsReport.error row * BondsReport.error row)%R)
         (fst (priceBonds params bonds)).
Proof.
  induction bonds as [|b bonds IH].
  - cbn. repeat split; constructor.
  - unfold priceBonds. cbn [fold_left]. rewrite priceBonds_acc. cbn [fst].
    destruct IH as (H1 & H2 & H3).
    cbn [app map BondsReport.cusip BondsReport.dirtyPrice].
    rewrite H1, H2. repeat split.
    constructor; [|exact H3]. cbn. split; reflexivity.
Qed.


Lemma calibrate_nonempty fuel env bonds :
  buildCouponBonds fuel env = Some bonds -> bonds <> [] ->
  exists c,
    calibrateNssFromDb fuel env = Some c /\ optimizerCalls c = 1%nat /\
    forall nelderMead,
      runCalibration nelderMead c
      = inr (calibratedFrom bonds (nelderMead (nssLoss bonds) theta0)).
Proof.
  intros H Hne. unfold calibrateNssFromDb. rewrite H. cbn [bind].
  destruct bonds as [|b bonds]; [congruence|]. cbn [List.length Nat.eqb].
  eexists. split; [reflexivity|]. split; [reflexivity|].
  intros nm. reflexivity.
Qed.

Lemma calibrate_empty fuel env :
  buildCouponBonds fuel env = Some [] ->
  calibrateNssFromDb fuel env
  = Some (Done (inl "No bonds with usable coupon schedules were found for NSS fit."%string)).
Proof.
  intros H. unfold calibrateNssFromDb. rewrite H. reflexivity.
Qed.

Lemma paramsOf_calibratedFrom bonds opt :
  paramsOf (parameters (calibratedFrom bonds opt)) = paramsAt (opt_x opt).
Proof. reflexivity. Qed.

Lemma nssLoss_paramsAt bonds theta :
  nssLoss bonds theta
  = fold_left (fun s b => (s + bondSquaredErrorFromNss (paramsAt theta) b)%R)
      bonds 0%R.
Proof. reflexivity. Qed.

Lemma squared_error_nonneg params b :
  (0 <= bondSquaredErrorFromNss params b)%R.
Proof. unfold bondSquaredErrorFromNss. cbv zeta. apply Rle_0_sqr. Qed.

Lemma nssLoss_nonneg bonds theta : (0 <= nssLoss bonds theta)%R.
Proof.
  rewrite nssLoss_paramsAt. apply fold_left_sum_nonneg.
  intros b _. apply squared_error_nonneg.
Qed.

Lemma Q2R_faceValue : Q2R faceValue = 100%R.
Proof. unfold Q2R, faceValue. cbn. Lra.lra. Qed.

Lemma presentValue_nonneg params (cfs : list Cashflow) :
  Forall (fun cf => (0 < amount cf)%Q) cfs ->
  (0 <= fold_left
          (fun s cf =>
             (s + Q2R (amount cf)
                  * exp (- nssYield (Q2R (tYears cf)) params * Q2R (tYears cf)))%R)
          cfs 0)%R /\
  (cfs <> [] ->
   (0 < fold_left
          (fun s cf =>
             (s + Q2R (amount cf)
                  * exp (- nssYield (Q2R (tYears cf)) params * Q2R (tYears cf)))%R)
          cfs 0)%R).
Proof.
  intros Hall.
  assert (Hterm : forall cf, In cf cfs ->
            (0 < Q2R (amount cf)
                 * exp (- nssYield (Q2R (tYears cf)) params * Q2R (tYears cf)))%R).
  { intros cf Hin. rewrite Forall_forall in Hall.
    apply Rmult_lt_0_compat; [|apply exp_pos].
    replace 0%R with (Q2R 0) by (unfold Q2R; cbn; Lra.lra).
    apply Qreals.Qlt_Rlt, Hall, Hin. }
  split.
  - apply (fold_left_sum_nonneg
             (fun cf => (Q2R (amount cf)
                         * exp (- nssYield (Q2R (tYears cf)) params
                                * Q2R (tYears cf)))%R)).
    intros cf Hin. apply Rlt_le, Hterm, Hin.
  - intros Hne. destruct cfs as [|cf cfs]; [congruence|].
    cbn [fold_left]. rewrite fold_left_sum.
    pose proof (Hterm cf (or_introl eq_refl)).
    pose proof (fold_left_sum_nonneg
                  (fun cf => (Q2R (amount cf)
                              * exp (- nssYield (Q2R (tYears cf)) params
                                     * Q2R (tYears cf)))%R) cfs
                  (fun x Hx => Rlt_le _ _ (Hterm x (or_intror Hx)))).
    Lra.lra.
Qed.

End NssFacts.


(** * Invalid Date and the backward walks *)

Module ObjFacts.
Import ES Cal ESFacts DateFacts LoopFacts WalkFacts BusinessDayFacts BracketFacts.
Import MoreDateFacts.

(** A loop whose states and results are the images of those of another
    loop runs as the other does. *)
Lemma loop_map {S S' R R' : Type} (inS : S -> S') (inR : R -> R')
    (body : S -> S + R) (body' : S' -> S' + R') :
  (forall s, body' (inS s)
             = match body s with
               | inl s1 => inl (inS s1)
               | inr r => inr (inR r)
               end) ->
  forall fuel s, loop fuel body' (inS s) = option_map inR (loop fuel body s).
Proof.
  intros H. induction fuel as [|n IH]; intros s; [reflexivity|].
  cbn [loop]. rewrite H. destruct (body s); [apply IH|reflexivity].
Qed.

Lemma find_map {A B : Type} (g : A -> B) (test : B -> bool) (l : list A) :
  find test (map g l) = option_map g (find (fun a => test (g a)) l).
Proof.
  induction l as [|a l IH]; [reflexivity|]. cbn [map find].
  destruct (test (g a)); [reflexivity|exact IH].
Qed.

(** ** On valid dates *)

Lemma firstCouponFallback_valid fuel m months :
  Obj.firstCouponFallback fuel (Some m) months
  = option_map Some (firstCouponFallback fuel m months).
Proof.
  unfold Obj.firstCouponFallback, firstCouponFallback.
  apply (loop_map Some Some). intros d. cbv zeta.
  cbn [Obj.addMonthsEOM Obj.le]. destruct (orb _ _); reflexivity.
Qed.

Lemma couponBracket_valid fuel m s months :
  Obj.couponBracket fuel (Some m) (Some s) months
  = option_map (fun b : Date * Date => (Some (fst b), Some (snd b)))
      (couponBracket fuel m s months).
Proof.
  unfold Obj.couponBracket, couponBracket.
  rewrite (loop_map Some
             (fun cp : Date * Date => (Some (fst cp), Some (snd cp)))
             (fun current =>
                let previous := addMonthsEOM current (- months)%Q in
                if (previous <=? s) || (previous <=? newDate 1970 0 1)
                then inr (current, previous)
                else inl previous)).
  - destruct (loop _ _ m) as [[c p]|]; [|reflexivity].
    cbn [option_map bind fst snd Obj.le Obj.addMonthsEOM].
    destruct (p <=? s); reflexivity.
  - intros d. cbv zeta. cbn [Obj.addMonthsEOM Obj.le].
    destruct (orb _ _); reflexivity.
Qed.

Lemma couponLoop_valid fuel curve m coupon months first :
  Obj.couponLoop fuel curve (Some m) coupon months (Some first)
  = couponLoop fuel curve m coupon months first.
Proof.
  unfold Obj.couponLoop, couponLoop.
  set (inS := fun st : Date * list Cashflow => (Some (fst st), snd st)).
  change (Some first, @nil Cashflow) with (inS (first, [])).
  rewrite (loop_map inS (fun cfs : list Cashflow => cfs)
             (fun st : Date * list Cashflow =>
                let (cfDate, cashflows) := st in
                if cfDate <=? m then
                  let cashflows' :=
                    if curve <? cfDate then
                      let t := (daysBetween curve cfDate / DAYS_IN_YEAR)%Q in
                      let amt :=
                        if getTime cfDate =? getTime m
                        then (coupon + faceValue)%Q
                        else coupon in
                      cashflows ++ [{| date := cfDate; tYears := t; amount := amt |}]
                    else cashflows in
                  inl (addMonthsEOM cfDate months, cashflows')
                else inr cashflows)).
  - destruct (loop _ _ (first, [])); reflexivity.
  - intros [d acc]. subst inS. cbv zeta.
    cbn [fst snd Obj.le Obj.lt Obj.sameTime Obj.addMonthsEOM].
    destruct (d <=? m); [|reflexivity].
    destruct (curve <? d); reflexivity.
Qed.

Lemma buildCashflowsForSecurity_valid fuel p :
  Obj.buildCashflowsForSecurity fuel (validParams p)
  = buildCashflowsForSecurity fuel p.
Proof.
  unfold Obj.buildCashflowsForSecurity, buildCashflowsForSecurity, validParams.
  cbn [Obj.firstInterestPaymentDate Obj.datedDate Obj.maturityDate
       Obj.curveDate Obj.frequencyPerYear Obj.interestRatePercent].
  destruct (firstInterestPaymentDate p) as [d|]; cbn [option_map bind].
  { apply couponLoop_valid. }
  destruct (datedDate p) as [d|]; cbn [option_map bind Obj.addMonthsEOM].
  { apply couponLoop_valid. }
  rewrite firstCouponFallback_valid.
  destruct (firstCouponFallback _ _ _) as [first|]; cbn [option_map bind];
    [apply couponLoop_valid|reflexivity].
Qed.

Lemma calculateTreasuryAnalytics_valid fuel env cusip today :
  Obj.calculateTreasuryAnalytics fuel (validEnv env) cusip today
  = option_map validResult (calculateTreasuryAnalytics fuel env cusip today).
Proof.
  unfold Obj.calculateTreasuryAnalytics, calculateTreasuryAnalytics, validEnv.
  cbn [Obj.prices Obj.securities].
  destruct (find _ (prices env)) as [priceRow|]; [|reflexivity].
  rewrite (find_map validRow (fun s => String.eqb (Obj.s_cusip s) cusip)).
  cbn [validRow Obj.s_cusip].
  destruct (find _ (securities env)) as [secRow|]; [|reflexivity].
  cbn [option_map validRow Obj.MaturityDate Obj.InterestRate Obj.SecurityType
       Obj.InterestPaymentFrequency Obj.SecurityTerm Obj.IssueDate].
  destruct (nextBusinessDay fuel today) as [settlement|]; [|reflexivity].
  cbn [bind].
  destruct (isBill _ || _ || _); [reflexivity|].
  rewrite couponBracket_valid.
  destruct (couponBracket _ _ _ _) as [[last next]|]; reflexivity.
Qed.

(** ** On Invalid Date *)

Lemma firstCouponFallback_invalid fuel months :
  Obj.firstCouponFallback fuel None months = None.
Proof.
  unfold Obj.firstCouponFallback.
  apply (loop_never _ (fun d => d = None)); [|reflexivity].
  intros d ->. exists None. split; reflexivity.
Qed.

Lemma couponBracket_invalid fuel settlement months :
  Obj.couponBracket fuel None settlement months = None.
Proof.
  unfold Obj.couponBracket.
  match goal with
  | |- bind ?walk _ = _ => assert (E : walk = None)
  end.
  { apply (loop_never _ (fun d => d = None)); [|reflexivity].
    intros d ->. exists None. split; reflexivity. }
  rewrite E. reflexivity.
Qed.

(** The forward loop is left at once when the first coupon date or the
    maturity is Invalid Date. *)
Lemma couponLoop_invalid fuel curve maturity coupon months first :
  first = None \/ maturity = None -> (1 <= fuel)%nat ->
  Obj.couponLoop fuel curve maturity coupon months first = Some [].
Proof.
  intros H Hf. destruct fuel as [|n]; [lia|].
  unfold Obj.couponLoop. cbn [loop].
  assert (E : Obj.le first maturity = false).
  { destruct H as [-> | ->]; [reflexivity|]. destruct first; reflexivity. }
  rewrite E. reflexivity.
Qed.

(** ** The walk of the fallback, step by step *)

Lemma periodsBefore_succ months m n :
  periodsBefore months m (S n)
  = addMonthsEOM (periodsBefore months m n) (- months)%Q.
Proof. reflexivity. Qed.

Lemma firstCouponFallback_walk fuel m months first :
  firstCouponFallback fuel m months = Some first ->
  exists n,
    first = periodsBefore months m n /\
    (forall j, (j < n)%nat ->
       CURVE_DATE < periodsBefore months m (S j) /\
       newDate 1970 0 1 < periodsBefore months m (S j)) /\
    (periodsBefore months m (S n) <= CURVE_DATE \/
     periodsBefore months m (S n) <= newDate 1970 0 1).
Proof.
  intros H. unfold firstCouponFallback in H.
  apply (loop_invariant _
           (fun d => exists n,
              d = periodsBefore months m n /\
              forall j, (j < n)%nat ->
                CURVE_DATE < periodsBefore months m (S j) /\
                newDate 1970 0 1 < periodsBefore months m (S j))) in H.
  - destruct H as (d & (n & -> & Hn) & Hexit). cbv zeta in Hexit.
    rewrite <- periodsBefore_succ in Hexit.
    destruct (Z.leb_spec (periodsBefore months m (S n)) CURVE_DATE);
      cbn [orb] in Hexit.
    + injection Hexit as <-. exists n. auto.
    + destruct (Z.leb_spec (periodsBefore months m (S n)) (newDate 1970 0 1));
        [|discriminate].
      injection Hexit as <-. exists n. auto.
  - intros d d' (n & -> & Hn). cbv zeta. rewrite <- periodsBefore_succ.
    destruct (Z.leb_spec (periodsBefore months m (S n)) CURVE_DATE);
      cbn [orb]; [intros [=]|].
    destruct (Z.leb_spec (periodsBefore months m (S n)) (newDate 1970 0 1));
      [intros [=]|].
    intros [= <-]. exists (S n). split; [reflexivity|].
    intros j Hj. destruct (Nat.eq_dec j n) as [->|Hne]; [split; assumption|].
    apply Hn. lia.
  - exists 0%nat. split; [reflexivity|]. intros j Hj. lia.
Qed.

End ObjFacts.

(** * The backward walks and the dates they are given *)

Module WalkClaims.
Import ES Cal ESFacts DateFacts LoopFacts WalkFacts BusinessDayFacts BracketFacts.
Import MoreDateFacts ObjFacts Samples MoreSamples Claims.

Lemma CURVE_DATE_after_epoch : newDate 1970 0 1 <= CURVE_DATE.
Proof. vm_compute. congruence. Qed.

Lemma invalid_stays_invalid months n :
  Nat.iter n (fun d => Obj.addMonthsEOM d months) None = None.
Proof.
  induction n as [|n IH]; [reflexivity|].
  rewrite Nat.iter_succ, IH. reflexivity.
Qed.



(** The walk of that sample: eight steps back land after the curve date,
    the ninth, 2025-07-15, does not; the first coupon date is 2026-01-15. *)
Lemma unanchored2030_first_coupon :
  periodsBefore (12 / inject_Z 2) (ymd 2030 1 15) 8 = ymd 2026 1 15 /\
  periodsBefore (12 / inject_Z 2) (ymd 2030 1 15) 9 = ymd 2025 7 15 /\
  Obj.firstCouponFallback 100 (Some (ymd 2030 1 15)) (12 / inject_Z 2)
  = Some (Some (ymd 2026 1 15)).
Proof. repeat split; vm_compute; reflexivity. Qed.

(** C10.  The backward walks on a maturity that is Invalid Date, which is
    what [parseISODate] makes of a text that is no date: [addMonthsEOM]
    gives Invalid Date again, both stopping tests are false, and neither
    the fallback for the first coupon date nor the bracket search ever
    returns, whatever the bound on the loop entries.  So
    [buildCashflowsForSecurity] without anchor dates and
    [calculateTreasuryAnalytics] on a coupon security never return on such
    a row.  On a valid maturity both walks return. *)
Theorem backward_walks_hang_on_invalid_date :
  (forall fuel months, Obj.firstCouponFallback fuel None months = None) /\
  (forall fuel settlement months,
     Obj.couponBracket fuel None settlement months = None) /\
  (forall fuel p,
     Obj.firstInterestPaymentDate p = None -> Obj.datedDate p = None ->
     Obj.maturityDate p = None ->
     Obj.buildCashflowsForSecurity fuel p = None) /\
  (forall fuel env cusip today priceRow secRow,
     find (fun p => String.eqb (p_cusip p) cusip) (Obj.prices env)
       = Some priceRow ->
     find (fun s => String.eqb (Obj.s_cusip s) cusip) (Obj.securities env)
       = Some secRow ->
     isBill (getFrequencyPerYear (Obj.SecurityType secRow)
               (Obj.InterestPaymentFrequency secRow)
               (rateOrZero (Obj.InterestRate secRow))) = false ->
     Obj.MaturityDate secRow = None ->
     Obj.calculateTreasuryAnalytics fuel env cusip today = None) /\
  (forall ppy m settlement fuel,
     ppy = 1 \/ ppy = 2 \/ ppy = 4 ->
     (Z.to_nat (Day m / 28) < fuel)%nat ->
     (exists first,
        Obj.firstCouponFallback fuel (Some m) (12 / inject_Z ppy)
        = Some (Some first)) /\
     (exists last next,
        Obj.couponBracket fuel (Some m) (Some settlement) (12 / inject_Z ppy)
        = Some (Some last, Some next))).
Proof.
  split; [exact firstCouponFallback_invalid|].
  split; [exact couponBracket_invalid|].
  split; [|split].
  - intros fuel p Hfirst Hdated Hm. unfold Obj.buildCashflowsForSecurity.
    rewrite Hfirst, Hdated, Hm, firstCouponFallback_invalid. reflexivity.
  - intros fuel env cusip today priceRow secRow Hp Hs Hb Hm.
    unfold Obj.calculateTreasuryAnalytics. rewrite Hp, Hs, Hm.
    destruct (nextBusinessDay fuel today) as [settlement|]; [|reflexivity].
    cbn [bind]. rewrite Hb. cbn [orb].
    destruct (getFrequencyPerYear_cases (Obj.SecurityType secRow)
                (Obj.InterestPaymentFrequency secRow)
                (rateOrZero (Obj.InterestRate secRow))) as [[Hb' _]|[_ Hq]];
      cbv zeta in *; [congruence|].
    assert (Hnz : (frequency (getFrequencyPerYear (Obj.SecurityType secRow)
                     (Obj.InterestPaymentFrequency secRow)
                     (rateOrZero (Obj.InterestRate secRow))) =? 0) = false)
      by (apply Z.eqb_neq; lia).
    rewrite Hnz. cbn [orb].
    assert (Hrate : Qeq_bool (rateOrZero (Obj.InterestRate secRow) / 100) 0
                    = false).
    { destruct (Qeq_bool (rateOrZero (Obj.InterestRate secRow) / 100) 0) eqn:E;
        [|reflexivity].
      exfalso. apply Qeq_bool_eq in E.
      assert (Hz : (rateOrZero (Obj.InterestRate secRow) == 0)%Q).
      { setoid_replace (rateOrZero (Obj.InterestRate secRow))
          with ((rateOrZero (Obj.InterestRate secRow) / 100) * 100)%Q
          by (field; discriminate).
        rewrite E. reflexivity. }
      apply Qeq_eq_bool in Hz.
      unfold getFrequencyPerYear in Hb. rewrite Hz in Hb.
      rewrite !orb_true_r in Hb. discriminate. }
    rewrite Hrate, couponBracket_invalid. reflexivity.
  - intros ppy m settlement fuel Hppy Hf. split.
    + destruct (firstCouponFallback_returns _ Hppy fuel m Hf) as (first & E & _).
      exists first. rewrite firstCouponFallback_valid.
      unfold firstCouponFallback in *. rewrite E. reflexivity.
    + destruct (couponBracket_returns _ Hppy fuel m settlement Hf)
        as [[last next] E].
      exists last, next. rewrite couponBracket_valid.
      unfold couponBracket in *. rewrite E. reflexivity.
Qed.

Lemma backward_walks_hang_on_invalid_date_witness :
  (forall fuel,
     Obj.buildCashflowsForSecurity fuel unparsedParams = None) /\
  (forall fuel today,
     Obj.calculateTreasuryAnalytics fuel unparsedEnv "NOTE20XX" today = None).
Proof.
  destruct backward_walks_hang_on_invalid_date as (_ & _ & Hb & Ha & _).
  split.
  - intros fuel. apply Hb; reflexivity.
  - intros fuel today.
    apply (Ha fuel unparsedEnv "NOTE20XX"%string today unparsedPrice unparsedRow);
      reflexivity.
Defined.

End WalkClaims.
Module Extras.
Import ES Cal ESFacts DateFacts LoopFacts WalkFacts BusinessDayFacts BracketFacts.
Import MoreDateFacts NssFacts ObjFacts Samples MoreSamples Claims.

(** ** nextBusinessDay *)

(** X1.  [nextBusinessDay] adds three days to a Friday, two to a Saturday
    and one to any other day, time of day unchanged; the result is a day
    from Monday to Friday. *)
Theorem nextBusinessDay_skips_weekend d fuel :
  (3 <= fuel)%nat ->
  let skip := if getDay d =? 5 then 3 else if getDay d =? 6 then 2 else 1 in
  nextBusinessDay fuel d = Some (d + skip * msPerDay) /\
  1 <= getDay (d + skip * msPerDay) <= 5.
Proof.
  intros Hf skip. subst skip. unfold nextBusinessDay. rewrite setDate_succ.
  destruct fuel as [|[|[|n]]]; try lia. cbn [loop].
  pose proof (getDay_range d) as Hr.
  pose proof (getDay_succ d) as H1.
  pose proof (getDay_succ (d + msPerDay)) as H2.
  pose proof (getDay_succ (d + msPerDay + msPerDay)) as H3.
  destruct (Z.eqb_spec (getDay d) 5) as [E5|N5].
  - replace (d + 3 * msPerDay) with (d + msPerDay + msPerDay + msPerDay) by lia.
    rewrite E5 in H1. change ((5 + 1) mod 7) with 6 in H1.
    rewrite H1 in H2. change ((6 + 1) mod 7) with 0 in H2.
    rewrite H2 in H3. change ((0 + 1) mod 7) with 1 in H3.
    rewrite H1. cbn [Z.eqb Pos.eqb orb]. rewrite ?setDate_succ, H2.
    cbn [Z.eqb Pos.eqb orb]. rewrite ?setDate_succ, H3.
    cbn [Z.eqb Pos.eqb orb]. split; [reflexivity|lia].
  - destruct (Z.eqb_spec (getDay d) 6) as [E6|N6].
    + replace (d + 2 * msPerDay) with (d + msPerDay + msPerDay) by lia.
      rewrite E6 in H1. change ((6 + 1) mod 7) with 0 in H1.
      rewrite H1 in H2. change ((0 + 1) mod 7) with 1 in H2.
      rewrite H1. cbn [Z.eqb Pos.eqb orb]. rewrite ?setDate_succ, H2.
      cbn [Z.eqb Pos.eqb orb]. split; [reflexivity|lia].
    + replace (d + 1 * msPerDay) with (d + msPerDay) by lia.
      assert (Hw : 1 <= getDay (d + msPerDay) <= 5)
        by (rewrite H1; Z.to_euclidean_division_equations; lia).
      destruct (Z.eqb_spec (getDay (d + msPerDay)) 0); [lia|].
      destruct (Z.eqb_spec (getDay (d + msPerDay)) 6); [lia|].
      cbn [orb]. split; [reflexivity|exact Hw].
Qed.

Lemma nextBusinessDay_skips_weekend_witness :
  (3 <= 3)%nat /\
  let d := at_time 2025 11 21 10 in
  let skip := if getDay d =? 5 then 3 else if getDay d =? 6 then 2 else 1 in
  nextBusinessDay 3 d = Some (d + skip * msPerDay) /\
  1 <= getDay (d + skip * msPerDay) <= 5.
Proof.
  split; [lia|].
  apply (nextBusinessDay_skips_weekend (at_time 2025 11 21 10) 3). lia.
Defined.

(** ** addMonthsEOM *)

(** X2.  For a whole number [k] of months, a step forward ([k >= 1]) gives
    a strictly later instant and a step back by two months or more a
    strictly earlier one; the time of day is kept. *)
Theorem addMonthsEOM_moves d k :
  (1 <= k -> d < addMonthsEOM d (inject_Z k)) /\
  (2 <= k -> addMonthsEOM d (inject_Z (- k)) < d) /\
  TimeWithinDay (addMonthsEOM d (inject_Z k)) = TimeWithinDay d.
Proof.
  rewrite !addMonthsEOM_whole.
  pose proof (TimeWithinDay_bounds d) as Ht.
  pose proof (MakeDate_Day_TimeWithinDay d) as Hd.
  repeat split.
  - intros Hk. rewrite <- Hd at 1. apply MakeDate_lt, stepDay_forward, Hk.
  - intros Hk. rewrite <- Hd at 3. apply MakeDate_lt, stepDay_back, Hk.
  - apply TimeWithinDay_MakeDate, Ht.
Qed.

Lemma addMonthsEOM_moves_witness :
  let d := at_time 2025 8 31 10 in
  (1 <= 6 -> d < addMonthsEOM d (inject_Z 6)) /\
  (2 <= 6 -> addMonthsEOM d (inject_Z (- 6)) < d) /\
  TimeWithinDay (addMonthsEOM d (inject_Z 6)) = TimeWithinDay d.
Proof. apply (addMonthsEOM_moves (at_time 2025 8 31 10) 6). Defined.

(** X3.  When the source day of month exists in the target month, the
    result lies in the target month; its day of month is the source day,
    or, for a source date that the code takes as an end of month, the
    length the code computes for the target month. *)
Theorem addMonthsEOM_lands_in_target d k :
  let M := 12 * getFullYear d + getMonth d in
  let r := addMonthsEOM d (inject_Z k) in
  getDate d <= monthLength (M + k) ->
  12 * getFullYear r + getMonth r = M + k /\
  getDate r =
    if getDate d =? daysInMonth (getFullYear d) (getMonth d)
    then daysInMonth ((M + k) / 12) ((M + k) mod 12)
    else getDate d.
Proof.
  intros M r Hfit. subst r M. rewrite !monthIndex_of_date in *.
  rewrite addMonthsEOM_whole. unfold getDate, getFullYear, getMonth in *.
  rewrite Day_MakeDate by apply TimeWithinDay_bounds.
  fold (monthIndex (Day d)) in *.
  rewrite codeLength_monthIndex.
  destruct (stepDay_parts (Day d) k) as [HI HD]. cbv zeta in HI, HD.
  pose proof (DateFromDay_bounds (Day d)) as Hdt.
  pose proof (monthLength_bounds (monthIndex (Day d))) as HL.
  destruct (monthIndex_nominal (monthIndex (Day d) + k) (DateFromDay (Day d))
              ltac:(lia)) as [[_ HN]|[Hgt _]]; [|lia].
  change (12 * YearFromDay (stepDay (Day d) k) + MonthFromDay (stepDay (Day d) k))
    with (monthIndex (stepDay (Day d) k)).
  rewrite HI, HD, HN. split; [reflexivity|].
  destruct (_ =? _); [reflexivity|].
  destruct (monthIndex_spec (firstOfMonth (monthIndex (Day d) + k)
                             + DateFromDay (Day d) - 1)) as [_ ->].
  rewrite HN. lia.
Qed.

Lemma addMonthsEOM_lands_in_target_witness :
  let d := ymd 2023 2 28 in
  let M := 12 * getFullYear d + getMonth d in
  let r := addMonthsEOM d (inject_Z 12) in
  getDate d <= monthLength (M + 12) /\
  12 * getFullYear r + getMonth r = M + 12 /\
  getDate r =
    if getDate d =? daysInMonth (getFullYear d) (getMonth d)
    then daysInMonth ((M + 12) / 12) ((M + 12) mod 12)
    else getDate d.
Proof.
  split; [vm_compute; congruence|].
  apply (addMonthsEOM_lands_in_target (ymd 2023 2 28) 12).
  vm_compute; congruence.
Defined.

(** X4.  When the source day of month does not exist in the target month,
    the result lies in the month after the target: on the day left over,
    or, for a source date taken as an end of month, on the last day the
    code computes for that following month. *)
Theorem addMonthsEOM_overflows_into_next d k :
  let M := 12 * getFullYear d + getMonth d in
  let r := addMonthsEOM d (inject_Z k) in
  monthLength (M + k) < getDate d ->
  12 * getFullYear r + getMonth r = M + k + 1 /\
  getDate r =
    if getDate d =? daysInMonth (getFullYear d) (getMonth d)
    then daysInMonth ((M + k + 1) / 12) ((M + k + 1) mod 12)
    else getDate d - monthLength (M + k).
Proof.
  intros M r Hover. subst r M. rewrite !monthIndex_of_date in *.
  rewrite addMonthsEOM_whole. unfold getDate, getFullYear, getMonth in *.
  rewrite Day_MakeDate by apply TimeWithinDay_bounds.
  fold (monthIndex (Day d)) in *.
  rewrite codeLength_monthIndex.
  destruct (stepDay_parts (Day d) k) as [HI HD]. cbv zeta in HI, HD.
  pose proof (DateFromDay_bounds (Day d)) as Hdt.
  pose proof (monthLength_bounds (monthIndex (Day d))) as HL.
  destruct (monthIndex_nominal (monthIndex (Day d) + k) (DateFromDay (Day d))
              ltac:(lia)) as [[Hle _]|[_ HN]]; [lia|].
  change (12 * YearFromDay (stepDay (Day d) k) + MonthFromDay (stepDay (Day d) k))
    with (monthIndex (stepDay (Day d) k)).
  rewrite HI, HD, HN. split; [reflexivity|].
  destruct (_ =? _); [reflexivity|].
  destruct (monthIndex_spec (firstOfMonth (monthIndex (Day d) + k)
                             + DateFromDay (Day d) - 1)) as [_ ->].
  rewrite HN. pose proof (firstOfMonth_succ (monthIndex (Day d) + k)). lia.
Qed.

Lemma addMonthsEOM_overflows_into_next_witness :
  let d := ymd 2025 8 30 in
  let M := 12 * getFullYear d + getMonth d in
  let r := addMonthsEOM d (inject_Z (- 6)) in
  monthLength (M + - 6) < getDate d /\
  12 * getFullYear r + getMonth r = M + - 6 + 1 /\
  getDate r =
    if getDate d =? daysInMonth (getFullYear d) (getMonth d)
    then daysInMonth ((M + - 6 + 1) / 12) ((M + - 6 + 1) mod 12)
    else getDate d - monthLength (M + - 6).
Proof.
  split; [vm_compute; reflexivity|].
  apply (addMonthsEOM_overflows_into_next (ymd 2025 8 30) (- 6)).
  vm_compute; reflexivity.
Defined.


(** ** daysInMonth, daysBetween *)

(** X5.  For a month number 0..11, [daysInMonth] is 30 for April, June,
    September and November, 28 or 29 for February and 31 otherwise;
    February has 29 days exactly in the Gregorian leap years, the year
    being read as 1900 + year when it is one of 0..99. *)
Theorem daysInMonth_table y m :
  0 <= m <= 11 ->
  let Y := if (0 <=? y) && (y <=? 99) then 1900 + y else y in
  let leap :=
    if ((Y mod 4 =? 0) && negb (Y mod 100 =? 0)) || (Y mod 400 =? 0)
    then 1 else 0 in
  daysInMonth y m =
    if m =? 1 then 28 + leap
    else if (m =? 3) || (m =? 5) || (m =? 8) || (m =? 10) then 30
    else 31.
Proof.
  intros Hm Y leap.
  rewrite daysInMonth_monthLength.
  change (fixYear y) with Y.
  rewrite monthLength_in_year by exact Hm.
  assert (HL : InLeapYear Y = leap).
  { subst leap. unfold InLeapYear, DaysInYear.
    destruct (Z.eqb_spec (Y mod 4) 0), (Z.eqb_spec (Y mod 100) 0),
      (Z.eqb_spec (Y mod 400) 0); cbn; try reflexivity;
      exfalso; Z.to_euclidean_division_equations; lia. }
  rewrite HL. unfold lengthInYear.
  each_month Hm; table; cbn [Z.eqb Pos.eqb orb]; lia.
Qed.

Lemma daysInMonth_table_witness :
  0 <= 1 <= 11 /\
  let Y := if (0 <=? 2024) && (2024 <=? 99) then 1900 + 2024 else 2024 in
  let leap :=
    if ((Y mod 4 =? 0) && negb (Y mod 100 =? 0)) || (Y mod 400 =? 0)
    then 1 else 0 in
  daysInMonth 2024 1 =
    if 1 =? 1 then 28 + leap
    else if (1 =? 3) || (1 =? 5) || (1 =? 8) || (1 =? 10) then 30
    else 31.
Proof. split; [lia|]. apply (daysInMonth_table 2024 1). lia. Defined.

(** X6.  [daysBetween] is signed and additive: swapping the arguments
    negates it, going through an intermediate date adds up, and it is
    positive exactly when the second date is later; between two instants
    with the same time of day it is the whole number of calendar days. *)
Theorem daysBetween_algebra (a b c : Date) :
  (daysBetween b a == - daysBetween a b)%Q /\
  (daysBetween a b + daysBetween b c == daysBetween a c)%Q /\
  (a < b <-> (0 < daysBetween a b)%Q) /\
  (TimeWithinDay a = TimeWithinDay b ->
   (daysBetween a b == inject_Z (Day b - Day a))%Q).
Proof.
  unfold daysBetween, getTime.
  change (1000 * 60 * 60 * 24) with msPerDay.
  assert (Hms : ~ (inject_Z msPerDay == 0)%Q) by discriminate.
  repeat split.
  - unfold Qeq, Qdiv, Qopp, Qmult, Qinv, inject_Z; cbn. lia.
  - unfold Qeq, Qdiv, Qplus, Qmult, Qinv, inject_Z; cbn. lia.
  - intros H. unfold Qlt, Qdiv, Qmult, Qinv, inject_Z; cbn. lia.
  - unfold Qlt, Qdiv, Qmult, Qinv, inject_Z; cbn. lia.
  - intros Ht.
    pose proof (MakeDate_Day_TimeWithinDay a) as Ha.
    pose proof (MakeDate_Day_TimeWithinDay b) as Hb.
    unfold MakeDate in Ha, Hb. rewrite Ht in Ha.
    unfold Qeq, Qdiv, Qmult, Qinv, inject_Z; cbn.
    unfold msPerDay in *. lia.
Qed.

Lemma daysBetween_algebra_witness :
  let a := at_time 2025 7 15 10 in
  let b := at_time 2025 11 20 10 in
  let c := ymd 2026 1 15 in
  (daysBetween b a == - daysBetween a b)%Q /\
  (daysBetween a b + daysBetween b c == daysBetween a c)%Q /\
  (a < b <-> (0 < daysBetween a b)%Q) /\
  (TimeWithinDay a = TimeWithinDay b ->
   (daysBetween a b == inject_Z (Day b - Day a))%Q).
Proof.
  apply (daysBetween_algebra (at_time 2025 7 15 10) (at_time 2025 11 20 10)
           (ymd 2026 1 15)).
Defined.

(** ** getFrequencyPerYear *)

(** X7.  The frequency is 0, 1, 2 or 4; a security is a bill exactly when
    its frequency is 0, which is when the type mentions "bill", the
    frequency text mentions "none" or the rate is zero (in any letter
    case); 4 is given only when the text mentions "quarter" and 1 only
    when it mentions "annual" or "year". *)
Theorem getFrequencyPerYear_classes ty fr rate :
  let fq := getFrequencyPerYear ty fr rate in
  let typeLower := toLowerCase ty in
  let freqLower := toLowerCase (match fr with Some s => s | None => "" end) in
  (frequency fq = 0 \/ frequency fq = 1 \/ frequency fq = 2 \/ frequency fq = 4) /\
  (isBill fq = true <-> frequency fq = 0) /\
  isBill fq = (includes typeLower "bill" || includes freqLower "none"
               || Qeq_bool rate 0) /\
  (frequency fq = 4 -> includes freqLower "quarter" = true) /\
  (frequency fq = 1 ->
   includes freqLower "annual" || includes freqLower "year" = true).
Proof.
  unfold getFrequencyPerYear. cbv zeta.
  destruct (includes (toLowerCase ty) "bill" || _ || Qeq_bool rate 0);
    cbn [isBill frequency].
  { repeat split; auto; discriminate. }
  destruct (includes _ "semi"); cbn [isBill frequency].
  { repeat split; auto; discriminate. }
  destruct (includes _ "quarter"); cbn [isBill frequency].
  { repeat split; auto; discriminate. }
  destruct (includes _ "annual" || includes _ "year"); cbn [isBill frequency].
  { repeat split; auto; discriminate. }
  destruct (_ || _); cbn [isBill frequency]; repeat split; auto; discriminate.
Qed.

Lemma getFrequencyPerYear_classes_witness :
  let fq := getFrequencyPerYear "Note" (Some "Quarterly"%string) 4 in
  let typeLower := toLowerCase "Note" in
  let freqLower := toLowerCase "Quarterly" in
  (frequency fq = 0 \/ frequency fq = 1 \/ frequency fq = 2 \/ frequency fq = 4) /\
  (isBill fq = true <-> frequency fq = 0) /\
  isBill fq = (includes typeLower "bill" || includes freqLower "none"
               || Qeq_bool 4 0) /\
  (frequency fq = 4 -> includes freqLower "quarter" = true) /\
  (frequency fq = 1 ->
   includes freqLower "annual" || includes freqLower "year" = true).
Proof. apply (getFrequencyPerYear_classes "Note" (Some "Quarterly"%string) 4). Defined.

(** ** toISODate *)

(** X8.  The date text has ten characters; for the years 0..9999 its
    fifth and eighth characters are hyphens. *)
Theorem toISODate_shape d :
  String.length (toISODate d) = 10%nat /\
  (0 <= getFullYear d <= 9999 ->
   String.get 4 (toISODate d) = Some "-"%char /\
   String.get 7 (toISODate d) = Some "-"%char).
Proof.
  unfold toISODate.
  destruct (Z.leb_spec 0 (getFullYear d)); destruct (Z.leb_spec (getFullYear d) 9999);
    cbn [andb digits String.length String.get]; split; try reflexivity;
    intros; try lia; split; reflexivity.
Qed.

Lemma toISODate_shape_witness :
  String.length (toISODate CURVE_DATE) = 10%nat /\
  (0 <= getFullYear CURVE_DATE <= 9999 ->
   String.get 4 (toISODate CURVE_DATE) = Some "-"%char /\
   String.get 7 (toISODate CURVE_DATE) = Some "-"%char).
Proof. apply (toISODate_shape CURVE_DATE). Defined.


(** ** buildCashflowsForSecurity *)

Lemma couponLoop_returns ppy fuel curve maturity coupon first :
  ppy = 1 \/ ppy = 2 \/ ppy = 4 ->
  (Z.to_nat ((Day maturity - Day first + 28) / 28) < fuel)%nat ->
  exists cfs,
    couponLoop fuel curve maturity coupon (12 / inject_Z ppy) first = Some cfs.
Proof.
  intros Hppy Hf. unfold couponLoop.
  apply (loop_terminates _
           (fun st : Date * list Cashflow =>
              Z.to_nat ((Day maturity - Day (fst st) + 28) / 28)));
    [|exact Hf].
  intros [d acc] [d' acc']. cbn [fst].
  destruct (Z.leb_spec d maturity) as [Hle|]; [|intros [=]].
  intros [= <- _].
  pose proof (addMonthsEOM_fwd_far ppy d Hppy) as Hfar.
  assert (Day d <= Day maturity)
    by (unfold Day, msPerDay; Z.to_euclidean_division_equations; lia).
  Z.to_euclidean_division_equations; lia.
Qed.

(** On valid dates, for one, two or four periods a year, neither the
    search for the first coupon date nor the walk forward to maturity runs
    on. *)
Lemma schedule_returns_on_valid_dates p :
  frequencyPerYear p = 1 \/ frequencyPerYear p = 2 \/ frequencyPerYear p = 4 ->
  exists n, forall fuel, (n <= fuel)%nat ->
    exists cfs, buildCashflowsForSecurity fuel p = Some cfs.
Proof.
  intros Hppy. unfold buildCashflowsForSecurity.
  set (coupon := (faceValue * _ / _)%Q).
  set (months := (12 / inject_Z (frequencyPerYear p))%Q).
  assert (Hfrom : forall first,
            exists n, forall fuel, (n <= fuel)%nat ->
              exists cfs, couponLoop fuel (curveDate p) (maturityDate p)
                            coupon months first = Some cfs).
  { intros first.
    exists (S (Z.to_nat ((Day (maturityDate p) - Day first + 28) / 28))).
    intros fuel Hf. apply couponLoop_returns; [exact Hppy|lia]. }
  destruct (firstInterestPaymentDate p) as [d|].
  { destruct (Hfrom d) as [n Hn]. exists n. intros fuel Hf. cbn [bind].
    apply Hn, Hf. }
  destruct (datedDate p) as [d|].
  { destruct (Hfrom (addMonthsEOM d months)) as [n Hn]. exists n.
    intros fuel Hf. cbn [bind]. apply Hn, Hf. }
  set (n0 := S (Z.to_nat (Day (maturityDate p) / 28))).
  destruct (firstCouponFallback_returns _ Hppy n0 (maturityDate p))
    as (first & Hfirst & _); [subst n0; lia|].
  fold months in Hfirst.
  destruct (Hfrom first) as [n Hn]. exists (Nat.max n0 n).
  intros fuel Hf.
  unfold firstCouponFallback in *.
  rewrite (loop_mono _ n0 fuel _ _ Hfirst) by lia. cbn [bind].
  apply Hn. lia.
Qed.

(** The forward loop on Date objects returns, for every first coupon date
    and maturity, valid or not. *)
Lemma couponLoop_returns_on_objects ppy curve maturity coupon first :
  ppy = 1 \/ ppy = 2 \/ ppy = 4 ->
  exists n, forall fuel, (n <= fuel)%nat ->
    exists cfs,
      Obj.couponLoop fuel curve maturity coupon (12 / inject_Z ppy) first
      = Some cfs.
Proof.
  intros Hppy. destruct first as [f|].
  - destruct maturity as [m|].
    + exists (S (Z.to_nat ((Day m - Day f + 28) / 28))). intros fuel Hf.
      rewrite couponLoop_valid. apply couponLoop_returns; [exact Hppy|lia].
    + exists 1%nat. intros fuel Hf. exists [].
      apply couponLoop_invalid; [right; reflexivity|exact Hf].
  - exists 1%nat. intros fuel Hf. exists [].
    apply couponLoop_invalid; [left; reflexivity|exact Hf].
Qed.

(** X9.  [buildCashflowsForSecurity] on the Date objects it is given, for
    one, two or four periods a year.  With no first-coupon date, no dated
    date and a maturity that is Invalid Date it never returns.  In every
    other case it returns within a bound on the loop entries; and when the
    maturity is Invalid Date but an anchor date is supplied, what it
    returns is the empty schedule. *)
Theorem schedule_returns_unless_invalid p :
  Obj.frequencyPerYear p = 1 \/ Obj.frequencyPerYear p = 2
  \/ Obj.frequencyPerYear p = 4 ->
  let unanchored :=
    Obj.firstInterestPaymentDate p = None /\ Obj.datedDate p = None in
  (unanchored -> Obj.maturityDate p = None ->
   forall fuel, Obj.buildCashflowsForSecurity fuel p = None) /\
  (~ (unanchored /\ Obj.maturityDate p = None) ->
   exists n, forall fuel, (n <= fuel)%nat ->
     exists cfs, Obj.buildCashflowsForSecurity fuel p = Some cfs) /\
  (~ unanchored -> Obj.maturityDate p = None ->
   forall fuel, (1 <= fuel)%nat ->
     Obj.buildCashflowsForSecurity fuel p = Some []).
Proof.
  intros Hppy unanchored. subst unanchored.
  unfold Obj.buildCashflowsForSecurity.
  set (coupon := (faceValue * _ / _)%Q).
  set (months := (12 / inject_Z (Obj.frequencyPerYear p))%Q).
  pose proof (fun first =>
                couponLoop_returns_on_objects (Obj.frequencyPerYear p)
                  (Obj.curveDate p) (Obj.maturityDate p) coupon first Hppy)
    as Hfrom.
  fold months in Hfrom.
  split; [|split].
  - intros [-> ->] -> fuel. rewrite firstCouponFallback_invalid. reflexivity.
  - intros Hnot.
    destruct (Obj.firstInterestPaymentDate p) as [d|].
    { destruct (Hfrom d) as [n Hn]. exists n. intros fuel Hf. cbn [bind].
      apply Hn, Hf. }
    destruct (Obj.datedDate p) as [d|].
    { destruct (Hfrom (Obj.addMonthsEOM d months)) as [n Hn]. exists n.
      intros fuel Hf. cbn [bind]. apply Hn, Hf. }
    destruct (Obj.maturityDate p) as [m|]; [|exfalso; apply Hnot; auto].
    set (n0 := S (Z.to_nat (Day m / 28))).
    destruct (firstCouponFallback_returns _ Hppy n0 m)
      as (first & Hfirst & _); [subst n0; lia|].
    fold months in Hfirst.
    destruct (Hfrom (Some first)) as [n Hn]. exists (Nat.max n0 n).
    intros fuel Hf. rewrite firstCouponFallback_valid.
    unfold firstCouponFallback in *.
    rewrite (loop_mono _ n0 fuel _ _ Hfirst) by lia. cbn [option_map bind].
    apply Hn. lia.
  - intros Hnot -> fuel Hf.
    destruct (Obj.firstInterestPaymentDate p) as [d|].
    { cbn [bind]. apply couponLoop_invalid; [right; reflexivity|exact Hf]. }
    destruct (Obj.datedDate p) as [d|]; [|exfalso; apply Hnot; auto].
    cbn [bind]. apply couponLoop_invalid; [right; reflexivity|exact Hf].
Qed.

Lemma schedule_returns_unless_invalid_witness :
  (forall fuel, Obj.buildCashflowsForSecurity fuel unparsedParams = None) /\
  (exists n, forall fuel, (n <= fuel)%nat ->
     exists cfs, Obj.buildCashflowsForSecurity fuel unanchored2030 = Some cfs).
Proof.
  split.
  - apply (schedule_returns_unless_invalid unparsedParams);
      [right; left; reflexivity|split; reflexivity|reflexivity].
  - apply (schedule_returns_unless_invalid unanchored2030);
      [right; left; reflexivity|].
    intros [_ H]. discriminate H.
Defined.

Lemma couponLoop_ascending ppy fuel curve maturity coupon first cfs :
  ppy = 1 \/ ppy = 2 \/ ppy = 4 ->
  couponLoop fuel curve maturity coupon (12 / inject_Z ppy) first = Some cfs ->
  StronglySorted Z.lt (map date cfs).
Proof.
  intros Hppy H. unfold couponLoop in H.
  apply (loop_invariant _
           (fun st : Date * list Cashflow =>
              StronglySorted Z.lt (map date (snd st)) /\
              Forall (fun x => x < fst st) (map date (snd st)))) in H.
  - destruct H as ([d acc] & [HS _] & Hexit). cbn [snd] in HS.
    destruct (d <=? maturity); [discriminate Hexit|].
    injection Hexit as <-. exact HS.
  - intros [d acc] [d' acc'] [HS HA]. cbn [fst snd] in *.
    destruct (Z.leb_spec d maturity) as [Hle|]; [|intros [=]].
    intros [= <- <-].
    pose proof (addMonthsEOM_fwd ppy Hppy d) as Hfw.
    destruct (Z.ltb_spec curve d) as [Hlt|].
    + rewrite map_app. cbn [map date]. split.
      * apply StronglySorted_snoc; assumption.
      * apply Forall_app. split.
        -- eapply Forall_impl; [|exact HA]. cbv beta. intros; lia.
        -- constructor; [exact Hfw|constructor].
    + split; [exact HS|]. eapply Forall_impl; [|exact HA]. cbv beta. intros; lia.
  - cbn. split; constructor.
Qed.

(** X10.  For one, two or four periods a year the cashflows are emitted
    in strictly ascending date order. *)
Theorem schedule_ascending fuel p cfs :
  frequencyPerYear p = 1 \/ frequencyPerYear p = 2 \/ frequencyPerYear p = 4 ->
  buildCashflowsForSecurity fuel p = Some cfs ->
  StronglySorted Z.lt (map date cfs).
Proof.
  intros Hppy H. unfold buildCashflowsForSecurity, bind in H.
  destruct (match firstInterestPaymentDate p with
            | Some d => Some d
            | None => _
            end) as [first|]; [|discriminate].
  eapply couponLoop_ascending; eassumption.
Qed.

Lemma schedule_ascending_witness :
  exists cfs,
    (frequencyPerYear unanchored2020 = 1 \/ frequencyPerYear unanchored2020 = 2
     \/ frequencyPerYear unanchored2020 = 4) /\
    buildCashflowsForSecurity 100 unanchored2020 = Some cfs /\
    StronglySorted Z.lt (map date cfs).
Proof.
  eexists. split; [right; left; reflexivity|].
  split; [vm_compute; reflexivity|].
  apply (schedule_ascending 100 unanchored2020);
    [right; left; reflexivity|vm_compute; reflexivity].
Defined.

Lemma couponLoop_times fuel curve maturity coupon months first cfs :
  couponLoop fuel curve maturity coupon months first = Some cfs ->
  Forall (fun cf =>
            tYears cf = (daysBetween curve (date cf) / DAYS_IN_YEAR)%Q) cfs.
Proof.
  unfold couponLoop. intros H.
  apply (loop_invariant _
           (fun st : Date * list Cashflow =>
              Forall (fun cf =>
                        tYears cf
                        = (daysBetween curve (date cf) / DAYS_IN_YEAR)%Q)
                     (snd st))) in H.
  - destruct H as ([d acc] & HI & Hexit). cbn [snd] in HI.
    destruct (d <=? maturity); [discriminate Hexit|].
    injection Hexit as <-. exact HI.
  - intros [d acc] [d' acc'] HI. cbn [snd] in *.
    destruct (d <=? maturity); [|intros [=]].
    intros [= <- <-].
    destruct (curve <? d); [|exact HI].
    apply Forall_app. split; [exact HI|].
    constructor; [reflexivity|constructor].
  - constructor.
Qed.

(** X11.  With a positive rate and a positive frequency every emitted
    cashflow is dated after the valuation date and not after maturity, its
    amount is rate / frequency, plus 100 exactly on the maturity date, and
    its time in years is the day count from the valuation date over
    365.25; amount and time are strictly positive. *)
Theorem schedule_amounts fuel p rate cfs :
  interestRatePercent p = Some rate -> (0 < rate)%Q ->
  0 < frequencyPerYear p ->
  buildCashflowsForSecurity fuel p = Some cfs ->
  Forall (fun cf =>
            curveDate p < date cf <= maturityDate p /\
            (amount cf ==
               rate / inject_Z (frequencyPerYear p)
               + (if date cf =? maturityDate p then 100 else 0))%Q /\
            (0 < amount cf)%Q /\
            (tYears cf == daysBetween (curveDate p) (date cf) / DAYS_IN_YEAR)%Q /\
            (0 < tYears cf)%Q) cfs.
Proof.
  intros Er Hr Hp H.
  pose proof (Claims.buildCashflows_dates_amounts fuel p rate cfs Er Hr Hp H) as HA.
  unfold buildCashflowsForSecurity, bind in H. rewrite Er in H.
  destruct (match firstInterestPaymentDate p with
            | Some d => Some d
            | None => _
            end) as [first|]; [|discriminate].
  pose proof (couponLoop_times _ _ _ _ _ _ _ H) as HT.
  apply Claims.couponLoop_emits in H.
  rewrite Forall_forall in *. intros cf Hin.
  destruct (H cf Hin) as [Hd Ham]. destruct (HA cf Hin) as [_ Hpos].
  specialize (HT cf Hin).
  assert (Hf : ~ (inject_Z (frequencyPerYear p) == 0)%Q).
  { unfold Qeq, inject_Z; cbn. lia. }
  repeat split; try lia; try exact Hpos.
  - rewrite Ham. unfold faceValue.
    destruct (date cf =? maturityDate p); field; exact Hf.
  - rewrite HT. reflexivity.
  - rewrite HT. unfold daysBetween, getTime, DAYS_IN_YEAR.
    unfold Qlt, Qdiv, Qmult, Qinv, inject_Z; cbn. lia.
Qed.

Lemma schedule_amounts_witness :
  exists cfs,
    interestRatePercent unanchored2020 = Some 4%Q /\ (0 < 4)%Q /\
    0 < frequencyPerYear unanchored2020 /\
    buildCashflowsForSecurity 100 unanchored2020 = Some cfs /\
    Forall (fun cf =>
              curveDate unanchored2020 < date cf <= maturityDate unanchored2020 /\
              (amount cf ==
                 4 / inject_Z (frequencyPerYear unanchored2020)
                 + (if date cf =? maturityDate unanchored2020 then 100 else 0))%Q /\
              (0 < amount cf)%Q /\
              (tYears cf == daysBetween (curveDate unanchored2020) (date cf)
                            / DAYS_IN_YEAR)%Q /\
              (0 < tYears cf)%Q) cfs.
Proof.
  eexists. split; [reflexivity|]. split; [reflexivity|]. split; [reflexivity|].
  split; [vm_compute; reflexivity|].
  apply (schedule_amounts 100 unanchored2020 4);
    [reflexivity|reflexivity|reflexivity|vm_compute; reflexivity].
Defined.

Lemma couponLoop_meets_maturity ppy fuel curve maturity coupon first n cfs :
  ppy = 1 \/ ppy = 2 \/ ppy = 4 ->
  Nat.iter n (fun d => addMonthsEOM d (12 / inject_Z ppy)) first = maturity ->
  curve < maturity ->
  couponLoop fuel curve maturity coupon (12 / inject_Z ppy) first = Some cfs ->
  exists init,
    cfs = init ++ [{| date := maturity;
                      tYears := (daysBetween curve maturity / DAYS_IN_YEAR)%Q;
                      amount := (coupon + faceValue)%Q |}].
Proof.
  intros Hppy Hn Hcurve H. unfold couponLoop in H.
  set (step := fun d => addMonthsEOM d (12 / inject_Z ppy)) in *.
  set (principal := {| date := maturity;
                       tYears := (daysBetween curve maturity / DAYS_IN_YEAR)%Q;
                       amount := (coupon + faceValue)%Q |}).
  apply (loop_invariant _
           (fun st : Date * list Cashflow =>
              (exists j, (j <= n)%nat /\ fst st = Nat.iter j step first) \/
              (maturity < fst st /\ exists init, snd st = init ++ [principal])))
    in H.
  - destruct H as ([d acc] & HI & Hexit). cbn [fst snd] in HI.
    destruct (Z.leb_spec d maturity) as [|Hgt]; [discriminate Hexit|].
    injection Hexit as <-.
    destruct HI as [(j & Hj & ->)|[_ Hacc]]; [|exact Hacc].
    destruct (iter_fwd_le ppy first j n Hppy Hj) as [Hle _].
    fold step in Hle. rewrite Hn in Hle. lia.
  - intros [d acc] [d' acc'] HI. cbn [fst snd] in *.
    destruct (Z.leb_spec d maturity) as [Hle|]; [|intros [=]].
    intros [= <- <-].
    destruct HI as [(j & Hj & ->)|[Hgt _]]; [|lia].
    destruct (Nat.eq_dec j n) as [->|Hne].
    + right. fold step in Hn. rewrite Hn.
      pose proof (addMonthsEOM_fwd ppy Hppy maturity) as Hfw.
      split; [exact Hfw|].
      destruct (Z.ltb_spec curve maturity); [|lia].
      unfold getTime. rewrite Z.eqb_refl. exists acc. reflexivity.
    + left. exists (S j). split; [lia|reflexivity].
  - left. exists 0%nat. split; [lia|reflexivity].
Qed.

(** X24.  When the first coupon date is given, or derived from the dated
    date, and the maturity date is met exactly by a number of forward
    steps from it, the last cashflow of the schedule is dated at maturity
    and its amount is rate / frequency plus the face value 100 (for one,
    two or four periods a year and a valuation date before maturity). *)
Theorem aligned_schedule_ends_with_principal fuel p rate first n cfs :
  frequencyPerYear p = 1 \/ frequencyPerYear p = 2 \/ frequencyPerYear p = 4 ->
  interestRatePercent p = Some rate ->
  let months := (12 / inject_Z (frequencyPerYear p))%Q in
  firstInterestPaymentDate p = Some first \/
  (firstInterestPaymentDate p = None /\
   exists dated, datedDate p = Some dated /\ first = addMonthsEOM dated months) ->
  Nat.iter n (fun d => addMonthsEOM d months) first = maturityDate p ->
  curveDate p < maturityDate p ->
  buildCashflowsForSecurity fuel p = Some cfs ->
  exists init last,
    cfs = init ++ [last] /\ date last = maturityDate p /\
    (amount last == rate / inject_Z (frequencyPerYear p) + 100)%Q.
Proof.
  intros Hppy Er months Hfirst Hn Hcurve H.
  unfold buildCashflowsForSecurity in H. rewrite Er in H.
  assert (Hloop : couponLoop fuel (curveDate p) (maturityDate p)
                    (faceValue * (rate / 100) / inject_Z (frequencyPerYear p))
                    months first = Some cfs).
  { destruct Hfirst as [E|(E & dated & Ed & ->)]; rewrite E in H;
      [|rewrite Ed in H]; exact H. }
  destruct (couponLoop_meets_maturity _ _ _ _ _ _ _ _ Hppy Hn Hcurve Hloop)
    as [init ->].
  eexists. eexists. split; [reflexivity|]. cbn [date amount].
  split; [reflexivity|]. unfold faceValue. field.
  unfold Qeq, inject_Z; cbn. lia.
Qed.

Lemma aligned_schedule_ends_with_principal_witness :
  let p := {| curveDate := CURVE_DATE; maturityDate := ymd 2027 1 15;
              interestRatePercent := Some 4%Q; frequencyPerYear := 2;
              datedDate := Some (ymd 2024 1 15);
              firstInterestPaymentDate := None |} in
  exists cfs,
    (frequencyPerYear p = 1 \/ frequencyPerYear p = 2 \/ frequencyPerYear p = 4) /\
    interestRatePercent p = Some 4%Q /\
    let months := (12 / inject_Z (frequencyPerYear p))%Q in
    (firstInterestPaymentDate p = Some (ymd 2024 7 15) \/
     (firstInterestPaymentDate p = None /\
      exists dated, datedDate p = Some dated
                    /\ ymd 2024 7 15 = addMonthsEOM dated months)) /\
    Nat.iter 5 (fun d => addMonthsEOM d months) (ymd 2024 7 15)
      = maturityDate p /\
    curveDate p < maturityDate p /\
    buildCashflowsForSecurity 100 p = Some cfs /\
    exists init last,
      cfs = init ++ [last] /\ date last = maturityDate p /\
      (amount last == 4 / inject_Z (frequencyPerYear p) + 100)%Q.
Proof.
  intros p. eexists.
  split; [right; left; reflexivity|]. split; [reflexivity|].
  split; [right; split; [reflexivity|eexists; split; reflexivity]|].
  split; [reflexivity|]. split; [reflexivity|].
  split; [vm_compute; reflexivity|].
  apply (aligned_schedule_ends_with_principal 100 p 4 (ymd 2024 7 15) 5);
    [right; left; reflexivity|reflexivity
    |right; split; [reflexivity|eexists; split; reflexivity]
    |reflexivity|reflexivity|vm_compute; reflexivity].
Defined.

Lemma firstCouponFallback_aligned ppy fuel maturity first :
  ppy = 1 \/ ppy = 2 \/ ppy = 4 -> getDate maturity <= 27 ->
  firstCouponFallback fuel maturity (12 / inject_Z ppy) = Some first ->
  exists n,
    Nat.iter n (fun d => addMonthsEOM d (12 / inject_Z ppy)) first = maturity.
Proof.
  intros Hppy H27 H. unfold firstCouponFallback in H.
  apply (loop_invariant _
           (fun c : Date =>
              getDate c = getDate maturity /\
              exists n,
                Nat.iter n (fun d => addMonthsEOM d (12 / inject_Z ppy)) c
                = maturity)) in H.
  - destruct H as (c & [_ Hn] & Hexit). cbv zeta in Hexit.
    destruct (orb _ _); [|discriminate]. injection Hexit as <-. exact Hn.
  - intros c c' [Hd (n & Hn)]. cbv zeta.
    destruct (orb _ _); [intros [=]|]. intros [= <-].
    destruct (addMonthsEOM_exact_roundtrip ppy c Hppy ltac:(lia)) as [Hrt Hdt].
    split; [lia|]. exists (S n). rewrite Nat.iter_succ_r, Hrt. exact Hn.
  - split; [reflexivity|]. exists 0%nat. reflexivity.
Qed.

(** X25.  Without a first coupon date and without a dated date, for one,
    two or four periods a year and a maturity on the 1st to the 27th of a
    month, the schedule found by walking back from maturity ends at
    maturity: its last cashflow is dated at maturity and its amount is
    rate / frequency plus the face value 100, whenever the valuation date
    is before maturity. *)
Theorem unanchored_schedule_ends_with_principal fuel p rate cfs :
  frequencyPerYear p = 1 \/ frequencyPerYear p = 2 \/ frequencyPerYear p = 4 ->
  interestRatePercent p = Some rate ->
  firstInterestPaymentDate p = None -> datedDate p = None ->
  getDate (maturityDate p) <= 27 ->
  curveDate p < maturityDate p ->
  buildCashflowsForSecurity fuel p = Some cfs ->
  exists init last,
    cfs = init ++ [last] /\ date last = maturityDate p /\
    (amount last == rate / inject_Z (frequencyPerYear p) + 100)%Q.
Proof.
  intros Hppy Er Ef Ed H27 Hcurve H.
  unfold buildCashflowsForSecurity in H. rewrite Er, Ef, Ed in H.
  destruct (firstCouponFallback _ _ _) as [first|] eqn:Efb; [|discriminate].
  cbn [bind] in H.
  destruct (firstCouponFallback_aligned _ _ _ _ Hppy H27 Efb) as [n Hn].
  destruct (couponLoop_meets_maturity _ _ _ _ _ _ _ _ Hppy Hn Hcurve H)
    as [init ->].
  eexists. eexists. split; [reflexivity|]. cbn [date amount].
  split; [reflexivity|]. unfold faceValue. field.
  unfold Qeq, inject_Z; cbn. lia.
Qed.

Lemma unanchored_schedule_ends_with_principal_witness :
  exists cfs,
    (frequencyPerYear unanchored2020 = 1 \/ frequencyPerYear unanchored2020 = 2
     \/ frequencyPerYear unanchored2020 = 4) /\
    interestRatePercent unanchored2020 = Some 4%Q /\
    firstInterestPaymentDate unanchored2020 = None /\
    datedDate unanchored2020 = None /\
    getDate (maturityDate unanchored2020) <= 27 /\
    curveDate unanchored2020 < maturityDate unanchored2020 /\
    buildCashflowsForSecurity 100 unanchored2020 = Some cfs /\
    exists init last,
      cfs = init ++ [last] /\ date last = maturityDate unanchored2020 /\
      (amount last == 4 / inject_Z (frequencyPerYear unanchored2020) + 100)%Q.
Proof.
  eexists.
  split; [right; left; reflexivity|]. split; [reflexivity|].
  split; [reflexivity|]. split; [reflexivity|].
  split; [vm_compute; congruence|]. split; [reflexivity|].
  split; [vm_compute; reflexivity|].
  apply (unanchored_schedule_ends_with_principal 100 unanchored2020 4);
    [right; left; reflexivity|reflexivity|reflexivity|reflexivity
    |vm_compute; congruence|reflexivity|vm_compute; reflexivity].
Defined.

(** X12.  With more than twelve periods a year the month count of a
    period, 12 / frequency, is cut to zero by [setMonth]; the date does not
    advance, and from a first coupon date that is not after maturity the
    schedule loop never finishes. *)
Theorem schedule_stalls_above_twelve fuel p first :
  12 < frequencyPerYear p ->
  firstInterestPaymentDate p = Some first ->
  first <= maturityDate p ->
  addMonthsEOM first (12 / inject_Z (frequencyPerYear p)) = first /\
  buildCashflowsForSecurity fuel p = None.
Proof.
  intros Hp Ef Hle. split; [apply addMonthsEOM_short_period, Hp|].
  unfold buildCashflowsForSecurity. rewrite Ef. cbn [bind]. unfold couponLoop.
  apply (loop_never _ (fun st : Date * list Cashflow => fst st = first));
    [|reflexivity].
  intros [d acc]. cbn [fst]. intros ->.
  destruct (Z.leb_spec first (maturityDate p)); [|lia].
  rewrite addMonthsEOM_short_period by exact Hp.
  eexists. split; [reflexivity|reflexivity].
Qed.

Lemma schedule_stalls_above_twelve_witness :
  let p := {| curveDate := CURVE_DATE; maturityDate := ymd 2026 11 30;
              interestRatePercent := Some 4%Q; frequencyPerYear := 52;
              datedDate := None;
              firstInterestPaymentDate := Some (ymd 2026 1 15) |} in
  12 < frequencyPerYear p /\
  firstInterestPaymentDate p = Some (ymd 2026 1 15) /\
  ymd 2026 1 15 <= maturityDate p /\
  addMonthsEOM (ymd 2026 1 15) (12 / inject_Z (frequencyPerYear p))
    = ymd 2026 1 15 /\
  buildCashflowsForSecurity 7 p = None.
Proof.
  split; [reflexivity|]. split; [reflexivity|].
  split; [vm_compute; congruence|].
  apply (schedule_stalls_above_twelve 7
           {| curveDate := CURVE_DATE; maturityDate := ymd 2026 11 30;
              interestRatePercent := Some 4%Q; frequencyPerYear := 52;
              datedDate := None;
              firstInterestPaymentDate := Some (ymd 2026 1 15) |}
           (ymd 2026 1 15));
    [reflexivity|reflexivity|vm_compute; congruence].
Defined.


(** ** calculateTreasuryAnalytics *)

(** X13.  Without a price row for the CUSIP the answer is the tagged
    "no price record" error, and with a price row but no security row the
    "no security record" error, for every clock reading and without any
    loop being entered; a success payload is only built from both rows,
    echoes the CUSIP and carries the price row's quote as clean price. *)
Theorem analytics_needs_both_rows fuel env cusip today :
  let price := find (fun p => String.eqb (p_cusip p) cusip) (prices env) in
  let sec := find (fun s => String.eqb (s_cusip s) cusip) (securities env) in
  (price = None ->
   calculateTreasuryAnalytics fuel env cusip today =
   Some (inl ("No price record found in 'nov18_treasury_securities' for CUSIP "
              ++ cusip ++ ".")%string)) /\
  (price <> None -> sec = None ->
   calculateTreasuryAnalytics fuel env cusip today =
   Some (inl ("No security record found in 'additional_data_new' for CUSIP "
              ++ cusip ++ ".")%string)) /\
  (forall r,
     calculateTreasuryAnalytics fuel env cusip today = Some (inr r) ->
     exists p s,
       price = Some p /\ sec = Some s /\ p_cusip p = cusip /\ s_cusip s = cusip /\
       Analytics.cusip r = cusip /\
       Analytics.cleanPricePer100 r = END_OF_DAY p).
Proof.
  intros price sec. subst price sec. unfold calculateTreasuryAnalytics.
  destruct (find _ (prices env)) as [p|] eqn:Ep.
  2: { repeat split; try congruence; intros r [=]. }
  destruct (find _ (securities env)) as [s|] eqn:Es.
  2: { repeat split; try congruence; intros r [=]. }
  repeat split; try congruence.
  intros r H. exists p, s.
  apply find_some in Ep. apply find_some in Es.
  destruct Ep as [_ Ep]. destruct Es as [_ Es].
  apply String.eqb_eq in Ep. apply String.eqb_eq in Es.
  destruct (nextBusinessDay fuel today); [|discriminate]. cbn [bind] in H.
  destruct (isBill _ || _ || _).
  - injection H as <-. cbn. repeat split; assumption.
  - destruct (couponBracket _ _ _ _) as [[l n]|]; [|discriminate].
    cbn [bind] in H. injection H as <-. cbn. repeat split; assumption.
Qed.

Lemma analytics_needs_both_rows_witness :
  let price := find (fun p => String.eqb (p_cusip p) "NONE") (prices env) in
  let sec := find (fun s => String.eqb (s_cusip s) "NONE") (securities env) in
  (price = None ->
   calculateTreasuryAnalytics 0 env "NONE" CURVE_DATE =
   Some (inl ("No price record found in 'nov18_treasury_securities' for CUSIP "
              ++ "NONE" ++ ".")%string)) /\
  (price <> None -> sec = None ->
   calculateTreasuryAnalytics 0 env "NONE" CURVE_DATE =
   Some (inl ("No security record found in 'additional_data_new' for CUSIP "
              ++ "NONE" ++ ".")%string)) /\
  (forall r,
     calculateTreasuryAnalytics 0 env "NONE" CURVE_DATE = Some (inr r) ->
     exists p s,
       price = Some p /\ sec = Some s /\ p_cusip p = "NONE"%string /\
       s_cusip s = "NONE"%string /\
       Analytics.cusip r = "NONE"%string /\
       Analytics.cleanPricePer100 r = END_OF_DAY p).
Proof. apply (analytics_needs_both_rows 0 env "NONE" CURVE_DATE). Defined.

(** On rows with valid dates [calculateTreasuryAnalytics] answers: for
    every CUSIP and clock reading there is a bound on the loop entries
    within which it returns, an error or a payload. *)
Lemma analytics_returns_on_valid_dates env cusip today :
  exists n, forall fuel, (n <= fuel)%nat ->
    exists res, calculateTreasuryAnalytics fuel env cusip today = Some res.
Proof.
  unfold calculateTreasuryAnalytics.
  destruct (find _ (prices env)) as [p|];
    [|exists 0%nat; intros; eexists; reflexivity].
  destruct (find _ (securities env)) as [s|];
    [|exists 0%nat; intros; eexists; reflexivity].
  exists (Nat.max 3 (S (Z.to_nat (Day (MaturityDate s) / 28)))).
  intros fuel Hf.
  destruct (nextBusinessDay_returns today fuel ltac:(lia)) as (st & -> & _).
  cbn [bind].
  destruct (getFrequencyPerYear_cases (SecurityType s)
              (InterestPaymentFrequency s) (rateOrZero (InterestRate s)))
    as [[Hb _]|[Hb Hq]]; cbv zeta in *; rewrite Hb; cbn [orb];
    [eexists; reflexivity|].
  destruct (orb _ _); [eexists; reflexivity|].
  destruct (couponBracket_returns _ Hq fuel (MaturityDate s) st ltac:(lia))
    as [[l n] ->].
  cbn [bind]. eexists. reflexivity.
Qed.

(** The answer taken through the coupon branch on an Invalid Date
    maturity. *)
Lemma analytics_hang fuel env cusip today priceRow secRow :
  find (fun p => String.eqb (p_cusip p) cusip) (Obj.prices env)
    = Some priceRow ->
  find (fun s => String.eqb (Obj.s_cusip s) cusip) (Obj.securities env)
    = Some secRow ->
  (isBill (getFrequencyPerYear (Obj.SecurityType secRow)
             (Obj.InterestPaymentFrequency secRow)
             (rateOrZero (Obj.InterestRate secRow)))
   || (frequency (getFrequencyPerYear (Obj.SecurityType secRow)
                    (Obj.InterestPaymentFrequency secRow)
                    (rateOrZero (Obj.InterestRate secRow))) =? 0)
   || Qeq_bool (rateOrZero (Obj.InterestRate secRow) / 100) 0) = false ->
  Obj.MaturityDate secRow = None ->
  Obj.calculateTreasuryAnalytics fuel env cusip today = None.
Proof.
  intros Hp Hs Hb Hm. unfold Obj.calculateTreasuryAnalytics.
  rewrite Hp, Hs, Hm.
  destruct (nextBusinessDay fuel today) as [settlement|]; [|reflexivity].
  cbn [bind]. rewrite Hb, couponBracket_invalid. reflexivity.
Qed.

(** X14.  [calculateTreasuryAnalytics] on rows as [parseISODate] presents
    them.  When the CUSIP has both rows, the security is not handled as a
    bill and its maturity is Invalid Date, the call never returns: the
    bracket walk runs on, and no exception is raised for the [catch] block
    to take.  In every other case, for every clock reading, it returns
    within a bound on the loop entries, and what it returns is not the
    internal error of the [catch] block. *)
Theorem analytics_returns_unless_invalid env cusip today :
  let price := find (fun p => String.eqb (p_cusip p) cusip) (Obj.prices env) in
  let sec :=
    find (fun s => String.eqb (Obj.s_cusip s) cusip) (Obj.securities env) in
  let asBill s :=
    let fq := getFrequencyPerYear (Obj.SecurityType s)
                (Obj.InterestPaymentFrequency s)
                (rateOrZero (Obj.InterestRate s)) in
    isBill fq || (frequency fq =? 0)
    || Qeq_bool (rateOrZero (Obj.InterestRate s) / 100) 0 in
  let walksInvalid :=
    price <> None /\
    exists s, sec = Some s /\ asBill s = false /\ Obj.MaturityDate s = None in
  (walksInvalid ->
   forall fuel, Obj.calculateTreasuryAnalytics fuel env cusip today = None) /\
  (~ walksInvalid ->
   exists n, forall fuel, (n <= fuel)%nat ->
     exists res,
       Obj.calculateTreasuryAnalytics fuel env cusip today = Some res /\
       res <> inl Obj.internalError).
Proof.
  intros price sec asBill walksInvalid.
  subst walksInvalid asBill price sec. cbv beta zeta. split.
  - intros (Hp & s & Hs & Hb & Hm) fuel.
    destruct (find _ (Obj.prices env)) as [p|] eqn:Ep; [|congruence].
    apply (analytics_hang fuel env cusip today p s); assumption.
  - intros Hnot. unfold Obj.calculateTreasuryAnalytics.
    destruct (find _ (Obj.prices env)) as [p|].
    2: { exists 0%nat. intros fuel _. eexists. split; [reflexivity|].
         cbn. intros [=]. }
    destruct (find _ (Obj.securities env)) as [s|].
    2: { exists 0%nat. intros fuel _. eexists. split; [reflexivity|].
         cbn. intros [=]. }
    destruct (isBill _ || _ || _) eqn:Eb.
    { exists 3%nat. intros fuel Hf.
      destruct (nextBusinessDay_returns today fuel Hf) as (st & -> & _).
      cbn [bind]. eexists. split; [reflexivity|]. intros [=]. }
    destruct (Obj.MaturityDate s) as [m|] eqn:Em.
    2: { exfalso. apply Hnot. split; [discriminate|].
         exists s. repeat split; assumption. }
    destruct (getFrequencyPerYear_cases (Obj.SecurityType s)
                (Obj.InterestPaymentFrequency s)
                (rateOrZero (Obj.InterestRate s)))
      as [[Hb _]|[_ Hq]]; cbv zeta in *;
      [rewrite Hb in Eb; discriminate|].
    exists (Nat.max 3 (S (Z.to_nat (Day m / 28)))). intros fuel Hf.
    destruct (nextBusinessDay_returns today fuel ltac:(lia)) as (st & -> & _).
    cbn [bind]. rewrite couponBracket_valid.
    destruct (couponBracket_returns _ Hq fuel m st ltac:(lia)) as [[l n] ->].
    cbn [option_map bind fst snd]. eexists. split; [reflexivity|].
    intros [=].
Qed.

Lemma analytics_returns_unless_invalid_witness :
  (forall fuel,
     Obj.calculateTreasuryAnalytics fuel unparsedEnv "NOTE20XX"
       (at_time 2025 11 19 10) = None) /\
  (exists n, forall fuel, (n <= fuel)%nat ->
     exists res,
       Obj.calculateTreasuryAnalytics fuel unparsedEnv "NOTE2034"
         (at_time 2025 11 19 10) = Some res /\
       res <> inl Obj.internalError).
Proof.
  split.
  - apply (analytics_returns_unless_invalid unparsedEnv "NOTE20XX"
             (at_time 2025 11 19 10)).
    split; [discriminate|]. exists unparsedRow. repeat split.
  - apply (analytics_returns_unless_invalid unparsedEnv "NOTE2034"
             (at_time 2025 11 19 10)).
    intros (_ & s & Hs & _ & Hm).
    injection Hs as <-. discriminate Hm.
Defined.




(** ** buildCouponBonds *)

Lemma couponRows_in env p s :
  In (p, s) (couponRows env) ->
  In p (prices env) /\ In s (securities env) /\ p_cusip p = s_cusip s /\
  exists rate, InterestRate s = Some rate /\ (0 < rate)%Q.
Proof.
  unfold couponRows. intros H.
  apply in_flat_map in H. destruct H as (p' & Hp & H).
  apply in_map_iff in H. destruct H as (s' & [= -> ->] & H).
  apply filter_In in H. destruct H as [Hs H].
  apply andb_true_iff in H. destruct H as [Hc Hr].
  apply String.eqb_eq in Hc.
  destruct (InterestRate s) as [rate|]; [|discriminate].
  repeat split; try assumption. exists rate. split; [reflexivity|].
  apply negb_true_iff in Hr. apply Qnot_le_lt. intros Hle.
  apply Qle_bool_iff in Hle. congruence.
Qed.

Lemma buildCouponBondsFrom_spec fuel rows bonds :
  buildCouponBondsFrom fuel rows = Some bonds ->
  Forall (fun b => exists p s, In (p, s) rows /\ builtFromRow fuel p s b) bonds.
Proof.
  revert bonds. induction rows as [|[p s] rows IH]; intros bonds H;
    cbn [buildCouponBondsFrom] in H.
  - injection H as <-. constructor.
  - assert (Hweak : forall bs,
              Forall (fun b => exists p0 s0,
                        In (p0, s0) rows /\ builtFromRow fuel p0 s0 b) bs ->
              Forall (fun b => exists p0 s0,
                        In (p0, s0) ((p, s) :: rows)
                        /\ builtFromRow fuel p0 s0 b) bs).
    { intros bs Hbs. eapply Forall_impl; [|exact Hbs]. cbv beta.
      intros b (p0 & s0 & Hin & Hrest). exists p0, s0.
      split; [right; exact Hin|exact Hrest]. }
    destruct (isBill _ || _ || _) eqn:Eskip.
    + apply Hweak, IH, H.
    + destruct (buildCashflowsForSecurity _ _) as [cfs|] eqn:Ecfs;
        [|discriminate]. cbn [bind] in H.
      destruct (buildCouponBondsFrom fuel rows) as [rest|]; [|discriminate].
      cbn [bind] in H. specialize (IH rest eq_refl).
      apply orb_false_iff in Eskip. destruct Eskip as [Eskip _].
      apply orb_false_iff in Eskip. destruct Eskip as [Ebill _].
      destruct cfs as [|cf cfs]; injection H as <-; [apply Hweak, IH|].
      constructor; [|apply Hweak, IH].
      exists p, s. split; [left; reflexivity|].
      unfold builtFromRow. cbn [cusip dirtyPrice cashflows].
      repeat split; try assumption. discriminate.
Qed.

(** X16.  Every bond of the calibration universe comes from a price row
    and a security row with the same CUSIP, has a rate above zero, is not
    classified as a bill, carries the price row's quote as its dirty price
    and has at least one future cashflow, its schedule being the one built
    against the fixed curve date. *)
Theorem universe_is_coupon_bearing fuel env bonds :
  buildCouponBonds fuel env = Some bonds ->
  Forall (fun b =>
            exists p s rate,
              In p (prices env) /\ In s (securities env) /\
              p_cusip p = cusip b /\ s_cusip s = cusip b /\
              dirtyPrice b = END_OF_DAY p /\
              InterestRate s = Some rate /\ (0 < rate)%Q /\
              cashflows b <> [] /\
              let fq := getFrequencyPerYear (SecurityType s)
                          (InterestPaymentFrequency s) rate in
              isBill fq = false /\
              buildCashflowsForSecurity fuel
                {| curveDate := CURVE_DATE; maturityDate := MaturityDate s;
                   interestRatePercent := Some rate;
                   frequencyPerYear := frequency fq;
                   datedDate := DatedDate s;
                   firstInterestPaymentDate := FirstInterestPaymentDate s |}
              = Some (cashflows b)) bonds.
Proof.
  unfold buildCouponBonds. intros H. apply buildCouponBondsFrom_spec in H.
  eapply Forall_impl; [|exact H]. unfold builtFromRow. cbv beta zeta.
  intros b (p & s & Hin & Hc & Hd & Hne & Hb & Hcfs).
  apply couponRows_in in Hin.
  destruct Hin as (Hp & Hs & Hps & rate & Er & Hr).
  rewrite Er in Hb, Hcfs. cbn [rateOrZero] in Hb, Hcfs.
  exists p, s, rate. repeat split; try assumption; congruence.
Qed.

Lemma universe_is_coupon_bearing_witness :
  exists bonds,
    buildCouponBonds 100 env = Some bonds /\
    Forall (fun b =>
              exists p s rate,
                In p (prices env) /\ In s (securities env) /\
                p_cusip p = cusip b /\ s_cusip s = cusip b /\
                dirtyPrice b = END_OF_DAY p /\
                InterestRate s = Some rate /\ (0 < rate)%Q /\
                cashflows b <> [] /\
                let fq := getFrequencyPerYear (SecurityType s)
                            (InterestPaymentFrequency s) rate in
                isBill fq = false /\
                buildCashflowsForSecurity 100
                  {| curveDate := CURVE_DATE; maturityDate := MaturityDate s;
                     interestRatePercent := Some rate;
                     frequencyPerYear := frequency fq;
                     datedDate := DatedDate s;
                     firstInterestPaymentDate := FirstInterestPaymentDate s |}
                = Some (cashflows b)) bonds.
Proof.
  eexists. split; [vm_compute; reflexivity|].
  apply (universe_is_coupon_bearing 100 env). vm_compute. reflexivity.
Defined.


(** ** The calibration loss *)

(** X17.  The portfolio loss is a sum of squares: it is never negative,
    and it is zero exactly when the curve at that point reprices every
    bond with zero squared error. *)
Theorem loss_is_sum_of_squares bonds theta :
  (0 <= nssLoss bonds theta)%R /\
  (nssLoss bonds theta = 0%R <->
   forall b, In b bonds -> bondSquaredErrorFromNss (paramsAt theta) b = 0%R).
Proof.
  rewrite nssLoss_paramsAt.
  assert (Hpos : forall b, In b bonds ->
                   (0 <= bondSquaredErrorFromNss (paramsAt theta) b)%R)
    by (intros; apply squared_error_nonneg).
  split; [apply fold_left_sum_nonneg, Hpos|]. split.
  - intros Hz. apply (fold_left_sum_zero _ bonds Hpos Hz).
  - intros Hall. clear Hpos. induction bonds as [|b bonds IH]; [reflexivity|].
    cbn [fold_left]. rewrite fold_left_sum, (Hall b (or_introl eq_refl)), IH.
    + Lra.lra.
    + intros b' Hb'. apply Hall. right. exact Hb'.
Qed.

Lemma loss_is_sum_of_squares_witness :
  let bonds := [{| cusip := "NOTE2034"; dirtyPrice := 985 # 10;
                   cashflows := [{| date := ymd 2026 1 15; tYears := 57 # 365;
                                    amount := 102 |}] |}] in
  (0 <= nssLoss bonds theta0)%R /\
  (nssLoss bonds theta0 = 0%R <->
   forall b, In b bonds -> bondSquaredErrorFromNss (paramsAt theta0) b = 0%R).
Proof.
  apply (loss_is_sum_of_squares
           [{| cusip := "NOTE2034"; dirtyPrice := 985 # 10;
               cashflows := [{| date := ymd 2026 1 15; tYears := 57 # 365;
                                amount := 102 |}] |}] theta0).
Defined.

(** ** calibrateNssFromDb, fitNssCurve *)

(** X18.  With a non-empty universe the calibration makes exactly one
    optimizer run, on the portfolio loss and from the fixed initial guess;
    whatever point the optimizer returns, the reported decay constants are
    strictly positive, the reported error is the optimizer's value and
    [bondsUsed] is the number of bonds, at least one. *)
Theorem calibration_outcome fuel env bonds (nelderMead : Optimizer) :
  buildCouponBonds fuel env = Some bonds -> bonds <> [] ->
  let opt := nelderMead (nssLoss bonds) theta0 in
  exists c fit,
    calibrateNssFromDb fuel env = Some c /\ optimizerCalls c = 1%nat /\
    fitNssCurve fuel nelderMead env = Some (inr fit) /\
    runCalibration nelderMead c = inr fit /\
    (0 < tau1 (parameters fit))%R /\ (0 < tau2 (parameters fit))%R /\
    paramsOf (parameters fit) = paramsAt (opt_x opt) /\
    sse fit = opt_fx opt /\ iterations fit = opt_iterations opt /\
    bondsUsed fit = List.length bonds /\ (1 <= bondsUsed fit)%nat.
Proof.
  intros H Hne opt.
  destruct (calibrate_nonempty fuel env bonds H Hne) as (c & Ec & Hcalls & Hrun).
  exists c, (calibratedFrom bonds opt).
  unfold fitNssCurve. rewrite Ec. cbn [bind]. rewrite Hrun. fold opt.
  repeat split; try assumption; try apply exp_pos.
  destruct bonds; [congruence|]. cbn. lia.
Qed.

Lemma calibration_outcome_witness :
  exists bonds,
    buildCouponBonds 100 env = Some bonds /\ bonds <> [] /\
    let opt := stayPut (nssLoss bonds) theta0 in
    exists c fit,
      calibrateNssFromDb 100 env = Some c /\ optimizerCalls c = 1%nat /\
      fitNssCurve 100 stayPut env = Some (inr fit) /\
      runCalibration stayPut c = inr fit /\
      (0 < tau1 (parameters fit))%R /\ (0 < tau2 (parameters fit))%R /\
      paramsOf (parameters fit) = paramsAt (opt_x opt) /\
      sse fit = opt_fx opt /\ iterations fit = opt_iterations opt /\
      bondsUsed fit = List.length bonds /\ (1 <= bondsUsed fit)%nat.
Proof.
  eexists. split; [vm_compute; reflexivity|]. split; [discriminate|].
  apply (calibration_outcome 100 env _ stayPut);
    [vm_compute; reflexivity|discriminate].
Defined.

(** X19.  With an empty universe all three NSS tools return the same
    tagged error, whatever the optimizer and, for the single-CUSIP tool,
    whatever the CUSIP: the calibration is tried before any row is looked
    up. *)
Theorem empty_universe_fails_every_tool fuel env (nelderMead : Optimizer) cusip :
  buildCouponBonds fuel env = Some [] ->
  let msg := "No bonds with usable coupon schedules were found for NSS fit."%string in
  fitNssCurve fuel nelderMead env = Some (inl msg) /\
  analyzeBondsWithNss fuel nelderMead env = Some (inl msg) /\
  analyzeCusipWithNss fuel nelderMead env cusip = Some (inl msg).
Proof.
  intros H msg. apply calibrate_empty in H.
  unfold fitNssCurve, analyzeBondsWithNss, analyzeCusipWithNss.
  rewrite H. cbn [bind runCalibration]. repeat split.
Qed.

Lemma empty_universe_fails_every_tool_witness :
  buildCouponBonds 10 billsOnly = Some [] /\
  let msg := "No bonds with usable coupon schedules were found for NSS fit."%string in
  fitNssCurve 10 stayPut billsOnly = Some (inl msg) /\
  analyzeBondsWithNss 10 stayPut billsOnly = Some (inl msg) /\
  analyzeCusipWithNss 10 stayPut billsOnly "BILL2026" = Some (inl msg).
Proof.
  split; [reflexivity|].
  apply (empty_universe_fails_every_tool 10 billsOnly stayPut "BILL2026").
  reflexivity.
Defined.

(** ** analyzeBondsWithNss *)

(** X20.  With a non-empty universe the portfolio report has one row per
    bond, in order; each row's error is dirty price minus NSS price and
    its square is the squared error; the summed squared error is the
    portfolio loss at the optimizer's point, the RMSE is its non-negative
    root mean, and the number of bonds analysed equals [bondsUsed] of the
    calibration. *)
Theorem portfolio_report fuel env bonds (nelderMead : Optimizer) :
  buildCouponBonds fuel env = Some bonds -> bonds <> [] ->
  let opt := nelderMead (nssLoss bonds) theta0 in
  exists rep,
    analyzeBondsWithNss fuel nelderMead env = Some (inr rep) /\
    let sm := BondsReport.summary rep in
    map BondsReport.cusip (BondsReport.perBond rep) = map cusip bonds /\
    Forall (fun row =>
              BondsReport.error row
              = (Q2R (BondsReport.dirtyPrice row) - BondsReport.nssPrice row)%R /\
              BondsReport.errorSquared row
              = (BondsReport.error row * BondsReport.error row)%R)
           (BondsReport.perBond rep) /\
    BondsReport.sse sm = nssLoss bonds (opt_x opt) /\
    BondsReport.calibrationSse sm = opt_fx opt /\
    BondsReport.bondsAnalyzed sm = List.length bonds /\
    BondsReport.calibrationBondsUsed sm = List.length bonds /\
    (0 <= BondsReport.rmse sm)%R /\
    (BondsReport.rmse sm * BondsReport.rmse sm
     = BondsReport.sse sm / INR (List.length bonds))%R.
Proof.
  intros H Hne opt.
  destruct (calibrate_nonempty fuel env bonds H Hne) as (c & Ec & _ & Hrun).
  unfold analyzeBondsWithNss. rewrite Ec. cbn [bind]. rewrite Hrun, H.
  cbn [bind]. fold opt. rewrite paramsOf_calibratedFrom.
  destruct (priceBonds_rows (paramsAt (opt_x opt)) bonds) as (Hc & Hd & Hrows).
  pose proof (priceBonds_total (paramsAt (opt_x opt)) bonds) as Hacc.
  rewrite <- nssLoss_paramsAt in Hacc.
  destruct (priceBonds (paramsAt (opt_x opt)) bonds) as [perBond total].
  cbn [fst snd] in *. subst total.
  assert (Hlen : List.length perBond = List.length bonds).
  { rewrite <- (length_map BondsReport.cusip), Hc. apply length_map. }
  assert (Hn : match List.length perBond with O => 1%nat | k => k end
               = List.length bonds).
  { rewrite Hlen. destruct bonds; [congruence|reflexivity]. }
  rewrite Hn. eexists. split; [reflexivity|]. cbn.
  pose proof (nssLoss_nonneg bonds (opt_x opt)) as Hpos.
  assert (Hpn : (0 < INR (List.length bonds))%R).
  { apply lt_0_INR. destruct bonds; [congruence|cbn; lia]. }
  assert (Hq : (0 <= nssLoss bonds (opt_x opt) / INR (List.length bonds))%R).
  { apply Rmult_le_pos; [exact Hpos|].
    apply Rlt_le, Rinv_0_lt_compat, Hpn. }
  repeat split; try assumption; try reflexivity.
  - apply sqrt_pos.
  - apply sqrt_sqrt, Hq.
Qed.

Lemma portfolio_report_witness :
  exists bonds,
    buildCouponBonds 100 env = Some bonds /\ bonds <> [] /\
    let opt := stayPut (nssLoss bonds) theta0 in
    exists rep,
      analyzeBondsWithNss 100 stayPut env = Some (inr rep) /\
      let sm := BondsReport.summary rep in
      map BondsReport.cusip (BondsReport.perBond rep) = map cusip bonds /\
      Forall (fun row =>
                BondsReport.error row
                = (Q2R (BondsReport.dirtyPrice row) - BondsReport.nssPrice row)%R /\
                BondsReport.errorSquared row
                = (BondsReport.error row * BondsReport.error row)%R)
             (BondsReport.perBond rep) /\
      BondsReport.sse sm = nssLoss bonds (opt_x opt) /\
      BondsReport.calibrationSse sm = opt_fx opt /\
      BondsReport.bondsAnalyzed sm = List.length bonds /\
      BondsReport.calibrationBondsUsed sm = List.length bonds /\
      (0 <= BondsReport.rmse sm)%R /\
      (BondsReport.rmse sm * BondsReport.rmse sm
       = BondsReport.sse sm / INR (List.length bonds))%R.
Proof.
  eexists. split; [vm_compute; reflexivity|]. split; [discriminate|].
  apply (portfolio_report 100 env _ stayPut);
    [vm_compute; reflexivity|discriminate].
Defined.


(** ** analyzeCusipWithNss *)

(** X21.  Once the calibration has succeeded, a CUSIP without a price row
    gets the tagged "no price record" error and one with a price row but
    no security row the "no security record" error. *)
Theorem cusip_report_needs_both_rows fuel env bonds (nelderMead : Optimizer) cusip :
  buildCouponBonds fuel env = Some bonds -> bonds <> [] ->
  let price := find (fun p => String.eqb (p_cusip p) cusip) (prices env) in
  let sec := find (fun s => String.eqb (s_cusip s) cusip) (securities env) in
  (price = None ->
   analyzeCusipWithNss fuel nelderMead env cusip =
   Some (inl ("No price record found in 'nov18_treasury_securities' for CUSIP "
              ++ cusip ++ ".")%string)) /\
  (price <> None -> sec = None ->
   analyzeCusipWithNss fuel nelderMead env cusip =
   Some (inl ("No security record found in 'additional_data_new' for CUSIP "
              ++ cusip ++ ".")%string)).
Proof.
  intros H Hne price sec. subst price sec.
  destruct (calibrate_nonempty fuel env bonds H Hne) as (c & Ec & _ & Hrun).
  unfold analyzeCusipWithNss. rewrite Ec. cbn [bind]. rewrite Hrun.
  destruct (find _ (prices env)); [|split; congruence].
  destruct (find _ (securities env)); split; congruence.
Qed.

Lemma cusip_report_needs_both_rows_witness :
  exists bonds,
    buildCouponBonds 100 env = Some bonds /\ bonds <> [] /\
    let price := find (fun p => String.eqb (p_cusip p) "NONE") (prices env) in
    let sec := find (fun s => String.eqb (s_cusip s) "NONE") (securities env) in
    (price = None ->
     analyzeCusipWithNss 100 stayPut env "NONE" =
     Some (inl ("No price record found in 'nov18_treasury_securities' for CUSIP "
                ++ "NONE" ++ ".")%string)) /\
    (price <> None -> sec = None ->
     analyzeCusipWithNss 100 stayPut env "NONE" =
     Some (inl ("No security record found in 'additional_data_new' for CUSIP "
                ++ "NONE" ++ ".")%string)).
Proof.
  eexists. split; [vm_compute; reflexivity|]. split; [discriminate|].
  eapply (cusip_report_needs_both_rows 100 env _ stayPut "NONE");
    [vm_compute; reflexivity|discriminate].
Defined.



Lemma cashflowRows_total params (cfs : list Cashflow) :
  fold_left (fun sum row => (sum + CusipReport.presentValue row)%R)
    (map (fun cf =>
            let ySpot := nssYield (Q2R (tYears cf)) params in
            let df := exp (- ySpot * Q2R (tYears cf)) in
            let pv := (Q2R (amount cf) * df)%R in
            {| CusipReport.date := toISODate (date cf);
               CusipReport.tYears := tYears cf;
               CusipReport.amount := amount cf;
               CusipReport.spotRate := ySpot;
               CusipReport.discountFactor := df;
               CusipReport.presentValue := pv |}) cfs) 0%R
  = fold_left
      (fun s cf =>
         (s + Q2R (amount cf)
              * exp (- nssYield (Q2R (tYears cf)) params * Q2R (tYears cf)))%R)
      cfs 0%R.
Proof.
  generalize 0%R. induction cfs as [|cf cfs IH]; intros a; [reflexivity|].
  cbn [map fold_left]. rewrite IH. reflexivity.
Qed.

(** X23.  For a coupon-bearing security with a positive rate the
    single-CUSIP report has one row per cashflow of its schedule, with the
    schedule's times and amounts; the theoretical price is the sum of the
    rows' present values and is not negative (strictly positive when there
    is a cashflow); the pricing error is theoretical minus dirty price, and
    its square is the squared error that the calibration loss charges a
    bond with this quote and schedule. *)
Theorem cusip_report_coupon fuel env bonds (nelderMead : Optimizer) cusip p s
    rate cfs :
  buildCouponBonds fuel env = Some bonds -> bonds <> [] ->
  find (fun p => String.eqb (p_cusip p) cusip) (prices env) = Some p ->
  find (fun s => String.eqb (s_cusip s) cusip) (securities env) = Some s ->
  InterestRate s = Some rate -> (0 < rate)%Q ->
  let fq := getFrequencyPerYear (SecurityType s) (InterestPaymentFrequency s)
              rate in
  isBill fq = false ->
  buildCashflowsForSecurity fuel
    {| curveDate := CURVE_DATE; maturityDate := MaturityDate s;
       interestRatePercent := Some rate; frequencyPerYear := frequency fq;
       datedDate := DatedDate s;
       firstInterestPaymentDate := FirstInterestPaymentDate s |} = Some cfs ->
  let params := paramsAt (opt_x (nelderMead (nssLoss bonds) theta0)) in
  exists rep,
    analyzeCusipWithNss fuel nelderMead env cusip = Some (inr rep) /\
    map CusipReport.tYears (CusipReport.cashflows rep) = map tYears cfs /\
    map CusipReport.amount (CusipReport.cashflows rep) = map amount cfs /\
    CusipReport.theoreticalPricePer100 rep
    = fold_left (fun sum row => (sum + CusipReport.presentValue row)%R)
        (CusipReport.cashflows rep) 0%R /\
    (0 <= CusipReport.theoreticalPricePer100 rep)%R /\
    (cfs <> [] -> (0 < CusipReport.theoreticalPricePer100 rep)%R) /\
    CusipReport.pricingError rep
    = (CusipReport.theoreticalPricePer100 rep - Q2R (END_OF_DAY p))%R /\
    (CusipReport.pricingError rep * CusipReport.pricingError rep)%R
    = bondSquaredErrorFromNss params
        {| cusip := cusip; dirtyPrice := END_OF_DAY p; cashflows := cfs |}.
Proof.
  intros H Hne Hp Hs Er Hr fq Hb Hcfs params.
  destruct (calibrate_nonempty fuel env bonds H Hne) as (c & Ec & _ & Hrun).
  unfold analyzeCusipWithNss. rewrite Ec. cbn [bind]. rewrite Hrun, Hp, Hs, Er.
  cbn [rateOrZero]. fold fq. rewrite Hb. cbn [orb].
  destruct (getFrequencyPerYear_cases (SecurityType s)
              (InterestPaymentFrequency s) rate) as [[Hb' _]|[_ Hf]];
    cbv zeta in *; [fold fq in Hb'; congruence|]. fold fq in Hf.
  assert (Hnz : (frequency fq =? 0) = false) by (apply Z.eqb_neq; lia).
  assert (Hrz : Qeq_bool (rate / 100) 0 = false).
  { apply not_true_is_false. intros E. apply Qeq_bool_eq in E.
    assert (E' : (rate == 0)%Q).
    { rewrite <- (Qmult_div_r rate 100) by discriminate. rewrite E. reflexivity. }
    rewrite E' in Hr. discriminate Hr. }
  rewrite Hnz, Hrz. cbn [orb]. rewrite Hcfs. cbn [bind].
  rewrite paramsOf_calibratedFrom. fold params.
  eexists. split; [reflexivity|].
  cbn [CusipReport.cashflows CusipReport.theoreticalPricePer100
       CusipReport.pricingError].
  rewrite !map_map. cbn [CusipReport.tYears CusipReport.amount].
  rewrite cashflowRows_total.
  assert (Hamt : Forall (fun cf => (0 < amount cf)%Q) cfs).
  { pose proof Hcfs as HA.
    apply buildCashflows_dates_amounts with (rate := rate) in HA.
    - eapply Forall_impl; [|exact HA]. cbv beta. intros cf [_ Ha]. exact Ha.
    - reflexivity.
    - exact Hr.
    - cbn [frequencyPerYear]. lia. }
  destruct (presentValue_nonneg params cfs Hamt) as [H0 H1].
  repeat split; try assumption.
  unfold bondSquaredErrorFromNss. cbn [dirtyPrice cashflows]. cbv zeta.
  ring.
Qed.

Lemma cusip_report_coupon_witness :
  exists bonds cfs,
    buildCouponBonds 100 env = Some bonds /\ bonds <> [] /\
    find (fun p => String.eqb (p_cusip p) "NOTE2034") (prices env)
      = Some notePrice /\
    find (fun s => String.eqb (s_cusip s) "NOTE2034") (securities env)
      = Some noteRow /\
    InterestRate noteRow = Some 4%Q /\ (0 < 4)%Q /\
    let fq := getFrequencyPerYear (SecurityType noteRow)
                (InterestPaymentFrequency noteRow) 4 in
    isBill fq = false /\
    buildCashflowsForSecurity 100
      {| curveDate := CURVE_DATE; maturityDate := MaturityDate noteRow;
         interestRatePercent := Some 4%Q; frequencyPerYear := frequency fq;
         datedDate := DatedDate noteRow;
         firstInterestPaymentDate := FirstInterestPaymentDate noteRow |}
      = Some cfs /\
    let params := paramsAt (opt_x (stayPut (nssLoss bonds) theta0)) in
    exists rep,
      analyzeCusipWithNss 100 stayPut env "NOTE2034" = Some (inr rep) /\
      map CusipReport.tYears (CusipReport.cashflows rep) = map tYears cfs /\
      map CusipReport.amount (CusipReport.cashflows rep) = map amount cfs /\
      CusipReport.theoreticalPricePer100 rep
      = fold_left (fun sum row => (sum + CusipReport.presentValue row)%R)
          (CusipReport.cashflows rep) 0%R /\
      (0 <= CusipReport.theoreticalPricePer100 rep)%R /\
      (cfs <> [] -> (0 < CusipReport.theoreticalPricePer100 rep)%R) /\
      CusipReport.pricingError rep
      = (CusipReport.theoreticalPricePer100 rep - Q2R (END_OF_DAY notePrice))%R /\
      (CusipReport.pricingError rep * CusipReport.pricingError rep)%R
      = bondSquaredErrorFromNss params
          {| cusip := "NOTE2034"; dirtyPrice := END_OF_DAY notePrice;
             cashflows := cfs |}.
Proof.
  eexists. eexists. split; [vm_compute; reflexivity|]. split; [discriminate|].
  split; [reflexivity|]. split; [reflexivity|]. split; [reflexivity|].
  split; [reflexivity|]. split; [reflexivity|].
  split; [vm_compute; reflexivity|].
  apply (cusip_report_coupon 100 env _ stayPut "NOTE2034" notePrice noteRow 4);
    [vm_compute; reflexivity|discriminate|reflexivity|reflexivity|reflexivity
    |reflexivity|reflexivity|vm_compute; reflexivity].
Defined.

End Extras.
